(** * CineCrib recommendation query builder

    A shallow embedding of the handler of [POST /api/v1/recommendations]
    (src/backend/server.js, lines 447-645) together with the part of the
    relational schema it reads (src/backend/db.sql).

    The handler assembles two SQL statements, a count query and a page
    query, from the request body, and sends each one to PostgreSQL with a
    list of bound parameters.  The embedding keeps the two layers apart:

    - the builder produces the [WHERE] conjuncts as syntax trees whose
      rendering is the text the JavaScript template strings produce, and
      the bound parameter list, numbered as the source numbers it;
    - a small relational semantics (left joins, three-valued logic,
      [COUNT(DISTINCT ..)], [GROUP BY], [ORDER BY .. DESC], [LIMIT] and
      [OFFSET]) evaluates those trees over a store.

    Conventions.  Numbers of the request are integers ([Z]), the rating
    floor a rational ([Q]), with exact arithmetic; a field the caller
    leaves out is [None] and takes the default of the destructuring
    pattern.  [pool.connect()] is taken to succeed.  The failures
    modelled are a [JSON.parse] that throws, a bound parameter the
    database refuses for the type of the column it is compared with, and
    a limit or offset it refuses.  Texts are taken to be ones the
    database stores (no NUL character).  [ORDER BY] gives no order to
    rows with equal ratings: the order the database picks for them is an
    input of every execution of the page query ([tie_rule]), and every
    arrangement sorted by the two ratings is the result of one. *)

From Stdlib Require Import List String Ascii Bool Arith ZArith QArith Lia.
From Stdlib Require Import Sorting.Sorted Sorting.Permutation.
From Stdlib Require Import DecimalString.
Import ListNotations.

Local Open Scope string_scope.
Local Open Scope list_scope.
Local Open Scope Z_scope.

(* ------------------------------------------------------------------ *)
(** ** The content store (db.sql) *)

Module Store.

(** [content]: nullable columns are options; [imdb_rating] is
    [NUMERIC(3,1)], [rotten_tomatoes_score] is [INTEGER].  The purely
    descriptive text columns other than [title] play no part in any
    predicate and are left out. *)
Record content := {
  uid : string;
  external_api_id : string;
  title : string;
  release_year : option Z;
  content_type : string;
  duration_minutes : option Z;
  number_of_seasons : option Z;
  imdb_rating : option Q;
  rotten_tomatoes_score : option Z;
  parental_rating : option string
}.

Record genre := { g_uid : string; g_name : string }.

Record streaming_service := {
  ss_uid : string;
  ss_name : string;
  ss_logo_url : option string
}.

Record content_genre := { cg_content_uid : string; cg_genre_uid : string }.

Record availability := {
  csa_content_uid : string;
  csa_service_uid : string;
  csa_watch_link : option string;
  csa_region : string
}.

Record t := {
  tbl_content : list content;
  tbl_content_genres : list content_genre;
  tbl_genres : list genre;
  tbl_availability : list availability;
  tbl_streaming_services : list streaming_service
}.

End Store.
Import Store.

(* ------------------------------------------------------------------ *)
(** ** SQL values and three-valued logic *)

Inductive value :=
| VNull
| VInt (z : Z)
| VNum (q : Q)
| VText (s : string).

Inductive tv := TT | FF | UU.

Definition tv_and (a b : tv) : tv :=
  match a, b with
  | FF, _ | _, FF => FF
  | TT, TT => TT
  | _, _ => UU
  end.

Definition tv_or (a b : tv) : tv :=
  match a, b with
  | TT, _ | _, TT => TT
  | FF, FF => FF
  | _, _ => UU
  end.

Definition tv_not (a : tv) : tv :=
  match a with TT => FF | FF => TT | UU => UU end.

Definition tv_of_bool (b : bool) : tv := if b then TT else FF.

Definition is_true (a : tv) : bool :=
  match a with TT => true | _ => false end.

Definition num_of (v : value) : option Q :=
  match v with
  | VInt z => Some (inject_Z z)
  | VNum q => Some q
  | _ => None
  end.

(** Comparison of two values.  A [NULL] on either side gives unknown.
    The builder only ever compares text with text and numbers with
    numbers; a mixed comparison is given the value unknown. *)
Definition cmp_values (num : Q -> Q -> bool) (txt : string -> string -> bool)
  (a b : value) : tv :=
  match a, b with
  | VText s, VText s' => tv_of_bool (txt s s')
  | _, _ =>
      match num_of a, num_of b with
      | Some p, Some q => tv_of_bool (num p q)
      | _, _ => UU
      end
  end.

Definition Qlt_bool (p q : Q) : bool := negb (Qle_bool q p).

Definition sql_eq : value -> value -> tv := cmp_values Qeq_bool String.eqb.
Definition sql_lt : value -> value -> tv := cmp_values Qlt_bool String.ltb.
Definition sql_le : value -> value -> tv := cmp_values Qle_bool String.leb.
Definition sql_gt (a b : value) : tv := sql_lt b a.
Definition sql_ge (a b : value) : tv := sql_le b a.

(** [x IN (v1, .., vn)] is [x = v1 OR .. OR x = vn]. *)
Definition sql_in (x : value) (vs : list value) : tv :=
  fold_right (fun v acc => tv_or (sql_eq x v) acc) FF vs.

(* ------------------------------------------------------------------ *)
(** ** The joined relation of the [FROM] clause *)

(** One row of
    [content c LEFT JOIN content_genres cg LEFT JOIN genres g
     LEFT JOIN content_streaming_availability csa
     LEFT JOIN streaming_services ss]. *)
Record jrow := {
  j_c : content;
  j_cg : option content_genre;
  j_g : option genre;
  j_csa : option availability;
  j_ss : option streaming_service
}.

Definition left_join {A B : Type} (on : A -> B -> bool)
  (l : list A) (r : list B) : list (A * option B) :=
  flat_map (fun a =>
    match filter (on a) r with
    | [] => [(a, None)]
    | ms => map (fun b => (a, Some b)) ms
    end) l.

Definition on_opt {A B : Type} (key : A -> string) (key' : B -> string)
  (a : option A) (b : B) : bool :=
  match a with
  | Some x => String.eqb (key x) (key' b)
  | None => false
  end.

Definition from_clause (s : Store.t) : list jrow :=
  let j1 := left_join (fun c cg => String.eqb (uid c) (cg_content_uid cg))
              (tbl_content s) (tbl_content_genres s) in
  let j2 := left_join (fun x g => on_opt cg_genre_uid g_uid (snd x) g)
              j1 (tbl_genres s) in
  let j3 := left_join
              (fun x a => String.eqb (uid (fst (fst x))) (csa_content_uid a))
              j2 (tbl_availability s) in
  let j4 := left_join (fun x sv => on_opt csa_service_uid ss_uid (snd x) sv)
              j3 (tbl_streaming_services s) in
  map (fun x =>
         match x with
         | (((c, cg), g), csa, ss) =>
             {| j_c := c; j_cg := cg; j_g := g; j_csa := csa; j_ss := ss |}
         end) j4.

(* ------------------------------------------------------------------ *)
(** ** Syntax of the [WHERE] conjuncts *)

Inductive column :=
| c_content_type
| c_release_year
| c_imdb_rating
| c_rotten_tomatoes_score
| c_parental_rating
| c_duration_minutes
| c_number_of_seasons
| g_uid_col
| ss_uid_col.

Inductive operand :=
| Col (c : column)
| Placeholder (n : nat)
| LitText (s : string)
| LitInt (n : nat).

Inductive cmp_op := OpEq | OpLt | OpGt | OpGe.

Inductive cond :=
| Cmp (a : operand) (o : cmp_op) (b : operand)
| Between (a lo hi : operand)
| InList (a : operand) (l : list operand)
| NotInList (a : operand) (l : list operand)
| And (p q : cond)
| Or (p q : cond)
| Paren (p : cond).

Definition nat_text (n : nat) : string :=
  NilZero.string_of_uint (Nat.to_uint n).

Definition column_text (c : column) : string :=
  match c with
  | c_content_type => "c.content_type"
  | c_release_year => "c.release_year"
  | c_imdb_rating => "c.imdb_rating"
  | c_rotten_tomatoes_score => "c.rotten_tomatoes_score"
  | c_parental_rating => "c.parental_rating"
  | c_duration_minutes => "c.duration_minutes"
  | c_number_of_seasons => "c.number_of_seasons"
  | g_uid_col => "g.uid"
  | ss_uid_col => "ss.uid"
  end.

Definition operand_text (o : operand) : string :=
  match o with
  | Col c => column_text c
  | Placeholder n => "$" ++ nat_text n
  | LitText s => "'" ++ s ++ "'"
  | LitInt n => nat_text n
  end.

Definition cmp_text (o : cmp_op) : string :=
  match o with
  | OpEq => " = "
  | OpLt => " < "
  | OpGt => " > "
  | OpGe => " >= "
  end.

Fixpoint cond_text (p : cond) : string :=
  match p with
  | Cmp a o b => operand_text a ++ cmp_text o ++ operand_text b
  | Between a lo hi =>
      operand_text a ++ " BETWEEN " ++ operand_text lo ++ " AND "
        ++ operand_text hi
  | InList a l =>
      operand_text a ++ " IN (" ++ String.concat "," (map operand_text l)
        ++ ")"
  | NotInList a l =>
      operand_text a ++ " NOT IN ("
        ++ String.concat "," (map operand_text l) ++ ")"
  | And p q => cond_text p ++ " AND " ++ cond_text q
  | Or p q => cond_text p ++ " OR " ++ cond_text q
  | Paren p => "(" ++ cond_text p ++ ")"
  end.

(* ------------------------------------------------------------------ *)
(** ** Evaluation of a conjunct on a joined row *)

Definition opt_value {A : Type} (inj : A -> value) (o : option A) : value :=
  match o with Some x => inj x | None => VNull end.

Definition column_value (c : column) (r : jrow) : value :=
  match c with
  | c_content_type => VText (content_type (j_c r))
  | c_release_year => opt_value VInt (release_year (j_c r))
  | c_imdb_rating => opt_value VNum (imdb_rating (j_c r))
  | c_rotten_tomatoes_score => opt_value VInt (rotten_tomatoes_score (j_c r))
  | c_parental_rating => opt_value VText (parental_rating (j_c r))
  | c_duration_minutes => opt_value VInt (duration_minutes (j_c r))
  | c_number_of_seasons => opt_value VInt (number_of_seasons (j_c r))
  | g_uid_col => opt_value (fun g => VText (g_uid g)) (j_g r)
  | ss_uid_col => opt_value (fun sv => VText (ss_uid sv)) (j_ss r)
  end.

(** Placeholder [$n] is the [n]-th bound parameter, counted from 1. *)
Definition param (params : list value) (n : nat) : value :=
  match n with
  | O => VNull
  | S k => nth k params VNull
  end.

Definition operand_value (params : list value) (r : jrow) (o : operand)
  : value :=
  match o with
  | Col c => column_value c r
  | Placeholder n => param params n
  | LitText s => VText s
  | LitInt n => VInt (Z.of_nat n)
  end.

Definition cmp_eval (o : cmp_op) : value -> value -> tv :=
  match o with
  | OpEq => sql_eq
  | OpLt => sql_lt
  | OpGt => sql_gt
  | OpGe => sql_ge
  end.

Fixpoint eval (params : list value) (r : jrow) (p : cond) : tv :=
  match p with
  | Cmp a o b =>
      cmp_eval o (operand_value params r a) (operand_value params r b)
  | Between a lo hi =>
      tv_and (sql_ge (operand_value params r a) (operand_value params r lo))
             (sql_le (operand_value params r a) (operand_value params r hi))
  | InList a l =>
      sql_in (operand_value params r a) (map (operand_value params r) l)
  | NotInList a l =>
      tv_not (sql_in (operand_value params r a)
                (map (operand_value params r) l))
  | And p q => tv_and (eval params r p) (eval params r q)
  | Or p q => tv_or (eval params r p) (eval params r q)
  | Paren p => eval params r p
  end.

(** A row passes [WHERE c1 AND .. AND cn] when the conjunction is true;
    with no conjunct there is no [WHERE] and every row passes. *)
Definition where_eval (params : list value) (clauses : list cond) (r : jrow)
  : tv :=
  fold_right (fun p acc => tv_and (eval params r p) acc) TT clauses.

Definition passes (params : list value) (clauses : list cond) (r : jrow)
  : bool :=
  is_true (where_eval params clauses r).

(* ------------------------------------------------------------------ *)
(** ** The types of the bound parameters (db.sql 45-62)

    The driver sends every parameter as text and PostgreSQL gives a
    placeholder the type of the column it is compared with.  A value
    that is not a literal of that type makes the whole statement fail,
    before any row is read: a number with a fraction, or one outside the
    32-bit range, bound against an [INTEGER] column. *)

Inductive sql_type := TInteger | TNumeric | TText.

Definition column_type (c : column) : sql_type :=
  match c with
  | c_content_type => TText
  | c_release_year => TInteger
  | c_imdb_rating => TNumeric
  | c_rotten_tomatoes_score => TInteger
  | c_parental_rating => TText
  | c_duration_minutes => TInteger
  | c_number_of_seasons => TInteger
  | g_uid_col => TText
  | ss_uid_col => TText
  end.

Definition in_int4 (z : Z) : bool :=
  (-2147483648 <=? z) && (z <=? 2147483647).

(** The largest [BIGINT], the type of [LIMIT] and [OFFSET]. *)
Definition int8_max : Z := 9223372036854775807.

(** A rational that is a whole number, and that number. *)
Definition integral (q : Q) : bool := Qnum q mod Zpos (Qden q) =? 0.
Definition whole_part (q : Q) : Z := Qnum q / Zpos (Qden q).

(** Whether the database takes the value for a parameter of the type.
    The builder binds texts to text columns only; a text against a
    number column does not occur and is given [false]. *)
Definition accepts (t : sql_type) (v : value) : bool :=
  match t, v with
  | _, VNull => true
  | TInteger, VInt z => in_int4 z
  | TInteger, VNum q => integral q && in_int4 (whole_part q)
  | TNumeric, VInt _ => true
  | TNumeric, VNum _ => true
  | TText, _ => true
  | _, VText _ => false
  end.

Definition operand_type (o : operand) : option sql_type :=
  match o with
  | Col c => Some (column_type c)
  | _ => None
  end.

(** A placeholder compared with a column must hold a value of the type
    of the column. *)
Definition binds (params : list value) (t : option sql_type) (o : operand)
  : bool :=
  match t, o with
  | Some ty, Placeholder n => accepts ty (param params n)
  | _, _ => true
  end.

Fixpoint well_typed (params : list value) (p : cond) : bool :=
  match p with
  | Cmp a _ b =>
      binds params (operand_type a) b && binds params (operand_type b) a
  | Between a lo hi =>
      binds params (operand_type a) lo && binds params (operand_type a) hi
  | InList a l => forallb (binds params (operand_type a)) l
  | NotInList a l => forallb (binds params (operand_type a)) l
  | And p q => well_typed params p && well_typed params q
  | Or p q => well_typed params p && well_typed params q
  | Paren p => well_typed params p
  end.

Definition typed_where (params : list value) (clauses : list cond) : bool :=
  forallb (well_typed params) clauses.

(* ------------------------------------------------------------------ *)
(** ** The request body and its destructuring (server.js 448-462) *)

(** [parental_rating_filter_json] is a text handed to [JSON.parse].
    [JsonArray l] stands for a text that parses to the array [l] (the
    text ['[]'] is [JsonArray []]); [JsonUnparsable] for a non-empty text
    on which [JSON.parse] throws. *)
Inductive json_text :=
| JsonArray (items : list string)
| JsonUnparsable.

(** The raw body: a field the caller left out is [None]. *)
Record body := {
  body_mood_uid : option string;
  body_streaming_service_uids : option (list string);
  body_genre_uids : option (list string);
  body_min_release_year : option Z;
  body_max_release_year : option Z;
  body_preferred_duration_category : option string;
  body_min_rating : option Q;
  body_preferred_content_type : option string;
  body_parental_rating_filter_json : option json_text;
  body_excluded_genre_uids : option (list string);
  body_excluded_service_uids : option (list string);
  body_page : option Z;
  body_page_size : option Z
}.

(** The constants bound by the destructuring pattern, defaults applied.
    [streaming_service_uids] and [genre_uids] have no default. *)
Record args := {
  mood_uid : option string;
  streaming_service_uids : option (list string);
  genre_uids : option (list string);
  min_release_year : Z;
  max_release_year : Z;
  preferred_duration_category : string;
  min_rating : Q;
  preferred_content_type : string;
  parental_rating_filter_json : json_text;
  excluded_genre_uids : list string;
  excluded_service_uids : list string;
  page : Z;
  page_size : Z
}.

Definition or_default {A : Type} (o : option A) (d : A) : A :=
  match o with Some x => x | None => d end.

(** [current_year] is the value of [new Date().getFullYear()]. *)
Definition destructure (current_year : Z) (b : body) : args := {|
  mood_uid := body_mood_uid b;
  streaming_service_uids := body_streaming_service_uids b;
  genre_uids := body_genre_uids b;
  min_release_year := or_default (body_min_release_year b) 1900;
  max_release_year := or_default (body_max_release_year b) current_year;
  preferred_duration_category :=
    or_default (body_preferred_duration_category b) "any";
  min_rating := or_default (body_min_rating b) 0%Q;
  preferred_content_type :=
    or_default (body_preferred_content_type b) "both";
  parental_rating_filter_json :=
    or_default (body_parental_rating_filter_json b) (JsonArray []);
  excluded_genre_uids := or_default (body_excluded_genre_uids b) [];
  excluded_service_uids := or_default (body_excluded_service_uids b) [];
  page := or_default (body_page b) 1;
  page_size := or_default (body_page_size b) 20
|}.

(** The body with every field left out. *)
Definition empty_body : body := {|
  body_mood_uid := None;
  body_streaming_service_uids := None;
  body_genre_uids := None;
  body_min_release_year := None;
  body_max_release_year := None;
  body_preferred_duration_category := None;
  body_min_rating := None;
  body_preferred_content_type := None;
  body_parental_rating_filter_json := None;
  body_excluded_genre_uids := None;
  body_excluded_service_uids := None;
  body_page := None;
  body_page_size := None
|}.

(* ------------------------------------------------------------------ *)
(** ** The predicate builder (server.js 504-577) *)

(** The two arrays the handler grows side by side. *)
Record builder := {
  queryParams : list value;
  whereClauses : list cond
}.

Definition builder_init : builder :=
  {| queryParams := []; whereClauses := [] |}.

(** [queryParams.push(...vs); whereClauses.push(mk queryParams.length)]:
    the clause is made from the length after the push. *)
Definition push (vs : list value) (mk : nat -> cond) (b : builder)
  : builder :=
  let qp := (queryParams b ++ vs)%list in
  {| queryParams := qp;
     whereClauses := (whereClauses b ++ [mk (List.length qp)])%list |}.

(** [xs.map((_, i) => `$${queryParams.length - xs.length + 1 + i}`)] *)
Definition placeholders (n : nat) (xs : list string) : list operand :=
  map (fun i => Placeholder (n - List.length xs + 1 + i)%nat)
      (seq 0 (List.length xs)).

Definition truthy (z : Z) : bool := negb (z =? 0).

Definition add_content_type (a : args) (b : builder) : builder :=
  if negb (String.eqb (preferred_content_type a) "both")
  then push [VText (preferred_content_type a)]
            (fun n => Cmp (Col c_content_type) OpEq (Placeholder n)) b
  else b.

Definition add_release_year (a : args) (b : builder) : builder :=
  if truthy (min_release_year a) && truthy (max_release_year a)
  then push [VInt (min_release_year a); VInt (max_release_year a)]
            (fun n => Between (Col c_release_year)
                        (Placeholder (n - 1)) (Placeholder n)) b
  else b.

Definition add_min_rating (a : args) (b : builder) : builder :=
  if Qlt_bool 0 (min_rating a)
  then push [VNum (min_rating a); VNum (min_rating a)]
            (fun n => Paren (Or
               (Cmp (Col c_imdb_rating) OpGe (Placeholder (n - 1)))
               (Cmp (Col c_rotten_tomatoes_score) OpGe (Placeholder n)))) b
  else b.

(** [None] when [JSON.parse] throws. *)
Definition add_parental_rating (a : args) (b : builder) : option builder :=
  match parental_rating_filter_json a with
  | JsonArray [] => Some b
  | JsonArray parentalRatings =>
      Some (push (map VText parentalRatings)
              (fun n => InList (Col c_parental_rating)
                          (placeholders n parentalRatings)) b)
  | JsonUnparsable => None
  end.

Definition is_movie : cond := Cmp (Col c_content_type) OpEq (LitText "movie").
Definition is_tv_show : cond :=
  Cmp (Col c_content_type) OpEq (LitText "tv_show").

(** The [switch] on [preferred_duration_category]; [None] is the empty
    string the variable keeps when no [case] applies. *)
Definition durationCondition (category : string) : option cond :=
  if String.eqb category "short" then
    Some (Or (Paren (And is_movie
                      (Cmp (Col c_duration_minutes) OpLt (LitInt 60))))
             (Paren (And is_tv_show
                      (Cmp (Col c_number_of_seasons) OpEq (LitInt 1)))))
  else if String.eqb category "medium" then
    Some (Or (Paren (And is_movie
                      (Between (Col c_duration_minutes)
                         (LitInt 60) (LitInt 120))))
             (Paren (And is_tv_show
                      (Between (Col c_number_of_seasons)
                         (LitInt 2) (LitInt 4)))))
  else if String.eqb category "long" then
    Some (Or (Paren (And is_movie
                      (Cmp (Col c_duration_minutes) OpGt (LitInt 120))))
             (Paren (And is_tv_show
                      (Cmp (Col c_number_of_seasons) OpGt (LitInt 4)))))
  else None.

Definition add_duration (a : args) (b : builder) : builder :=
  if negb (String.eqb (preferred_duration_category a) "any") then
    match durationCondition (preferred_duration_category a) with
    | Some d =>
        {| queryParams := queryParams b;
           whereClauses := (whereClauses b ++ [Paren d])%list |}
    | None => b
    end
  else b.

(** [xs && xs.length > 0], then an [IN] or [NOT IN] over one placeholder
    per element. *)
Definition add_uid_list (mk : operand -> list operand -> cond) (c : column)
  (xs : option (list string)) (b : builder) : builder :=
  match xs with
  | None | Some [] => b
  | Some l =>
      push (map VText l) (fun n => mk (Col c) (placeholders n l)) b
  end.

Definition build (a : args) : option builder :=
  let b := add_content_type a builder_init in
  let b := add_release_year a b in
  let b := add_min_rating a b in
  match add_parental_rating a b with
  | None => None
  | Some b =>
      let b := add_duration a b in
      let b := add_uid_list InList g_uid_col (genre_uids a) b in
      let b := add_uid_list NotInList g_uid_col
                 (Some (excluded_genre_uids a)) b in
      let b := add_uid_list InList ss_uid_col (streaming_service_uids a) b in
      let b := add_uid_list NotInList ss_uid_col
                 (Some (excluded_service_uids a)) b in
      Some b
  end.

(* ------------------------------------------------------------------ *)
(** ** The two statements (server.js 468-502, 580-602) *)

Definition from_text : string :=
  "FROM content c"
  ++ " LEFT JOIN content_genres cg ON c.uid = cg.content_uid"
  ++ " LEFT JOIN genres g ON cg.genre_uid = g.uid"
  ++ " LEFT JOIN content_streaming_availability csa"
  ++ " ON c.uid = csa.content_uid"
  ++ " LEFT JOIN streaming_services ss ON csa.service_uid = ss.uid".

Definition select_text : string :=
  "SELECT c.uid, c.external_api_id, c.title, c.release_year,"
  ++ " c.content_type, c.poster_url, c.synopsis, c.tagline,"
  ++ " c.duration_minutes, c.number_of_seasons, c.imdb_rating,"
  ++ " c.rotten_tomatoes_score, c.parental_rating, c.director,"
  ++ " c.main_cast,"
  ++ " json_agg(DISTINCT jsonb_build_object('uid', g.uid, 'name', g.name))"
  ++ " FILTER (WHERE g.uid IS NOT NULL) AS genres,"
  ++ " json_agg(DISTINCT jsonb_build_object('service_uid', ss.uid,"
  ++ " 'name', ss.name, 'logo_url', ss.logo_url,"
  ++ " 'watch_link', csa.watch_link))"
  ++ " FILTER (WHERE ss.uid IS NOT NULL) AS available_on_services ".

(** [whereClauses.length > 0 ? `WHERE ${whereClauses.join(' AND ')}` : ''] *)
Definition where_text (clauses : list cond) : string :=
  match clauses with
  | [] => ""
  | _ => " WHERE " ++ String.concat " AND " (map cond_text clauses)
  end.

Definition newline : string := String (ascii_of_nat 10) EmptyString.

(** The text of [query] after the last [+=].  Line breaks and
    indentation of the template strings are written as single spaces,
    except the line break that ends the SQL comment. *)
Definition query_text (b : builder) : string :=
  select_text ++ from_text ++ where_text (whereClauses b)
  ++ " GROUP BY c.uid"
  ++ " ORDER BY c.rotten_tomatoes_score DESC, c.imdb_rating DESC"
  ++ " -- Prioritize higher rated content first" ++ newline
  ++ " LIMIT $" ++ nat_text (List.length (queryParams b) + 1)
  ++ " OFFSET $" ++ nat_text (List.length (queryParams b) + 2) ++ ";".

Definition countQuery_text (b : builder) : string :=
  "SELECT COUNT(DISTINCT c.uid) " ++ from_text
  ++ where_text (whereClauses b).

(* ------------------------------------------------------------------ *)
(** ** Execution of the two statements over a store *)

(** Distinct elements, each kept at its first occurrence. *)
Fixpoint dedup {A : Type} (eqb : A -> A -> bool) (l : list A) : list A :=
  match l with
  | [] => []
  | x :: t => x :: filter (fun y => negb (eqb x y)) (dedup eqb t)
  end.

Definition row_uid (r : jrow) : string := uid (j_c r).

Definition same_uid (r r' : jrow) : bool :=
  String.eqb (row_uid r) (row_uid r').

Definition where_rows (params : list value) (clauses : list cond)
  (s : Store.t) : list jrow :=
  filter (passes params clauses) (from_clause s).

(** [SELECT COUNT(DISTINCT c.uid) FROM .. WHERE ..]; [None] is a
    statement the database refuses. *)
Definition exec_count (params : list value) (clauses : list cond)
  (s : Store.t) : option nat :=
  if typed_where params clauses
  then Some (List.length
               (dedup String.eqb (map row_uid (where_rows params clauses s))))
  else None.

Definition opt_eqb {A : Type} (eqb : A -> A -> bool) (a b : option A)
  : bool :=
  match a, b with
  | Some x, Some y => eqb x y
  | None, None => true
  | _, _ => false
  end.

Definition genre_eqb (g g' : genre) : bool :=
  String.eqb (g_uid g) (g_uid g') && String.eqb (g_name g) (g_name g').

(** An element of [available_on_services]. *)
Record service_ref := {
  service_uid : string;
  name : string;
  logo_url : option string;
  watch_link : option string
}.

Definition service_ref_eqb (x y : service_ref) : bool :=
  String.eqb (service_uid x) (service_uid y)
  && String.eqb (name x) (name y)
  && opt_eqb String.eqb (logo_url x) (logo_url y)
  && opt_eqb String.eqb (watch_link x) (watch_link y).

(** One row of the page query, as the handler formats it: the columns of
    the content item and the two aggregates ([row.genres || []] turns the
    [NULL] of an empty aggregate into the empty array). *)
Record result_row := {
  row_content : content;
  genres : list genre;
  available_on_services : list service_ref
}.

Definition agg_genres (rows : list jrow) : list genre :=
  dedup genre_eqb
    (flat_map (fun r => match j_g r with Some g => [g] | None => [] end)
       rows).

Definition agg_services (rows : list jrow) : list service_ref :=
  dedup service_ref_eqb
    (flat_map (fun r =>
       match j_ss r with
       | Some sv =>
           [{| service_uid := ss_uid sv;
               name := ss_name sv;
               logo_url := ss_logo_url sv;
               watch_link := match j_csa r with
                             | Some a => csa_watch_link a
                             | None => None
                             end |}]
       | None => []
       end) rows).

(** [GROUP BY c.uid]: one output row per distinct uid, in the order in
    which the uids first occur among the rows that passed [WHERE]. *)
Definition group_by_uid (rows : list jrow) : list result_row :=
  map (fun r =>
         let grp := filter (same_uid r) rows in
         {| row_content := j_c r;
            genres := agg_genres grp;
            available_on_services := agg_services grp |})
      (dedup same_uid rows).

(** [DESC] on a nullable column: PostgreSQL sorts [NULL] as larger than
    every value, so [NULL]s come first. *)
Definition desc_ge {A : Type} (ge : A -> A -> bool) (a b : option A)
  : bool :=
  match a, b with
  | None, _ => true
  | Some _, None => false
  | Some x, Some y => ge x y
  end.

Definition Qge_bool (p q : Q) : bool := Qle_bool q p.

(** [a] may stand before [b] under
    [ORDER BY c.rotten_tomatoes_score DESC, c.imdb_rating DESC]. *)
Definition order_ge (a b : result_row) : bool :=
  let ra := rotten_tomatoes_score (row_content a) in
  let rb := rotten_tomatoes_score (row_content b) in
  if desc_ge Z.geb ra rb then
    if desc_ge Z.geb rb ra
    then desc_ge Qge_bool (imdb_rating (row_content a))
                          (imdb_rating (row_content b))
    else true
  else false.

(** Rows that the [ORDER BY] does not tell apart. *)
Definition order_tie (a b : result_row) : bool :=
  order_ge a b && order_ge b a.

(** The statement names no order for rows with equal ratings.  A
    [tie_rule] is the choice the database makes for them in one
    execution: [tie x y] tells whether [x] goes before [y] when the
    [ORDER BY] does not tell them apart.  Nothing in the statement fixes
    it, and two executions need not make the same choice. *)
Definition tie_rule : Type := result_row -> result_row -> bool.

Definition goes_before (tie : tie_rule) (x y : result_row) : bool :=
  order_ge x y && (negb (order_ge y x) || tie x y).

Fixpoint insert_desc (tie : tie_rule) (x : result_row)
  (l : list result_row) : list result_row :=
  match l with
  | [] => [x]
  | y :: t =>
      if goes_before tie x y then x :: y :: t else y :: insert_desc tie x t
  end.

Fixpoint order_by (tie : tie_rule) (l : list result_row)
  : list result_row :=
  match l with
  | [] => []
  | x :: t => insert_desc tie x (order_by tie t)
  end.

(** Two choices: tied rows in the order of the [content] table, and in
    the opposite order. *)
Definition table_order : tie_rule := fun _ _ => true.
Definition reverse_order : tie_rule := fun _ _ => false.

(** The choice that leads to a given arrangement [L] of the rows: of
    two tied rows the one that stands first in [L] goes first. *)
Fixpoint position (u : string) (l : list string) : nat :=
  match l with
  | [] => O
  | v :: t => if String.eqb u v then O else S (position u t)
  end.

Definition place (L : list result_row) (x : result_row) : nat :=
  position (uid (row_content x)) (map (fun y => uid (row_content y)) L).

Definition tie_toward (L : list result_row) : tie_rule :=
  fun x y => (place L x <? place L y)%nat.

(** Executions that take turns between the two. *)
Definition alternating (k : nat) : tie_rule :=
  if Nat.even k then reverse_order else table_order.

(** The grouped and sorted rows, before [LIMIT] and [OFFSET]. *)
Definition sorted_groups (tie : tie_rule) (params : list value)
  (clauses : list cond) (s : Store.t) : list result_row :=
  order_by tie (group_by_uid (where_rows params clauses s)).

(** [LIMIT $l OFFSET $o], both of type [BIGINT]: PostgreSQL rejects a
    negative limit or offset ("LIMIT must not be negative", "OFFSET must
    not be negative") and a value beyond the 64-bit range. *)
Definition limit_offset {A : Type} (params : list value) (l o : nat)
  (rows : list A) : option (list A) :=
  match param params l, param params o with
  | VInt lim, VInt off =>
      if (lim <? 0) || (off <? 0) || (int8_max <? lim) || (int8_max <? off)
      then None
      else Some (firstn (Z.to_nat lim) (skipn (Z.to_nat off) rows))
  | _, _ => None
  end.

(** The page query; [None] is a query that fails. *)
Definition exec_page (tie : tie_rule) (params : list value)
  (clauses : list cond) (l o : nat) (s : Store.t)
  : option (list result_row) :=
  if typed_where params clauses
  then limit_offset params l o (sorted_groups tie params clauses s)
  else None.

(* ------------------------------------------------------------------ *)
(** ** The handler (server.js 447-645) *)

Inductive statement :=
| CountStatement (text : string)
| PageStatement (text : string).

(** A call [client.query(text, params)]. *)
Definition db_call : Type := statement * list value.

Inductive response :=
| Ok200 (recommendations : list result_row)
        (total_results : Z) (page_out page_size_out : Z)
| Error500.

(** The handler returns the calls it made on the store, in order, and
    the response it sent.  Everything after [pool.connect()] runs inside
    one [try]; any exception is answered with status 500: a [JSON.parse]
    that throws while the conjuncts are built, the count query when the
    database refuses it, the page query when the database refuses it.
    [tie] is the order the database gives to tied rows in this run of
    the page query. *)
Definition handler (tie : tie_rule) (current_year : Z) (s : Store.t)
  (rq : body) : list db_call * response :=
  let a := destructure current_year rq in
  let offset := (page a - 1) * page_size a in
  match build a with
  | None => ([], Error500)
  | Some b =>
      let n := List.length (queryParams b) in
      let count_call := (CountStatement (countQuery_text b), queryParams b) in
      match exec_count (queryParams b) (whereClauses b) s with
      | None => ([count_call], Error500)
      | Some count =>
          let total_results := Z.of_nat count in
          let params :=
            (queryParams b ++ [VInt (page_size a); VInt offset])%list in
          let page_call := (PageStatement (query_text b), params) in
          match exec_page tie params (whereClauses b) (n + 1) (n + 2) s with
          | None => ([count_call; page_call], Error500)
          | Some rows =>
              ([count_call; page_call],
               Ok200 rows total_results (page a) (page_size a))
          end
      end
  end.

Definition response_of (x : list db_call * response) : response := snd x.
Definition calls_of (x : list db_call * response) : list db_call := fst x.


(* ------------------------------------------------------------------ *)
(** ** What each conjunct says about a joined row

    The meaning of every conjunct of the builder, written on the row and
    the request alone, with no placeholder.  A conjunct the builder skips
    is [TT]. *)

Definition sem_content_type (a : args) (r : jrow) : tv :=
  if negb (String.eqb (preferred_content_type a) "both")
  then sql_eq (column_value c_content_type r)
              (VText (preferred_content_type a))
  else TT.

Definition sem_release_year (a : args) (r : jrow) : tv :=
  if truthy (min_release_year a) && truthy (max_release_year a)
  then tv_and (sql_ge (column_value c_release_year r)
                      (VInt (min_release_year a)))
              (sql_le (column_value c_release_year r)
                      (VInt (max_release_year a)))
  else TT.

Definition sem_min_rating (a : args) (r : jrow) : tv :=
  if Qlt_bool 0 (min_rating a)
  then tv_or (sql_ge (column_value c_imdb_rating r) (VNum (min_rating a)))
             (sql_ge (column_value c_rotten_tomatoes_score r)
                     (VNum (min_rating a)))
  else TT.

Definition sem_parental_rating (a : args) (r : jrow) : tv :=
  match parental_rating_filter_json a with
  | JsonArray (x :: l) =>
      sql_in (column_value c_parental_rating r) (map VText (x :: l))
  | _ => TT
  end.

Definition sem_duration (a : args) (r : jrow) : tv :=
  if negb (String.eqb (preferred_duration_category a) "any") then
    match durationCondition (preferred_duration_category a) with
    | Some d => eval [] r d
    | None => TT
    end
  else TT.

Definition sem_uid_list (negated : bool) (c : column)
  (xs : option (list string)) (r : jrow) : tv :=
  match xs with
  | Some (x :: l) =>
      let t := sql_in (column_value c r) (map VText (x :: l)) in
      if negated then tv_not t else t
  | _ => TT
  end.

(** The whole [WHERE]: the conjunction in the order of the builder. *)
Definition row_sem (a : args) (r : jrow) : tv :=
  tv_and (tv_and (tv_and (tv_and (tv_and (tv_and (tv_and (tv_and (tv_and TT
    (sem_content_type a r))
    (sem_release_year a r))
    (sem_min_rating a r))
    (sem_parental_rating a r))
    (sem_duration a r))
    (sem_uid_list false g_uid_col (genre_uids a) r))
    (sem_uid_list true g_uid_col (Some (excluded_genre_uids a)) r))
    (sem_uid_list false ss_uid_col (streaming_service_uids a) r))
    (sem_uid_list true ss_uid_col (Some (excluded_service_uids a)) r).

(** A joined row satisfies the filter predicates of a request. *)
Definition row_matches (a : args) (r : jrow) : bool := is_true (row_sem a r).

(** The content ids matching a request: the distinct uids of the joined
    rows that satisfy every predicate. *)
Definition matching_uids (a : args) (s : Store.t) : list string :=
  dedup String.eqb (map row_uid (filter (row_matches a) (from_clause s))).

(* ------------------------------------------------------------------ *)
(** ** The result set of a request and its pages *)

(** The grouped result set of a request in the order one execution
    gives it, before any page is cut out of it. *)
Definition all_groups (tie : tie_rule) (a : args) (s : Store.t)
  : list result_row :=
  order_by tie (group_by_uid (filter (row_matches a) (from_clause s))).

Definition result_uid (x : result_row) : string := uid (row_content x).

(** The slice [LIMIT page_size OFFSET (page - 1) * page_size]. *)
Definition page_slice {A : Type} (page page_size : Z) (l : list A)
  : list A :=
  firstn (Z.to_nat page_size) (skipn (Z.to_nat ((page - 1) * page_size)) l).

(** [ceil(total / page_size)] for a positive page size. *)
Definition page_count (total page_size : Z) : nat :=
  Z.to_nat ((total + page_size - 1) / page_size).

(** Pagination the database accepts: a limit and an offset that are not
    negative and fit a [BIGINT]. *)
Definition paging_accepted (a : args) : Prop :=
  0 <= page_size a <= int8_max
  /\ 0 <= (page a - 1) * page_size a <= int8_max.

(** The bound values the database accepts: when the year conjunct is
    on, both bounds fit an [INTEGER]; when the rating conjunct is on,
    the floor, which is also compared with the [INTEGER] column
    [rotten_tomatoes_score], is a whole number that fits an [INTEGER]. *)
Definition parameters_fit (a : args) : bool :=
  (if truthy (min_release_year a) && truthy (max_release_year a)
   then in_int4 (min_release_year a) && in_int4 (max_release_year a)
   else true)
  && (if Qlt_bool 0 (min_rating a)
      then integral (min_rating a) && in_int4 (whole_part (min_rating a))
      else true).

(** [JSON.parse] does not throw on the request. *)
Definition parses (a : args) : Prop :=
  parental_rating_filter_json a <> JsonUnparsable.

(** The rows of the page a request asks for, when the response is 200. *)
Definition recommendations_of (r : response) : option (list result_row) :=
  match r with
  | Ok200 recs _ _ _ => Some recs
  | Error500 => None
  end.

Definition total_results_of (r : response) : option Z :=
  match r with
  | Ok200 _ t _ _ => Some t
  | Error500 => None
  end.

Definition uids_of (r : response) : option (list string) :=
  option_map (map result_uid) (recommendations_of r).

(** The same request with other pagination fields. *)
Definition with_paging (rq : body) (p ps : option Z) : body := {|
  body_mood_uid := body_mood_uid rq;
  body_streaming_service_uids := body_streaming_service_uids rq;
  body_genre_uids := body_genre_uids rq;
  body_min_release_year := body_min_release_year rq;
  body_max_release_year := body_max_release_year rq;
  body_preferred_duration_category := body_preferred_duration_category rq;
  body_min_rating := body_min_rating rq;
  body_preferred_content_type := body_preferred_content_type rq;
  body_parental_rating_filter_json := body_parental_rating_filter_json rq;
  body_excluded_genre_uids := body_excluded_genre_uids rq;
  body_excluded_service_uids := body_excluded_service_uids rq;
  body_page := p;
  body_page_size := ps
|}.

(** The same request with other year bounds. *)
Definition with_years (rq : body) (lo hi : option Z) : body := {|
  body_mood_uid := body_mood_uid rq;
  body_streaming_service_uids := body_streaming_service_uids rq;
  body_genre_uids := body_genre_uids rq;
  body_min_release_year := lo;
  body_max_release_year := hi;
  body_preferred_duration_category := body_preferred_duration_category rq;
  body_min_rating := body_min_rating rq;
  body_preferred_content_type := body_preferred_content_type rq;
  body_parental_rating_filter_json := body_parental_rating_filter_json rq;
  body_excluded_genre_uids := body_excluded_genre_uids rq;
  body_excluded_service_uids := body_excluded_service_uids rq;
  body_page := body_page rq;
  body_page_size := body_page_size rq
|}.

(* ------------------------------------------------------------------ *)
(** ** The order of the result set, in words *)

(** [a] stands before [b] in an output of the [ORDER BY]. *)
Definition ranked (a b : result_row) : Prop := order_ge a b = true.

Definition ge_audience (a b : result_row) : bool :=
  desc_ge Z.geb (rotten_tomatoes_score (row_content a))
                (rotten_tomatoes_score (row_content b)).

Definition ge_critic (a b : result_row) : bool :=
  desc_ge Qge_bool (imdb_rating (row_content a)) (imdb_rating (row_content b)).

(** The lexicographic combination of two orders given as tests. *)
Definition lex {T : Type} (g1 g2 : T -> T -> bool) (a b : T) : bool :=
  if g1 a b then if g1 b a then g2 a b else true else false.

(** "Audience rating descending, then critic rating descending", with a
    missing rating standing above every rating, as PostgreSQL places
    [NULL] under [DESC]. *)
Definition critic_desc (x y : result_row) : Prop :=
  match imdb_rating (row_content x), imdb_rating (row_content y) with
  | None, _ => True
  | Some _, None => False
  | Some u, Some v => (v <= u)%Q
  end.

Definition audience_desc_then_critic_desc (x y : result_row) : Prop :=
  match rotten_tomatoes_score (row_content x),
        rotten_tomatoes_score (row_content y) with
  | None, None => critic_desc x y
  | None, Some _ => True
  | Some _, None => False
  | Some p, Some q => q < p \/ (p = q /\ critic_desc x y)
  end.

(* ------------------------------------------------------------------ *)
(** ** The shape of a request

    Which predicates a request switches on and how many values each one
    carries: everything about the request that is not a caller-supplied
    value. *)

Inductive bucket := Short | Medium | Long.

Definition bucket_of (category : string) : option bucket :=
  if String.eqb category "any" then None
  else if String.eqb category "short" then Some Short
  else if String.eqb category "medium" then Some Medium
  else if String.eqb category "long" then Some Long
  else None.

Definition size_of (xs : option (list string)) : nat :=
  match xs with Some l => List.length l | None => O end.

Record shape := {
  sh_content_type : bool;
  sh_release_year : bool;
  sh_min_rating : bool;
  sh_parental_ratings : option nat;
  sh_duration : option bucket;
  sh_genres : nat;
  sh_excluded_genres : nat;
  sh_services : nat;
  sh_excluded_services : nat
}.

Definition shape_of (a : args) : shape := {|
  sh_content_type := negb (String.eqb (preferred_content_type a) "both");
  sh_release_year :=
    truthy (min_release_year a) && truthy (max_release_year a);
  sh_min_rating := Qlt_bool 0 (min_rating a);
  sh_parental_ratings :=
    match parental_rating_filter_json a with
    | JsonArray l => Some (List.length l)
    | JsonUnparsable => None
    end;
  sh_duration := bucket_of (preferred_duration_category a);
  sh_genres := size_of (genre_uids a);
  sh_excluded_genres := List.length (excluded_genre_uids a);
  sh_services := size_of (streaming_service_uids a);
  sh_excluded_services := List.length (excluded_service_uids a)
|}.

(** The statement texts of the calls a request leads to. *)
Definition statement_texts (tie : tie_rule) (cy : Z) (s : Store.t)
  (rq : body) : list statement :=
  map fst (calls_of (handler tie cy s rq)).

(** The clause the duration step appends, if any. *)
Definition duration_clause (category : string) : option cond :=
  if negb (String.eqb category "any") then durationCondition category
  else None.

(** Two builders that differ at most in the values of their parameters. *)
Definition alike (b1 b2 : builder) : Prop :=
  whereClauses b1 = whereClauses b2
  /\ List.length (queryParams b1) = List.length (queryParams b2).

(* ------------------------------------------------------------------ *)
(** ** The duration buckets in the words of the specification *)

Definition opt_test {A : Type} (p : A -> bool) (o : option A) : bool :=
  match o with Some x => p x | None => false end.

Definition is_kind (kind : string) (c : content) : bool :=
  String.eqb (content_type c) kind.

(** short: a movie with runtime < 60 or a series with exactly 1 season;
    medium: a movie with runtime between 60 and 120 inclusive or a series
    with 2 to 4 seasons inclusive; long: a movie with runtime > 120 or a
    series with more than 4 seasons. *)
Definition spec_duration (bk : bucket) (c : content) : bool :=
  match bk with
  | Short =>
      (is_kind "movie" c && opt_test (fun m => m <? 60) (duration_minutes c))
      || (is_kind "tv_show" c
          && opt_test (fun n => n =? 1) (number_of_seasons c))
  | Medium =>
      (is_kind "movie" c
       && opt_test (fun m => (60 <=? m) && (m <=? 120)) (duration_minutes c))
      || (is_kind "tv_show" c
          && opt_test (fun n => (2 <=? n) && (n <=? 4)) (number_of_seasons c))
  | Long =>
      (is_kind "movie" c && opt_test (fun m => 120 <? m) (duration_minutes c))
      || (is_kind "tv_show" c
          && opt_test (fun n => 4 <? n) (number_of_seasons c))
  end.

(* ------------------------------------------------------------------ *)
(** ** Requests the specification calls invalid *)

Definition has_empty_uid (xs : list string) : bool :=
  existsb (fun u => String.eqb u "") xs.

(** [page_size] outside [1,100], or [page < 1], or the year minimum
    above the maximum, or an empty identifier in one of the uid sets. *)
Definition invalid_request (a : args) : Prop :=
  page_size a < 1 \/ 100 < page_size a \/ page a < 1
  \/ max_release_year a < min_release_year a
  \/ has_empty_uid (or_default (genre_uids a) []) = true
  \/ has_empty_uid (or_default (streaming_service_uids a) []) = true
  \/ has_empty_uid (excluded_genre_uids a) = true
  \/ has_empty_uid (excluded_service_uids a) = true.

(* ------------------------------------------------------------------ *)
(** ** What the store records for a content item *)

(** The genre ids the store records for a content item. *)
Definition genre_uids_of (s : Store.t) (u : string) : list string :=
  map cg_genre_uid
    (filter (fun cg => String.eqb (cg_content_uid cg) u)
       (tbl_content_genres s)).

Definition availability_of (s : Store.t) (u : string) : list availability :=
  filter (fun a => String.eqb (csa_content_uid a) u) (tbl_availability s).

(* ------------------------------------------------------------------ *)
(** ** The result of a request, told from the tables

    What the [FROM] clause, the [WHERE] and the [ORDER BY] amount to,
    written on the five tables themselves.  The statements about the
    handler compare what it returns with these. *)

(** The genre side of a joined row of the item [c]: a link row of the
    item with the genre it names; a link row naming no genre row, with
    [NULL] for the genre; or [NULL] twice when the item has no link. *)
Definition genre_side (s : Store.t) (c : content)
  (ocg : option content_genre) (og : option genre) : Prop :=
  match ocg with
  | Some cg =>
      In cg (tbl_content_genres s) /\ cg_content_uid cg = uid c
      /\ match og with
         | Some g => In g (tbl_genres s) /\ g_uid g = cg_genre_uid cg
         | None =>
             forall g, In g (tbl_genres s) -> g_uid g <> cg_genre_uid cg
         end
  | None =>
      og = None
      /\ forall cg, In cg (tbl_content_genres s) -> cg_content_uid cg <> uid c
  end.

(** The service side, likewise, over the availability rows. *)
Definition service_side (s : Store.t) (c : content)
  (ocsa : option availability) (oss : option streaming_service) : Prop :=
  match ocsa with
  | Some av =>
      In av (tbl_availability s) /\ csa_content_uid av = uid c
      /\ match oss with
         | Some sv =>
             In sv (tbl_streaming_services s)
             /\ ss_uid sv = csa_service_uid av
         | None =>
             forall sv, In sv (tbl_streaming_services s) ->
                        ss_uid sv <> csa_service_uid av
         end
  | None =>
      oss = None
      /\ forall av, In av (tbl_availability s) -> csa_content_uid av <> uid c
  end.

(** [r] is a row of the four left joins over the store. *)
Definition joined (s : Store.t) (r : jrow) : Prop :=
  In (j_c r) (tbl_content s)
  /\ genre_side s (j_c r) (j_cg r) (j_g r)
  /\ service_side s (j_c r) (j_csa r) (j_ss r).

(** The content id [u] matches the request: one of its joined rows
    satisfies every predicate. *)
Definition matches (a : args) (s : Store.t) (u : string) : Prop :=
  exists r, joined s r /\ row_uid r = u /\ row_matches a r = true.

(** [n] is the number of distinct ids with the property. *)
Definition counts (P : string -> Prop) (n : nat) : Prop :=
  exists l, NoDup l /\ (forall u, In u l <-> P u) /\ List.length l = n.

(** The two content rows have the same ratings, so that the [ORDER BY]
    does not tell them apart. *)
Definition same_ratings (c c' : content) : Prop :=
  rotten_tomatoes_score c = rotten_tomatoes_score c'
  /\ match imdb_rating c, imdb_rating c' with
     | Some q, Some q' => (q == q')%Q
     | None, None => True
     | _, _ => False
     end.

Definition same_ratings_b (c c' : content) : bool :=
  opt_eqb Z.eqb (rotten_tomatoes_score c) (rotten_tomatoes_score c')
  && opt_eqb Qeq_bool (imdb_rating c) (imdb_rating c').

(** No two matching items with different ids have the same ratings. *)
Definition no_rating_ties (a : args) (s : Store.t) : Prop :=
  forall r r',
    joined s r -> joined s r' ->
    row_matches a r = true -> row_matches a r' = true ->
    same_ratings (j_c r) (j_c r') -> row_uid r = row_uid r'.

(** The same, as a test over the rows of the [FROM] clause. *)
Definition no_rating_ties_b (a : args) (s : Store.t) : bool :=
  forallb (fun r =>
    forallb (fun r' =>
      implb (row_matches a r && row_matches a r'
             && same_ratings_b (j_c r) (j_c r'))
            (String.eqb (row_uid r) (row_uid r')))
      (from_clause s))
    (from_clause s).

(** The page and the page size a request asks for: page 1 and 20 items
    when it does not say. *)
Definition requested_page (rq : body) : Z :=
  match body_page rq with Some p => p | None => 1 end.

Definition requested_page_size (rq : body) : Z :=
  match body_page_size rq with Some n => n | None => 20 end.

(* ------------------------------------------------------------------ *)
(** ** The invariant of the builder *)

(** [fits b t]: under the parameters of [b], followed by anything pushed
    later, the database accepts the clauses of [b] exactly when [t]. *)
Definition fits (b : builder) (t : bool) : Prop :=
  forall extra,
    typed_where (queryParams b ++ extra) (whereClauses b) = t.

(** [holds b P]: under the parameters of [b], followed by anything pushed
    later, the conjunction of the clauses of [b] evaluates to [P]. *)
Definition holds (b : builder) (P : jrow -> tv) : Prop :=
  forall extra r,
    where_eval (queryParams b ++ extra) (whereClauses b) r = P r.

(* ------------------------------------------------------------------ *)
(** ** A small store and some requests *)

Definition mk_content (u ty : string) (yr dur seas : option Z)
  (imdb : option Q) (rt : option Z) (pr : option string) : content := {|
  uid := u; external_api_id := "ext_" ++ u; title := u;
  release_year := yr; content_type := ty;
  duration_minutes := dur; number_of_seasons := seas;
  imdb_rating := imdb; rotten_tomatoes_score := rt;
  parental_rating := pr
|}.

(** Two movies with equal ratings and a series; [m2] has two genres and
    two services, [s1] has no genre and no availability row. *)
Definition sample_store : Store.t := {|
  tbl_content :=
    [ mk_content "m1" "movie" (Some 2020) (Some 45) None
        (Some (88 # 10)) (Some 90) (Some "PG");
      mk_content "m2" "movie" (Some 2010) (Some 90) None
        (Some (88 # 10)) (Some 90) (Some "R");
      mk_content "s1" "tv_show" (Some 2000) None (Some 1)
        (Some (70 # 10)) (Some 95) None ];
  tbl_content_genres :=
    [ {| cg_content_uid := "m1"; cg_genre_uid := "g_scifi" |};
      {| cg_content_uid := "m2"; cg_genre_uid := "g_scifi" |};
      {| cg_content_uid := "m2"; cg_genre_uid := "g_horror" |} ];
  tbl_genres :=
    [ {| g_uid := "g_scifi"; g_name := "Sci-Fi" |};
      {| g_uid := "g_horror"; g_name := "Horror" |} ];
  tbl_availability :=
    [ {| csa_content_uid := "m1"; csa_service_uid := "netflix";
         csa_watch_link := Some "w1"; csa_region := "GLOBAL" |};
      {| csa_content_uid := "m2"; csa_service_uid := "netflix";
         csa_watch_link := Some "w2"; csa_region := "GLOBAL" |};
      {| csa_content_uid := "m2"; csa_service_uid := "hulu";
         csa_watch_link := Some "w3"; csa_region := "GLOBAL" |} ];
  tbl_streaming_services :=
    [ {| ss_uid := "netflix"; ss_name := "Netflix"; ss_logo_url := None |};
      {| ss_uid := "hulu"; ss_name := "Hulu"; ss_logo_url := None |} ]
|}.

(** Only [excluded_genre_uids = ["g_horror"]]. *)
Definition exclude_horror : body := {|
  body_mood_uid := None;
  body_streaming_service_uids := None;
  body_genre_uids := None;
  body_min_release_year := None;
  body_max_release_year := None;
  body_preferred_duration_category := None;
  body_min_rating := None;
  body_preferred_content_type := None;
  body_parental_rating_filter_json := None;
  body_excluded_genre_uids := Some ["g_horror"];
  body_excluded_service_uids := None;
  body_page := None;
  body_page_size := None
|}.

(** Only [excluded_genre_uids = ["g_western"]], a genre of no item. *)
Definition exclude_western : body := {|
  body_mood_uid := None;
  body_streaming_service_uids := None;
  body_genre_uids := None;
  body_min_release_year := None;
  body_max_release_year := None;
  body_preferred_duration_category := None;
  body_min_rating := None;
  body_preferred_content_type := None;
  body_parental_rating_filter_json := None;
  body_excluded_genre_uids := Some ["g_western"];
  body_excluded_service_uids := None;
  body_page := None;
  body_page_size := None
|}.

(** Only [excluded_service_uids = ["peacock"]], a service of no item. *)
Definition exclude_peacock : body := {|
  body_mood_uid := None;
  body_streaming_service_uids := None;
  body_genre_uids := None;
  body_min_release_year := None;
  body_max_release_year := None;
  body_preferred_duration_category := None;
  body_min_rating := None;
  body_preferred_content_type := None;
  body_parental_rating_filter_json := None;
  body_excluded_genre_uids := None;
  body_excluded_service_uids := Some ["peacock"];
  body_page := None;
  body_page_size := None
|}.

(** Several filters at once; used to look at the generated text. *)
Definition busy_request (ct : string) (rating : Q) (prs gs xgs svs xsvs
  : list string) : body := {|
  body_mood_uid := Some "mood_cozy";
  body_streaming_service_uids := Some svs;
  body_genre_uids := Some gs;
  body_min_release_year := Some 1990;
  body_max_release_year := None;
  body_preferred_duration_category := Some "medium";
  body_min_rating := Some rating;
  body_preferred_content_type := Some ct;
  body_parental_rating_filter_json := Some (JsonArray prs);
  body_excluded_genre_uids := Some xgs;
  body_excluded_service_uids := Some xsvs;
  body_page := Some 1;
  body_page_size := Some 10
|}.

(** Two requests of one shape: different caller values throughout, one
    of them an attempt at injection. *)
Definition plain_request : body :=
  busy_request "movie" (7 # 1) ["R"; "PG"] ["g_scifi"; "g_drama"]
    ["g_horror"] ["netflix"] ["hulu"].

Definition hostile_request : body :=
  busy_request "x' OR 1=1; DROP TABLE content; --" (3 # 1)
    ["'); DELETE FROM users; --"; "NC-17"] ["a"; "b' OR 'b'='b"]
    ["c"] ["d"] ["e"].

(** Only [preferred_duration_category = "short"]: it matches [m1] and
    [s1], whose ratings differ. *)
Definition short_request : body := {|
  body_mood_uid := None;
  body_streaming_service_uids := None;
  body_genre_uids := None;
  body_min_release_year := None;
  body_max_release_year := None;
  body_preferred_duration_category := Some "short";
  body_min_rating := None;
  body_preferred_content_type := None;
  body_parental_rating_filter_json := None;
  body_excluded_genre_uids := None;
  body_excluded_service_uids := None;
  body_page := None;
  body_page_size := None
|}.

(** A request with year bounds 0 and 1950. *)
Definition zero_year_request : body :=
  with_years empty_body (Some 0) (Some 1950).

(** A request with a page size of 101 and an empty excluded genre
    identifier. *)
Definition oversized_request : body := {|
  body_mood_uid := None;
  body_streaming_service_uids := None;
  body_genre_uids := None;
  body_min_release_year := None;
  body_max_release_year := None;
  body_preferred_duration_category := None;
  body_min_rating := None;
  body_preferred_content_type := None;
  body_parental_rating_filter_json := None;
  body_excluded_genre_uids := Some [""];
  body_excluded_service_uids := None;
  body_page := Some 1;
  body_page_size := Some 101
|}.

(** A request whose year minimum is above its maximum. *)
Definition inverted_years_request : body :=
  with_years empty_body (Some 2030) (Some 2020).

(** A request for page 0. *)
Definition page_zero_request : body :=
  with_paging empty_body (Some 0) (Some 20).

(* ------------------------------------------------------------------ *)
(** ** Placeholders of a statement *)

Definition operand_placeholders (o : operand) : list nat :=
  match o with
  | Placeholder n => [n]
  | _ => []
  end.

(** The placeholders of a conjunct, in the order of the text. *)
Fixpoint cond_placeholders (p : cond) : list nat :=
  match p with
  | Cmp a _ b => operand_placeholders a ++ operand_placeholders b
  | Between a lo hi =>
      operand_placeholders a ++ operand_placeholders lo
        ++ operand_placeholders hi
  | InList a l | NotInList a l =>
      operand_placeholders a ++ flat_map operand_placeholders l
  | And p q | Or p q => cond_placeholders p ++ cond_placeholders q
  | Paren p => cond_placeholders p
  end.

Definition where_placeholders (clauses : list cond) : list nat :=
  flat_map cond_placeholders clauses.

(* ------------------------------------------------------------------ *)
(** ** Requests that differ in their exclusions *)

Definition with_exclusions (rq : body) (xg xs : option (list string))
  : body := {|
  body_mood_uid := body_mood_uid rq;
  body_streaming_service_uids := body_streaming_service_uids rq;
  body_genre_uids := body_genre_uids rq;
  body_min_release_year := body_min_release_year rq;
  body_max_release_year := body_max_release_year rq;
  body_preferred_duration_category := body_preferred_duration_category rq;
  body_min_rating := body_min_rating rq;
  body_preferred_content_type := body_preferred_content_type rq;
  body_parental_rating_filter_json := body_parental_rating_filter_json rq;
  body_excluded_genre_uids := xg;
  body_excluded_service_uids := xs;
  body_page := body_page rq;
  body_page_size := body_page_size rq
|}.


(* ------------------------------------------------------------------ *)
(** ** Rows of sample responses *)

Definition rows_of (r : response) : list result_row :=
  match r with
  | Ok200 recs _ _ _ => recs
  | Error500 => []
  end.

Definition blank_row : result_row := {|
  row_content := mk_content "" "" None None None None None None;
  genres := [];
  available_on_services := []
|}.

(** The row of [m2] in the answer to [exclude_horror]: the store records
    [g_scifi] and [g_horror] for it, the row lists [g_scifi] alone. *)
Definition m2_without_horror : result_row :=
  Eval vm_compute in
    nth 1
      (rows_of (response_of
                  (handler table_order 2026 sample_store exclude_horror)))
      blank_row.

Definition scifi : genre := {| g_uid := "g_scifi"; g_name := "Sci-Fi" |}.

(** The row of [m2] in the answer to [plain_request]. *)
Definition m2_of_plain_request : result_row :=
  Eval vm_compute in
    hd blank_row
      (rows_of (response_of
                  (handler table_order 2026 sample_store plain_request))).

(** A request that includes and excludes the same genre. *)
Definition contradictory_request : body := {|
  body_mood_uid := None;
  body_streaming_service_uids := None;
  body_genre_uids := Some ["g_scifi"];
  body_min_release_year := None;
  body_max_release_year := None;
  body_preferred_duration_category := None;
  body_min_rating := None;
  body_preferred_content_type := None;
  body_parental_rating_filter_json := None;
  body_excluded_genre_uids := Some ["g_horror"; "g_scifi"];
  body_excluded_service_uids := None;
  body_page := None;
  body_page_size := None
|}.

(** The rating floor on the two scales. *)
Definition rating_floor_met (floor : Q) (c : content) : Prop :=
  (exists i, imdb_rating c = Some i /\ (floor <= i)%Q)
  \/ (exists t, rotten_tomatoes_score c = Some t
                /\ (floor <= inject_Z t)%Q).

(** The builder of [plain_request]. *)
Definition plain_builder : builder :=
  Eval vm_compute in
    match build (destructure 2026 plain_request) with
    | Some b => b
    | None => builder_init
    end.

(** The end of the page statement after [n] parameters. *)
Definition limit_offset_text (n : nat) : string :=
  (" LIMIT $" ++ nat_text (n + 1) ++ " OFFSET $" ++ nat_text (n + 2)
   ++ ";")%string.

(** The clauses of [b] use the parameters of [b], each one once and in
    order. *)
Definition numbered (b : builder) : Prop :=
  where_placeholders (whereClauses b)
  = seq 1 (List.length (queryParams b)).

(* ------------------------------------------------------------------ *)
(** ** The rest of the database (db.sql) *)

Record user := {
  u_uid : string;
  u_email : string;
  u_password_hash : string;
  u_created_at : string;
  u_updated_at : string
}.

Record user_settings := {
  us_user_uid : string;
  us_default_mood_uid : option string;
  us_min_release_year : Z;
  us_max_release_year : Z;
  us_preferred_duration_category : string;
  us_min_rating : Q;
  us_preferred_content_type : string;
  us_parental_rating_filter_json : option string
}.

Record watchlist_entry := {
  we_uid : string;
  we_user_uid : string;
  we_content_uid : string;
  we_added_at : string
}.

Record database := {
  db_store : Store.t;
  db_users : list user;
  db_user_settings : list user_settings;
  db_watchlist : list watchlist_entry
}.

Definition set_watchlist (db : database) (wl : list watchlist_entry)
  : database := {|
  db_store := db_store db;
  db_users := db_users db;
  db_user_settings := db_user_settings db;
  db_watchlist := wl
|}.

(** A JSON reply [{ success, message }] with its status. *)
Inductive reply := Reply (status : nat) (message : string).

Definition status_of (r : reply) : nat :=
  match r with Reply st _ => st end.

(** [!x] on a text that may be missing: missing and empty are falsy. *)
Definition falsy (o : option string) : bool :=
  match o with
  | None => true
  | Some t => String.eqb t ""
  end.

(* ------------------------------------------------------------------ *)
(** ** The content route (server.js 825-920) *)

Definition content_exists (s : Store.t) (cu : string) : bool :=
  existsb (fun c => String.eqb (uid c) cu) (tbl_content s).

(** [we.user_uid = u AND we.content_uid = cu] *)
Definition entry_is (u cu : string) (e : watchlist_entry) : bool :=
  String.eqb (we_user_uid e) u && String.eqb (we_content_uid e) cu.

Definition on_watchlist (wl : list watchlist_entry) (u cu : string) : bool :=
  existsb (entry_is u cu) wl.

Inductive detail_reply :=
| Detail200 (content_row : result_row) (is_on_watchlist : option bool)
| Detail404.

(** The handler for a given [req.user]: the joined rows with
    [c.uid = $1], grouped by [c.uid]; [rows[0]] is the answer.  The
    [EXISTS] column is selected only for a truthy [user_uid]. *)
Definition content_detail (db : database) (req_user : option string)
  (content_uid : string) : detail_reply :=
  let rows :=
    filter (fun r => String.eqb (row_uid r) content_uid)
      (from_clause (db_store db)) in
  match group_by_uid rows with
  | [] => Detail404
  | x :: _ =>
      Detail200 x
        (match req_user with
         | Some u =>
             if String.eqb u "" then None
             else Some (on_watchlist (db_watchlist db) u (result_uid x))
         | None => None
         end)
  end.

(** The route is registered without [authenticateToken]: nothing sets
    [req.user] before the handler runs. *)
Definition content_route (db : database) (content_uid : string)
  : detail_reply :=
  content_detail db None content_uid.

(* ------------------------------------------------------------------ *)
(** ** The watchlist handlers (server.js 654-817)

    They run behind [authenticateToken]; [user_uid] is [req.user.uid].
    [new_uid] and [now] are the values of [generate_uid()] and
    [get_current_timestamp()]. *)

(** [INSERT INTO watchlist_entries]: the primary key [uid], the unique
    pair (user, content) and the two foreign keys are checked; [None] is
    a rejected insert. *)
Definition insert_watchlist_entry (db : database) (e : watchlist_entry)
  : option database :=
  if existsb (fun x => String.eqb (we_uid x) (we_uid e)) (db_watchlist db)
     || on_watchlist (db_watchlist db) (we_user_uid e) (we_content_uid e)
     || negb (existsb (fun u => String.eqb (u_uid u) (we_user_uid e))
                (db_users db))
     || negb (content_exists (db_store db) (we_content_uid e))
  then None
  else Some (set_watchlist db (db_watchlist db ++ [e])).

Definition watchlist_add (db : database) (user_uid : string)
  (content_uid : option string) (new_uid now : string)
  : database * reply :=
  if falsy content_uid then (db, Reply 400 "content_uid is required")
  else
    let cu := or_default content_uid "" in
    if negb (content_exists (db_store db) cu)
    then (db, Reply 404 "Content not found")
    else if on_watchlist (db_watchlist db) user_uid cu
    then (db, Reply 409 "Content already in watchlist")
    else
      match insert_watchlist_entry db
              {| we_uid := new_uid; we_user_uid := user_uid;
                 we_content_uid := cu; we_added_at := now |} with
      | Some db' =>
          (db', Reply 201 "Content added to watchlist successfully")
      | None =>
          (db, Reply 500 "Internal server error adding to watchlist")
      end.

(** [DELETE FROM watchlist_entries WHERE user_uid = $1 AND content_uid =
    $2], answered by [rowCount]. *)
Definition watchlist_remove (db : database) (user_uid content_uid : string)
  : database * reply :=
  let kept :=
    filter (fun e => negb (entry_is user_uid content_uid e))
      (db_watchlist db) in
  let rowCount := (List.length (db_watchlist db) - List.length kept)%nat in
  (set_watchlist db kept,
   if Nat.eqb rowCount 0
   then Reply 404 "Content not found in watchlist"
   else Reply 200 "Content removed from watchlist successfully").

(** One joined row of the watchlist query. *)
Record wl_jrow := { w_entry : watchlist_entry; w_row : jrow }.

(** The store with [content] cut down to one row. *)
Definition store_with_content (s : Store.t) (cs : list content) : Store.t := {|
  tbl_content := cs;
  tbl_content_genres := tbl_content_genres s;
  tbl_genres := tbl_genres s;
  tbl_availability := tbl_availability s;
  tbl_streaming_services := tbl_streaming_services s
|}.

(** [watchlist_entries we JOIN content c ON we.content_uid = c.uid]
    followed by the four left joins. *)
Definition watchlist_from (db : database) : list wl_jrow :=
  flat_map (fun e =>
    map (fun r => {| w_entry := e; w_row := r |})
      (from_clause
         (store_with_content (db_store db)
            (filter (fun c => String.eqb (we_content_uid e) (uid c))
               (tbl_content (db_store db))))))
    (db_watchlist db).

Record watchlist_row := {
  wr_row : result_row;
  wr_added_at : string
}.

(** [GROUP BY c.uid, we.added_at] *)
Definition same_group (x y : wl_jrow) : bool :=
  String.eqb (row_uid (w_row x)) (row_uid (w_row y))
  && String.eqb (we_added_at (w_entry x)) (we_added_at (w_entry y)).

Definition group_watchlist (rows : list wl_jrow) : list watchlist_row :=
  map (fun x =>
         let grp := map w_row (filter (same_group x) rows) in
         {| wr_row := {| row_content := j_c (w_row x);
                         genres := agg_genres grp;
                         available_on_services := agg_services grp |};
            wr_added_at := we_added_at (w_entry x) |})
      (dedup same_group rows).

(** A stable insertion sort by a test "may stand before". *)
Fixpoint insert_by {A : Type} (ge : A -> A -> bool) (x : A) (l : list A)
  : list A :=
  match l with
  | [] => [x]
  | y :: t => if ge x y then x :: y :: t else y :: insert_by ge x t
  end.

Fixpoint sort_by {A : Type} (ge : A -> A -> bool) (l : list A) : list A :=
  match l with
  | [] => []
  | x :: t => insert_by ge x (sort_by ge t)
  end.

(** [ORDER BY we.added_at DESC] on the text column, compared byte by
    byte. *)
Definition added_later (x y : watchlist_row) : bool :=
  String.leb (wr_added_at y) (wr_added_at x).

Definition watchlist_get (db : database) (user_uid : string)
  : list watchlist_row :=
  sort_by added_later
    (group_watchlist
       (filter (fun x => String.eqb (we_user_uid (w_entry x)) user_uid)
          (watchlist_from db))).

(** The unique key of [watchlist_entries]. *)
Definition entry_key (e : watchlist_entry) : string * string :=
  (we_user_uid e, we_content_uid e).

Definition watchlist_unique (db : database) : Prop :=
  NoDup (map entry_key (db_watchlist db)).

(** A database over the sample store with one user and an empty
    watchlist. *)
Definition sample_db : database := {|
  db_store := sample_store;
  db_users :=
    [ {| u_uid := "user_1"; u_email := "mark@example.com";
         u_password_hash := "h"; u_created_at := "2024-01-01T00:00:00.000Z";
         u_updated_at := "2024-01-01T00:00:00.000Z" |} ];
  db_user_settings := [];
  db_watchlist := []
|}.

(** The row the content route answers with for [m2]. *)
Definition m2_detail : result_row :=
  Eval vm_compute in
    match content_route sample_db "m2" with
    | Detail200 x _ => x
    | Detail404 => blank_row
    end.

Definition horror : genre := {| g_uid := "g_horror"; g_name := "Horror" |}.

Definition pair_eqb (x y : string * string) : bool :=
  String.eqb (fst x) (fst y) && String.eqb (snd x) (snd y).

(** The key of [GROUP BY c.uid, we.added_at]. *)
Definition group_key (x : wl_jrow) : string * string :=
  (row_uid (w_row x), we_added_at (w_entry x)).

(** The content uids on a watchlist answer, in its order. *)
Definition watchlist_uids (rows : list watchlist_row) : list string :=
  map (fun w => result_uid (wr_row w)) rows.

(** [sample_db] after its user added [m1] and then [s1]. *)
Definition sample_db_with_two : database :=
  Eval vm_compute in
    fst (watchlist_add
           (fst (watchlist_add sample_db "user_1" (Some "m1") "we_1"
                   "2024-05-01T10:00:00.000Z"))
           "user_1" (Some "s1") "we_2" "2024-05-02T10:00:00.000Z").

(* ------------------------------------------------------------------ *)
(** ** The token middleware (server.js 107-125) *)

(** [s.split(sep)] for a one-character separator. *)
Fixpoint split_on (sep : ascii) (s : string) : list string :=
  match s with
  | EmptyString => [EmptyString]
  | String c t =>
      if Ascii.eqb c sep then EmptyString :: split_on sep t
      else
        match split_on sep t with
        | seg :: rest => String c seg :: rest
        | [] => [String c EmptyString]
        end
  end.

Definition space : ascii := " "%char.

(** The payload of a token: [{ uid, email }]. *)
Record token_user := { tu_uid : string; tu_email : string }.

(** What [jwt.verify] hands to its callback. *)
Inductive verify_result :=
| Verified (payload : token_user)
| TokenExpired
| VerifyError.

Inductive auth_outcome :=
| Next (req_user : token_user)
| Rejected (r : reply).

Definition no_token : reply := Reply 401 "Unauthorized: No token provided".
Definition token_expired : reply := Reply 401 "Unauthorized: Token expired".
Definition invalid_token : reply := Reply 403 "Forbidden: Invalid token".

(** [authHeader && authHeader.split(' ')[1]] *)
Definition header_token (authHeader : option string) : option string :=
  match authHeader with
  | None => None
  | Some h =>
      if String.eqb h "" then Some ""
      else nth_error (split_on space h) 1
  end.

Definition authenticateToken (verify : string -> verify_result)
  (authHeader : option string) : auth_outcome :=
  let token := header_token authHeader in
  if falsy token then Rejected no_token
  else
    match verify (or_default token "") with
    | Verified user => Next user
    | TokenExpired => Rejected token_expired
    | VerifyError => Rejected invalid_token
    end.

Definition has_space (s : string) : bool :=
  existsb (fun c => Ascii.eqb c space) (list_ascii_of_string s).

(** A route behind the middleware: the handler runs on [req.user] when
    the middleware calls [next], otherwise the database is not touched
    and the middleware's reply is sent. *)
Definition protected (verify : string -> verify_result)
  (authHeader : option string) (db : database)
  (h : token_user -> database * reply) : database * reply :=
  match authenticateToken verify authHeader with
  | Next user => h user
  | Rejected r => (db, r)
  end.

Definition route_watchlist_add (verify : string -> verify_result)
  (authHeader : option string) (db : database) (content_uid : option string)
  (new_uid now : string) : database * reply :=
  protected verify authHeader db
    (fun user => watchlist_add db (tu_uid user) content_uid new_uid now).

Definition route_watchlist_remove (verify : string -> verify_result)
  (authHeader : option string) (db : database) (content_uid : string)
  : database * reply :=
  protected verify authHeader db
    (fun user => watchlist_remove db (tu_uid user) content_uid).

(** The entries of a user. *)
Definition entries_of (db : database) (u : string) : list watchlist_entry :=
  filter (fun e => String.eqb (we_user_uid e) u) (db_watchlist db).

(** A verifier that knows one token. *)
Definition sample_verify (token : string) : verify_result :=
  if String.eqb token "good"
  then Verified {| tu_uid := "user_1"; tu_email := "mark@example.com" |}
  else if String.eqb token "old" then TokenExpired
  else VerifyError.

(* ------------------------------------------------------------------ *)
(** ** Sign-up and log-in (server.js 66-98, 136-230) *)

(** The library calls behind [hash_password], [compare_password] and
    [generate_token]: [bcrypt.hash] with the salt it draws,
    [bcrypt.compare], and [jwt.sign] on the payload [{ uid, email }]. *)
Record crypto := {
  hash_password : string -> string -> string;
  compare_password : string -> string -> bool;
  generate_token : token_user -> string
}.

Inductive auth_reply :=
| AuthOk (status : nat) (message : string)
         (user_uid user_email token : string)
| AuthFail (r : reply).

Definition set_users (db : database) (us : list user) : database := {|
  db_store := db_store db;
  db_users := us;
  db_user_settings := db_user_settings db;
  db_watchlist := db_watchlist db
|}.

Definition set_user_settings (db : database) (ss : list user_settings)
  : database := {|
  db_store := db_store db;
  db_users := db_users db;
  db_user_settings := ss;
  db_watchlist := db_watchlist db
|}.

Definition email_taken (db : database) (email : string) : bool :=
  existsb (fun u => String.eqb (u_email u) email) (db_users db).

(** [INSERT INTO users]: primary key [uid], unique [email]. *)
Definition insert_user (db : database) (u : user) : option database :=
  if existsb (fun x => String.eqb (u_uid x) (u_uid u)) (db_users db)
     || email_taken db (u_email u)
  then None
  else Some (set_users db (db_users db ++ [u])).

(** [INSERT INTO user_settings]: primary key [user_uid], which refers to
    [users]. *)
Definition insert_user_settings (db : database) (s : user_settings)
  : option database :=
  if existsb (fun x => String.eqb (us_user_uid x) (us_user_uid s))
       (db_user_settings db)
     || negb (existsb (fun u => String.eqb (u_uid u) (us_user_uid s))
                (db_users db))
  then None
  else Some (set_user_settings db (db_user_settings db ++ [s])).

(** The settings row of a new user. *)
Definition initial_settings (uid : string) (current_year : Z)
  : user_settings := {|
  us_user_uid := uid;
  us_default_mood_uid := None;
  us_min_release_year := 1900;
  us_max_release_year := current_year;
  us_preferred_duration_category := "any";
  us_min_rating := 0%Q;
  us_preferred_content_type := "both";
  us_parental_rating_filter_json := Some "[]"
|}.

Definition signup_failed : auth_reply :=
  AuthFail (Reply 500 "Internal server error during signup").

(** [new_uid], [now] and [salt] are what [generate_uid()],
    [get_current_timestamp()] and bcrypt supply.  The two inserts are
    not in a transaction. *)
Definition signup (k : crypto) (current_year : Z) (db : database)
  (email password : option string) (new_uid now salt : string)
  : database * auth_reply :=
  if falsy email || falsy password
  then (db, AuthFail (Reply 400 "Email and password are required"))
  else
    let e := or_default email "" in
    let p := or_default password "" in
    if (String.length p <? 8)%nat
    then (db, AuthFail
                (Reply 400 "Password must be at least 8 characters long"))
    else if email_taken db e
    then (db, AuthFail (Reply 409 "User with this email already exists"))
    else
      match insert_user db
              {| u_uid := new_uid; u_email := e;
                 u_password_hash := hash_password k p salt;
                 u_created_at := now; u_updated_at := now |} with
      | None => (db, signup_failed)
      | Some db1 =>
          match insert_user_settings db1
                  (initial_settings new_uid current_year) with
          | None => (db1, signup_failed)
          | Some db2 =>
              (db2,
               AuthOk 201 "User registered successfully" new_uid e
                 (generate_token k
                    {| tu_uid := new_uid; tu_email := e |}))
          end
      end.

Definition invalid_login : auth_reply :=
  AuthFail (Reply 401 "Invalid email or password").

Definition touch (now : string) (u : user) : user := {|
  u_uid := u_uid u;
  u_email := u_email u;
  u_password_hash := u_password_hash u;
  u_created_at := u_created_at u;
  u_updated_at := now
|}.

Definition login (k : crypto) (db : database)
  (email password : option string) (now : string)
  : database * auth_reply :=
  if falsy email || falsy password
  then (db, AuthFail (Reply 400 "Email and password are required"))
  else
    let e := or_default email "" in
    let p := or_default password "" in
    match find (fun u => String.eqb (u_email u) e) (db_users db) with
    | None => (db, invalid_login)
    | Some user =>
        if negb (compare_password k p (u_password_hash user))
        then (db, invalid_login)
        else
          (set_users db
             (map (fun x => if String.eqb (u_uid x) (u_uid user)
                            then touch now x else x)
                (db_users db)),
           AuthOk 200 "Login successful" (u_uid user) (u_email user)
             (generate_token k
                {| tu_uid := u_uid user; tu_email := u_email user |}))
    end.

Definition auth_status (r : auth_reply) : nat :=
  match r with
  | AuthOk st _ _ _ _ => st
  | AuthFail r => status_of r
  end.

(** The stored settings read as a recommendation request. *)
Definition settings_as_args (s : user_settings) (a : args) : Prop :=
  us_min_release_year s = min_release_year a
  /\ us_max_release_year s = max_release_year a
  /\ us_preferred_duration_category s = preferred_duration_category a
  /\ us_min_rating s = min_rating a
  /\ us_preferred_content_type s = preferred_content_type a
  /\ us_parental_rating_filter_json s = Some "[]"
  /\ parental_rating_filter_json a = JsonArray [].

(** A stand-in for bcrypt and jwt that keeps the password as its own
    hash; it serves to show that the assumption made on them can be
    met. *)
Definition toy_crypto : crypto := {|
  hash_password := fun p _ => p;
  compare_password := String.eqb;
  generate_token := fun u => ("token-for-" ++ tu_uid u)%string
|}.

(** [sample_db] after a sign-up. *)
Definition sample_db_signed_up : database :=
  Eval vm_compute in
    fst (signup toy_crypto 2026 sample_db (Some "brenda@example.com")
           (Some "correct horse") "user_2" "2024-06-01T09:00:00.000Z"
           "salt").

(* ------------------------------------------------------------------ *)
(** ** The sign-up form (src/unnamed/part_000, lines 75-107)

    Passwords are taken to be texts of ASCII characters. *)

(** [/[..]/.test(s)]: some character of [s] is in the class. *)
Definition test (class : ascii -> bool) (s : string) : bool :=
  existsb class (list_ascii_of_string s).

Definition in_range (lo hi : nat) (c : ascii) : bool :=
  (lo <=? nat_of_ascii c)%nat && (nat_of_ascii c <=? hi)%nat.

Definition upper_case : ascii -> bool := in_range 65 90.
Definition lower_case : ascii -> bool := in_range 97 122.
Definition digit : ascii -> bool := in_range 48 57.

(** The class of special characters of the last test: the characters
    below and the double quote, character 34. *)
Definition special : ascii -> bool :=
  fun c =>
    existsb (Ascii.eqb c)
      (ascii_of_nat 34 :: list_ascii_of_string "!@#$%^&*(),.?:{}|<>").

(** [None] is [undefined]: the password is accepted. *)
Definition validate_password (password : string) : option string :=
  if String.eqb password "" then Some "Password is required."
  else if (String.length password <? 8)%nat
  then Some "Password must be at least 8 characters."
  else if negb (test upper_case password)
  then Some "Password must contain at least one uppercase letter."
  else if negb (test lower_case password)
  then Some "Password must contain at least one lowercase letter."
  else if negb (test digit password)
  then Some "Password must contain at least one number."
  else if negb (test special password)
  then Some "Password must contain at least one special character."
  else None.

Definition count (b : bool) : nat := if b then 1%nat else 0%nat.

Definition get_password_strength (password : string) : string * string :=
  let strength :=
    (count (7 <? String.length password)%nat
     + count (test upper_case password)
     + count (test lower_case password)
     + count (test digit password)
     + count (test special password))%nat in
  match strength with
  | 0%nat | 1%nat => ("Very Weak", "text-red-500")
  | 2%nat => ("Weak", "text-orange-500")
  | 3%nat => ("Medium", "text-yellow-500")
  | 4%nat => ("Strong", "text-green-500")
  | 5%nat => ("Very Strong", "text-green-600")
  | _ => ("", "text-gray-400")
  end.

(* ------------------------------------------------------------------ *)
(** ** The check boxes of the settings page
    (src/vitereact/src/components/views/GV_Footer.tsx, lines 351-362) *)

(** [checked ? [...new Set([...prev, uid])]
            : prev.filter(item_uid => item_uid !== uid)];
    a [Set] keeps its elements in the order of first insertion. *)
Definition handle_checkbox_toggle (prev : list string) (uid : string)
  (checked : bool) : list string :=
  if checked then dedup String.eqb (prev ++ [uid])
  else filter (fun item_uid => negb (String.eqb item_uid uid)) prev.

(* ------------------------------------------------------------------ *)
(** ** The preference form (src/unnamed/part_001, lines 130-141, 388-417) *)

Record form_state := {
  fs_selected_mood_uid : option string;
  fs_selected_service_uids : list string;
  fs_selected_genre_uids : list string;
  fs_min_release_year : Z;
  fs_max_release_year : Z;
  fs_preferred_duration_category : string;
  fs_min_rating : Q;
  fs_preferred_content_type : string;
  fs_selected_parental_ratings : list string;
  fs_excluded_genre_uids : list string;
  fs_excluded_service_uids : list string
}.

Definition MIN_YEAR_DEFAULT : Z := 1900.

(** The payload the form posts; [None] when it shows a warning and
    posts nothing.  [JSON.stringify] of the selected ratings is the text
    that parses back to them. *)
Definition handle_get_recommendations (CURRENT_YEAR : Z) (f : form_state)
  : option body :=
  if Nat.eqb (List.length (fs_selected_service_uids f)) 0 then None
  else if fs_max_release_year f <? fs_min_release_year f then None
  else Some {|
    body_mood_uid := fs_selected_mood_uid f;
    body_streaming_service_uids := Some (fs_selected_service_uids f);
    body_genre_uids := Some (fs_selected_genre_uids f);
    body_min_release_year :=
      Some (Z.max (fs_min_release_year f) MIN_YEAR_DEFAULT);
    body_max_release_year :=
      Some (Z.min (fs_max_release_year f) (CURRENT_YEAR + 1));
    body_preferred_duration_category :=
      Some (fs_preferred_duration_category f);
    body_min_rating := Some (fs_min_rating f);
    body_preferred_content_type := Some (fs_preferred_content_type f);
    body_parental_rating_filter_json :=
      Some (JsonArray (fs_selected_parental_ratings f));
    body_excluded_genre_uids := Some (fs_excluded_genre_uids f);
    body_excluded_service_uids := Some (fs_excluded_service_uids f);
    body_page := Some 1;
    body_page_size := Some 20
  |}.

(** The form as it is first shown, with one service ticked. *)
Definition sample_form : form_state := {|
  fs_selected_mood_uid := None;
  fs_selected_service_uids := ["netflix"];
  fs_selected_genre_uids := [];
  fs_min_release_year := 1900;
  fs_max_release_year := 2026;
  fs_preferred_duration_category := "any";
  fs_min_rating := 0%Q;
  fs_preferred_content_type := "both";
  fs_selected_parental_ratings := [];
  fs_excluded_genre_uids := [];
  fs_excluded_service_uids := []
|}.

(** The same form with the option "8.5+" of the rating menu chosen. *)
Definition fractional_form : form_state := {|
  fs_selected_mood_uid := None;
  fs_selected_service_uids := ["netflix"];
  fs_selected_genre_uids := [];
  fs_min_release_year := 1900;
  fs_max_release_year := 2026;
  fs_preferred_duration_category := "any";
  fs_min_rating := 17 # 2;
  fs_preferred_content_type := "both";
  fs_selected_parental_ratings := [];
  fs_excluded_genre_uids := [];
  fs_excluded_service_uids := []
|}.

Definition sample_payload : body :=
  Eval vm_compute in
    match handle_get_recommendations 2026 sample_form with
    | Some rq => rq
    | None => empty_body
    end.

(** The first row of the answer to [sample_payload]. *)
Definition sample_payload_row : result_row :=
  Eval vm_compute in
    hd blank_row
      (rows_of (response_of
                  (handler table_order 2026 sample_store sample_payload))).

(* ------------------------------------------------------------------ *)
(** * Saving the preferences: [PUT /api/v1/users/me/preferences]

    The handler runs one transaction: it updates the [user_settings] row
    with bound parameters, then for each of the four junction tables
    deletes the user's rows and, when the list in the body is not empty,
    inserts the new ones with an [INSERT] whose [VALUES] are written into
    the statement text.  What is modelled is the sequence of statements
    sent when none of them fails. *)

Record preferences_body := {
  pb_default_mood_uid : option string;
  pb_min_release_year : option Z;
  pb_max_release_year : option Z;
  pb_preferred_duration_category : option string;
  pb_min_rating : option Q;
  pb_preferred_content_type : option string;
  pb_parental_rating_filter_json : option string;
  pb_selected_service_uids : option (list string);
  pb_selected_genre_uids : option (list string);
  pb_excluded_genre_uids : option (list string);
  pb_excluded_service_uids : option (list string)
}.

(** A statement text with its bound parameters. *)
Definition sql_call : Type := string * list value.

Definition update_user_settings_text : string :=
  ("UPDATE user_settings SET" ++ newline
   ++ "         default_mood_uid = $1," ++ newline
   ++ "         min_release_year = $2," ++ newline
   ++ "         max_release_year = $3," ++ newline
   ++ "         preferred_duration_category = $4," ++ newline
   ++ "         min_rating = $5," ++ newline
   ++ "         preferred_content_type = $6," ++ newline
   ++ "         parental_rating_filter_json = $7" ++ newline
   ++ "       WHERE user_uid = $8")%string.

(** [`('${user_uid}', '${s_uid}')`]. *)
Definition values_tuple (user_uid s_uid : string) : string :=
  ("('" ++ user_uid ++ "', '" ++ s_uid ++ "')")%string.

(** [uids.map(...).join(',')]. *)
Definition values_text (user_uid : string) (uids : list string) : string :=
  String.concat "," (map (values_tuple user_uid) uids).

(** One of the four steps on a junction table: the [DELETE], and the
    [INSERT] when the list is not empty. *)
Definition replace_rows (table column user_uid : string)
  (uids : list string) : list sql_call :=
  (("DELETE FROM " ++ table ++ " WHERE user_uid = $1")%string,
   [VText user_uid])
  :: (if (0 <? List.length uids)%nat
      then [(("INSERT INTO " ++ table ++ " (user_uid, " ++ column
              ++ ") VALUES " ++ values_text user_uid uids)%string, [])]
      else []).

Definition text_or_null (o : option string) : value :=
  match o with Some s => VText s | None => VNull end.

Definition put_preferences_calls (current_year : Z) (user_uid : string)
  (b : preferences_body) : list sql_call :=
  [ ("BEGIN", []);
    (update_user_settings_text,
     [ text_or_null (pb_default_mood_uid b);
       VInt (or_default (pb_min_release_year b) 1900);
       VInt (or_default (pb_max_release_year b) current_year);
       VText (or_default (pb_preferred_duration_category b) "any");
       VNum (or_default (pb_min_rating b) 0%Q);
       VText (or_default (pb_preferred_content_type b) "both");
       VText (or_default (pb_parental_rating_filter_json b) "[]");
       VText user_uid ]) ]
  ++ replace_rows "user_default_streaming_services" "service_uid" user_uid
       (or_default (pb_selected_service_uids b) [])
  ++ replace_rows "user_default_genres" "genre_uid" user_uid
       (or_default (pb_selected_genre_uids b) [])
  ++ replace_rows "user_excluded_genres" "genre_uid" user_uid
       (or_default (pb_excluded_genre_uids b) [])
  ++ replace_rows "user_excluded_streaming_services" "service_uid" user_uid
       (or_default (pb_excluded_service_uids b) [])
  ++ [ ("COMMIT", []) ].

Definition with_selected_services (b : preferences_body)
  (uids : list string) : preferences_body := {|
  pb_default_mood_uid := pb_default_mood_uid b;
  pb_min_release_year := pb_min_release_year b;
  pb_max_release_year := pb_max_release_year b;
  pb_preferred_duration_category := pb_preferred_duration_category b;
  pb_min_rating := pb_min_rating b;
  pb_preferred_content_type := pb_preferred_content_type b;
  pb_parental_rating_filter_json := pb_parental_rating_filter_json b;
  pb_selected_service_uids := Some uids;
  pb_selected_genre_uids := pb_selected_genre_uids b;
  pb_excluded_genre_uids := pb_excluded_genre_uids b;
  pb_excluded_service_uids := pb_excluded_service_uids b
|}.

(** One identifier that closes its tuple and opens another one. *)
Definition two_in_one (user_uid x y : string) : string :=
  (x ++ "'),('" ++ user_uid ++ "', '" ++ y)%string.
(* ------------------------------------------------------------------ *)
(** ** Facts about lists *)

Section ListFacts.
Context {A : Type}.


Lemma map_nth_seq (d : A) (l : list A) :
  map (fun i => nth i l d) (seq 0 (List.length l)) = l.
Proof.
  induction l as [|x l IH]; simpl; [reflexivity|].
  f_equal. rewrite <- seq_shift, map_map. exact IH.
Qed.

Lemma dedup_incl (eqb : A -> A -> bool) (l : list A) (x : A) :
  In x (dedup eqb l) -> In x l.
Proof.
  induction l as [|y l IH]; simpl; [tauto|].
  intros [->|H]; [now left|].
  apply filter_In in H. right. apply IH, H.
Qed.

End ListFacts.

Lemma dedup_map {A B : Type} (f : A -> B) (eqb : B -> B -> bool)
  (l : list A) :
  map f (dedup (fun x y => eqb (f x) (f y)) l) = dedup eqb (map f l).
Proof.
  induction l as [|x l IH]; simpl; [reflexivity|].
  f_equal. rewrite <- IH.
  generalize (dedup (fun x0 y => eqb (f x0) (f y)) l). intros m.
  induction m as [|z m IHm]; simpl; [reflexivity|].
  destruct (eqb (f x) (f z)); simpl; now rewrite ?IHm.
Qed.

Lemma dedup_string_In (l : list string) (x : string) :
  In x (dedup String.eqb l) <-> In x l.
Proof.
  split; [apply dedup_incl|].
  induction l as [|y l IH]; simpl; [tauto|].
  intros [->|H]; [now left|].
  destruct (String.eqb y x) eqn:E.
  - apply String.eqb_eq in E. now left.
  - right. apply filter_In. split; [now apply IH|]. now rewrite E.
Qed.

Lemma dedup_string_NoDup (l : list string) : NoDup (dedup String.eqb l).
Proof.
  induction l as [|y l IH]; simpl; constructor.
  - intros H. apply filter_In in H. destruct H as [_ H].
    now rewrite String.eqb_refl in H.
  - now apply NoDup_filter.
Qed.

(* ------------------------------------------------------------------ *)
(** ** Three-valued logic *)

Lemma tv_and_TT_r (a : tv) : tv_and a TT = a.
Proof. now destruct a. Qed.

Lemma is_true_and (a b : tv) :
  is_true (tv_and a b) = is_true a && is_true b.
Proof. now destruct a, b. Qed.

Lemma is_true_of_bool (b : bool) : is_true (tv_of_bool b) = b.
Proof. now destruct b. Qed.

Lemma is_true_or (a b : tv) :
  is_true (tv_or a b) = is_true a || is_true b.
Proof. now destruct a, b. Qed.

Lemma where_eval_snoc (params : list value) (cs : list cond) (c : cond)
  (r : jrow) :
  where_eval params (cs ++ [c]) r
  = tv_and (where_eval params cs r) (eval params r c).
Proof.
  unfold where_eval. induction cs as [|d cs IH]; simpl.
  - now destruct (eval params r c).
  - rewrite IH. now destruct (eval params r d),
      (fold_right (fun p acc => tv_and (eval params r p) acc) TT cs),
      (eval params r c).
Qed.

(** [x IN (..)] over text values: true exactly on membership, unknown
    exactly when [x] is [NULL] and the list is not empty. *)
Lemma sql_in_text (s : string) (l : list string) :
  sql_in (VText s) (map VText l)
  = tv_of_bool (existsb (String.eqb s) l).
Proof.
  induction l as [|y l IH]; simpl; [reflexivity|].
  rewrite IH. unfold sql_eq; simpl.
  now destruct (String.eqb s y), (existsb (String.eqb s) l).
Qed.

Lemma sql_in_null (l : list string) :
  sql_in VNull (map VText l) = match l with [] => FF | _ => UU end.
Proof.
  induction l as [|y l IH]; simpl; [reflexivity|].
  rewrite IH. now destruct l.
Qed.

(* ------------------------------------------------------------------ *)
(** ** Placeholders resolve to the values pushed with them *)

Lemma param_mid (pre vs extra : list value) (i : nat) :
  (i < List.length vs)%nat ->
  param (pre ++ vs ++ extra) (List.length pre + 1 + i) = nth i vs VNull.
Proof.
  intros Hi. replace (List.length pre + 1 + i)%nat
    with (S (List.length pre + i)) by lia.
  simpl. rewrite app_nth2 by lia.
  replace (List.length pre + i - List.length pre)%nat with i by lia.
  now rewrite app_nth1.
Qed.

Lemma placeholders_values (pre extra : list value) (xs : list string)
  (r : jrow) :
  map (operand_value (pre ++ map VText xs ++ extra) r)
      (placeholders (List.length (pre ++ map VText xs)) xs)
  = map VText xs.
Proof.
  unfold placeholders. rewrite map_map.
  transitivity (map (fun i => nth i (map VText xs) VNull)
                  (seq 0 (List.length xs))).
  2: { rewrite <- (length_map VText xs). apply map_nth_seq. }
  apply map_ext_in. intros i Hi.
  apply in_seq in Hi. simpl.
  rewrite length_app, length_map.
  replace (List.length pre + List.length xs - List.length xs + 1 + i)%nat
    with (List.length pre + 1 + i)%nat by lia.
  apply param_mid. rewrite length_map. lia.
Qed.

(* ------------------------------------------------------------------ *)
(** ** The builder's conjuncts mean what [row_sem] says *)

Lemma holds_init : holds builder_init (fun _ => TT).
Proof. intros extra r. reflexivity. Qed.

Lemma holds_skip (b : builder) (P : jrow -> tv) :
  holds b P -> holds b (fun r => tv_and (P r) TT).
Proof. intros H extra r. now rewrite tv_and_TT_r. Qed.

Lemma holds_push (b : builder) (P S : jrow -> tv) (vs : list value)
  (mk : nat -> cond) :
  holds b P ->
  (forall extra r,
      eval (queryParams b ++ vs ++ extra) r
           (mk (List.length (queryParams b ++ vs))) = S r) ->
  holds (push vs mk b) (fun r => tv_and (P r) (S r)).
Proof.
  intros H Hc extra r. unfold push; simpl.
  rewrite where_eval_snoc, <- app_assoc, H. f_equal. apply Hc.
Qed.

Lemma param_at (pre vs extra : list value) (n i : nat) :
  (i < List.length vs)%nat -> n = (List.length pre + 1 + i)%nat ->
  param (pre ++ vs ++ extra) n = nth i vs VNull.
Proof. intros Hi ->. now apply param_mid. Qed.

Lemma holds_content_type (a : args) (b : builder) (P : jrow -> tv) :
  holds b P ->
  holds (add_content_type a b) (fun r => tv_and (P r) (sem_content_type a r)).
Proof.
  intros H. unfold add_content_type, sem_content_type.
  destruct (negb (preferred_content_type a =? "both")%string).
  - apply holds_push; [exact H|]. intros extra r.
    cbn [eval operand_value cmp_eval].
    rewrite (param_at _ _ _ _ 0%nat); [reflexivity|simpl; lia|].
    rewrite length_app; simpl; lia.
  - now apply holds_skip.
Qed.

Lemma holds_release_year (a : args) (b : builder) (P : jrow -> tv) :
  holds b P ->
  holds (add_release_year a b) (fun r => tv_and (P r) (sem_release_year a r)).
Proof.
  intros H. unfold add_release_year, sem_release_year.
  destruct (truthy (min_release_year a) && truthy (max_release_year a)).
  - apply holds_push; [exact H|]. intros extra r.
    cbn [eval operand_value cmp_eval].
    rewrite !(param_at _ _ _ (List.length _ - 1) 0%nat),
            !(param_at _ _ _ (List.length _) 1%nat);
      try (simpl; lia); try (rewrite length_app; simpl; lia).
    reflexivity.
  - now apply holds_skip.
Qed.

Lemma holds_min_rating (a : args) (b : builder) (P : jrow -> tv) :
  holds b P ->
  holds (add_min_rating a b) (fun r => tv_and (P r) (sem_min_rating a r)).
Proof.
  intros H. unfold add_min_rating, sem_min_rating.
  destruct (Qlt_bool 0 (min_rating a)).
  - apply holds_push; [exact H|]. intros extra r.
    cbn [eval operand_value cmp_eval].
    rewrite !(param_at _ _ _ (List.length _ - 1) 0%nat),
            !(param_at _ _ _ (List.length _) 1%nat);
      try (simpl; lia); try (rewrite length_app; simpl; lia).
    reflexivity.
  - now apply holds_skip.
Qed.

Lemma holds_parental_rating (a : args) (b b' : builder) (P : jrow -> tv) :
  holds b P ->
  add_parental_rating a b = Some b' ->
  holds b' (fun r => tv_and (P r) (sem_parental_rating a r)).
Proof.
  intros H. unfold add_parental_rating, sem_parental_rating.
  destruct (parental_rating_filter_json a) as [[|x l]|]; intros E;
    inversion E; subst.
  - now apply holds_skip.
  - apply holds_push; [exact H|]. intros extra r.
    cbn [eval].
    exact (f_equal (sql_in _)
             (placeholders_values (queryParams b) extra (x :: l) r)).
Qed.

Lemma duration_closed (category : string) (d : cond) (params : list value)
  (r : jrow) :
  durationCondition category = Some d -> eval params r d = eval [] r d.
Proof.
  unfold durationCondition.
  destruct (category =? "short")%string;
    [|destruct (category =? "medium")%string;
      [|destruct (category =? "long")%string]];
    intros E; inversion E; reflexivity.
Qed.

Lemma holds_duration (a : args) (b : builder) (P : jrow -> tv) :
  holds b P ->
  holds (add_duration a b) (fun r => tv_and (P r) (sem_duration a r)).
Proof.
  intros H. unfold add_duration, sem_duration.
  destruct (negb (preferred_duration_category a =? "any")%string);
    [|now apply holds_skip].
  destruct (durationCondition (preferred_duration_category a)) as [d|] eqn:E;
    [|now apply holds_skip].
  intros extra r. simpl. rewrite where_eval_snoc, H. f_equal.
  simpl. now apply duration_closed with (category := preferred_duration_category a).
Qed.

Lemma holds_uid_list (negated : bool) (c : column) (xs : option (list string))
  (b : builder) (P : jrow -> tv) :
  holds b P ->
  holds (add_uid_list (if negated then NotInList else InList) c xs b)
        (fun r => tv_and (P r) (sem_uid_list negated c xs r)).
Proof.
  intros H. unfold add_uid_list, sem_uid_list.
  destruct xs as [[|x l]|]; try now apply holds_skip.
  apply holds_push; [exact H|]. intros extra r.
  destruct negated; cbn [eval]; now rewrite placeholders_values.
Qed.

(** The builder as the sequence of its steps. *)
Lemma build_steps (a : args) (b : builder) :
  build a = Some b ->
  exists b1,
    add_parental_rating a
      (add_min_rating a (add_release_year a
         (add_content_type a builder_init))) = Some b1
    /\ b = add_uid_list NotInList ss_uid_col (Some (excluded_service_uids a))
           (add_uid_list InList ss_uid_col (streaming_service_uids a)
             (add_uid_list NotInList g_uid_col
                (Some (excluded_genre_uids a))
               (add_uid_list InList g_uid_col (genre_uids a)
                 (add_duration a b1)))).
Proof.
  unfold build. intros E.
  destruct (add_parental_rating a
             (add_min_rating a (add_release_year a
                (add_content_type a builder_init)))) as [b1|] eqn:E1;
    [|discriminate].
  exists b1. split; [reflexivity|].
  injection E as E; symmetry; exact E.
Qed.

(** The conjunction the builder assembles evaluates, on every row and
    whatever is pushed after it, to [row_sem]. *)
Lemma build_holds (a : args) (b : builder) :
  build a = Some b -> holds b (row_sem a).
Proof.
  intros E. destruct (build_steps a b E) as (b1 & E1 & E2).
  rewrite E2. unfold row_sem.
  apply (holds_uid_list true ss_uid_col (Some (excluded_service_uids a))).
  apply (holds_uid_list false ss_uid_col (streaming_service_uids a)).
  apply (holds_uid_list true g_uid_col (Some (excluded_genre_uids a))).
  apply (holds_uid_list false g_uid_col (genre_uids a)).
  apply holds_duration.
  eapply holds_parental_rating; [|exact E1].
  apply holds_min_rating, holds_release_year, holds_content_type, holds_init.
Qed.

Lemma build_passes (a : args) (b : builder) (extra : list value) (r : jrow) :
  build a = Some b ->
  passes (queryParams b ++ extra) (whereClauses b) r = row_matches a r.
Proof.
  intros E. unfold passes, row_matches. f_equal. now apply build_holds.
Qed.

Lemma build_where_rows (a : args) (b : builder) (extra : list value)
  (s : Store.t) :
  build a = Some b ->
  where_rows (queryParams b ++ extra) (whereClauses b) s
  = filter (row_matches a) (from_clause s).
Proof.
  intros E. unfold where_rows. apply filter_ext. intros r.
  now apply build_passes.
Qed.

Lemma build_where_rows_own (a : args) (b : builder) (s : Store.t) :
  build a = Some b ->
  where_rows (queryParams b) (whereClauses b) s
  = filter (row_matches a) (from_clause s).
Proof.
  intros E. rewrite <- (app_nil_r (queryParams b)) at 1.
  now apply build_where_rows.
Qed.

(* ------------------------------------------------------------------ *)
(** ** The database accepts the parameters exactly when they fit *)

Lemma typed_where_snoc (params : list value) (cs : list cond) (c : cond) :
  typed_where params (cs ++ [c])
  = typed_where params cs && well_typed params c.
Proof.
  unfold typed_where. rewrite forallb_app. simpl. now rewrite andb_true_r.
Qed.

Lemma accepts_text (v : value) : accepts TText v = true.
Proof. now destruct v. Qed.

Lemma binds_text (params : list value) (o : operand) :
  binds params (Some TText) o = true.
Proof. destruct o; cbn [binds]; try reflexivity. apply accepts_text. Qed.

Lemma fits_init : fits builder_init true.
Proof. intros extra. reflexivity. Qed.

Lemma fits_push (b : builder) (t u : bool) (vs : list value)
  (mk : nat -> cond) :
  fits b t ->
  (forall extra,
      well_typed (queryParams b ++ vs ++ extra)
        (mk (List.length (queryParams b ++ vs))) = u) ->
  fits (push vs mk b) (t && u).
Proof.
  intros H Hc extra. unfold push; simpl.
  rewrite typed_where_snoc, <- app_assoc, H. f_equal. apply Hc.
Qed.

Lemma fits_content_type (a : args) (b : builder) (t : bool) :
  fits b t -> fits (add_content_type a b) t.
Proof.
  intros H. unfold add_content_type.
  destruct (negb (preferred_content_type a =? "both")%string); [|exact H].
  rewrite <- (andb_true_r t). apply fits_push; [exact H|].
  intros extra. cbn [well_typed operand_type column_type].
  now rewrite binds_text.
Qed.

Lemma fits_release_year (a : args) (b : builder) (t : bool) :
  fits b t ->
  fits (add_release_year a b)
    (t && (if truthy (min_release_year a) && truthy (max_release_year a)
           then in_int4 (min_release_year a)
                && in_int4 (max_release_year a)
           else true)).
Proof.
  intros H. unfold add_release_year.
  destruct (truthy (min_release_year a) && truthy (max_release_year a));
    [|now rewrite andb_true_r].
  apply fits_push; [exact H|]. intros extra.
  cbn [well_typed operand_type column_type binds].
  rewrite !(param_at _ _ _ (List.length _ - 1) 0%nat),
          !(param_at _ _ _ (List.length _) 1%nat);
    try (simpl; lia); try (rewrite length_app; simpl; lia).
  reflexivity.
Qed.

Lemma fits_min_rating (a : args) (b : builder) (t : bool) :
  fits b t ->
  fits (add_min_rating a b)
    (t && (if Qlt_bool 0 (min_rating a)
           then integral (min_rating a)
                && in_int4 (whole_part (min_rating a))
           else true)).
Proof.
  intros H. unfold add_min_rating.
  destruct (Qlt_bool 0 (min_rating a)); [|now rewrite andb_true_r].
  apply fits_push; [exact H|]. intros extra.
  cbn [well_typed operand_type column_type binds].
  rewrite !(param_at _ _ _ (List.length _ - 1) 0%nat),
          !(param_at _ _ _ (List.length _) 1%nat);
    try (simpl; lia); try (rewrite length_app; simpl; lia).
  simpl. now rewrite !andb_true_r.
Qed.

Lemma fits_text_list (params : list value) (l : list operand) :
  forallb (binds params (Some TText)) l = true.
Proof. apply forallb_forall. intros o _. apply binds_text. Qed.

Lemma fits_parental_rating (a : args) (b b' : builder) (t : bool) :
  fits b t -> add_parental_rating a b = Some b' -> fits b' t.
Proof.
  intros H. unfold add_parental_rating.
  destruct (parental_rating_filter_json a) as [[|x l]|]; intros E;
    inversion E; subst; [exact H|].
  rewrite <- (andb_true_r t). apply fits_push; [exact H|].
  intros extra. cbn [well_typed operand_type column_type].
  apply fits_text_list.
Qed.

Lemma duration_typed (category : string) (d : cond) (params : list value) :
  durationCondition category = Some d -> well_typed params d = true.
Proof.
  unfold durationCondition.
  destruct (category =? "short")%string;
    [|destruct (category =? "medium")%string;
      [|destruct (category =? "long")%string]];
    intros E; inversion E; reflexivity.
Qed.

Lemma fits_duration (a : args) (b : builder) (t : bool) :
  fits b t -> fits (add_duration a b) t.
Proof.
  intros H. unfold add_duration.
  destruct (negb (preferred_duration_category a =? "any")%string);
    [|exact H].
  destruct (durationCondition (preferred_duration_category a)) as [d|] eqn:E;
    [|exact H].
  intros extra. simpl. rewrite typed_where_snoc, H. simpl.
  rewrite (duration_typed _ _ _ E). apply andb_true_r.
Qed.

Lemma fits_uid_list (mk : operand -> list operand -> cond) (c : column)
  (xs : option (list string)) (b : builder) (t : bool) :
  column_type c = TText ->
  (mk = InList \/ mk = NotInList) ->
  fits b t -> fits (add_uid_list mk c xs b) t.
Proof.
  intros Hc Hm H. unfold add_uid_list.
  destruct xs as [[|x l]|]; try exact H.
  rewrite <- (andb_true_r t). apply fits_push; [exact H|].
  intros extra.
  destruct Hm as [-> | ->]; cbn [well_typed operand_type]; rewrite Hc;
    apply fits_text_list.
Qed.

(** The database accepts the conjuncts the builder assembles, under its
    parameters and whatever is pushed after them, exactly when the year
    bounds and the rating floor fit the columns they are compared
    with. *)
Lemma build_fits (a : args) (b : builder) :
  build a = Some b -> fits b (parameters_fit a).
Proof.
  intros E. destruct (build_steps a b E) as (b1 & E1 & E2).
  rewrite E2.
  apply fits_uid_list; [reflexivity|now right|].
  apply fits_uid_list; [reflexivity|now left|].
  apply fits_uid_list; [reflexivity|now right|].
  apply fits_uid_list; [reflexivity|now left|].
  apply fits_duration.
  eapply fits_parental_rating; [|exact E1].
  unfold parameters_fit.
  apply fits_min_rating.
  rewrite <- (andb_true_l (if truthy _ && truthy _ then _ else _)).
  apply fits_release_year, fits_content_type, fits_init.
Qed.

Lemma build_typed (a : args) (b : builder) (extra : list value) :
  build a = Some b ->
  typed_where (queryParams b ++ extra) (whereClauses b) = parameters_fit a.
Proof. intros E. now apply build_fits. Qed.

Lemma build_typed_own (a : args) (b : builder) :
  build a = Some b ->
  typed_where (queryParams b) (whereClauses b) = parameters_fit a.
Proof.
  intros E. rewrite <- (app_nil_r (queryParams b)) at 1.
  now apply build_typed.
Qed.

(* ------------------------------------------------------------------ *)
(** ** The order of [ORDER BY] *)

Section Lexicographic.
Variable T : Type.
Variables g1 g2 : T -> T -> bool.
Hypothesis g1_total : forall a b, g1 a b = true \/ g1 b a = true.
Hypothesis g2_total : forall a b, g2 a b = true \/ g2 b a = true.
Hypothesis g1_trans :
  forall a b c, g1 a b = true -> g1 b c = true -> g1 a c = true.
Hypothesis g2_trans :
  forall a b c, g2 a b = true -> g2 b c = true -> g2 a c = true.

Lemma lex_total (a b : T) :
  lex g1 g2 a b = true \/ lex g1 g2 b a = true.
Proof.
  unfold lex. destruct (g1_total a b) as [H|H]; rewrite H;
    destruct (g1 b a) eqn:H', (g1 a b) eqn:H''; try discriminate; auto.
Qed.

Lemma lex_trans (a b c : T) :
  lex g1 g2 a b = true -> lex g1 g2 b c = true -> lex g1 g2 a c = true.
Proof.
  unfold lex.
  destruct (g1 a b) eqn:Hab; [|discriminate].
  destruct (g1 b c) eqn:Hbc; [|intros _; discriminate].
  rewrite (g1_trans _ _ _ Hab Hbc).
  destruct (g1 c a) eqn:Hca; [|reflexivity].
  rewrite (g1_trans _ _ _ Hbc Hca), (g1_trans _ _ _ Hca Hab).
  apply g2_trans.
Qed.
End Lexicographic.

Section Descending.
Variable T : Type.
Variable ge : T -> T -> bool.
Hypothesis ge_total : forall a b, ge a b = true \/ ge b a = true.
Hypothesis ge_trans :
  forall a b c, ge a b = true -> ge b c = true -> ge a c = true.

Lemma desc_ge_total (a b : option T) :
  desc_ge ge a b = true \/ desc_ge ge b a = true.
Proof. destruct a, b; simpl; auto. Qed.

Lemma desc_ge_trans (a b c : option T) :
  desc_ge ge a b = true -> desc_ge ge b c = true -> desc_ge ge a c = true.
Proof.
  destruct a, b, c; simpl; try discriminate; auto. apply ge_trans.
Qed.
End Descending.

Lemma Zgeb_total (a b : Z) : (a >=? b) = true \/ (b >=? a) = true.
Proof. rewrite !Z.geb_leb, !Z.leb_le. lia. Qed.

Lemma Zgeb_trans (a b c : Z) :
  (a >=? b) = true -> (b >=? c) = true -> (a >=? c) = true.
Proof. rewrite !Z.geb_leb, !Z.leb_le. lia. Qed.

Lemma Qge_bool_total (a b : Q) : Qge_bool a b = true \/ Qge_bool b a = true.
Proof.
  unfold Qge_bool. rewrite !Qle_bool_iff.
  destruct (Qlt_le_dec a b) as [H|H]; [right; now apply Qlt_le_weak|now left].
Qed.

Lemma Qge_bool_trans (a b c : Q) :
  Qge_bool a b = true -> Qge_bool b c = true -> Qge_bool a c = true.
Proof.
  unfold Qge_bool. rewrite !Qle_bool_iff. intros H H'.
  now apply Qle_trans with b.
Qed.

Lemma order_ge_lex (a b : result_row) :
  order_ge a b = lex ge_audience ge_critic a b.
Proof. reflexivity. Qed.

Lemma order_ge_total (a b : result_row) :
  order_ge a b = true \/ order_ge b a = true.
Proof.
  rewrite !order_ge_lex. apply lex_total; intros x y.
  - apply desc_ge_total, Zgeb_total.
  - apply desc_ge_total, Qge_bool_total.
Qed.

Lemma order_ge_trans (a b c : result_row) :
  order_ge a b = true -> order_ge b c = true -> order_ge a c = true.
Proof.
  rewrite !order_ge_lex. apply lex_trans.
  - intros x y z. apply desc_ge_trans, Zgeb_trans.
  - intros x y z. apply desc_ge_trans, Qge_bool_trans.
Qed.

Lemma goes_before_ranked (tie : tie_rule) (x y : result_row) :
  goes_before tie x y = true -> ranked x y.
Proof.
  unfold goes_before, ranked. intros H. now apply andb_prop in H.
Qed.

Lemma not_goes_before_ranked (tie : tie_rule) (x y : result_row) :
  goes_before tie x y = false -> ranked y x.
Proof.
  unfold goes_before, ranked. intros H.
  destruct (order_ge x y) eqn:E.
  - destruct (order_ge y x); [reflexivity|discriminate].
  - destruct (order_ge_total x y) as [F|F]; [congruence|exact F].
Qed.

Lemma insert_desc_perm (tie : tie_rule) (x : result_row)
  (l : list result_row) :
  Permutation (insert_desc tie x l) (x :: l).
Proof.
  induction l as [|y l IH]; simpl; [apply Permutation_refl|].
  destruct (goes_before tie x y); [apply Permutation_refl|].
  apply perm_trans with (y :: x :: l); [now apply perm_skip|apply perm_swap].
Qed.

Lemma order_by_perm (tie : tie_rule) (l : list result_row) :
  Permutation (order_by tie l) l.
Proof.
  induction l as [|x l IH]; simpl; [constructor|].
  apply perm_trans with (x :: order_by tie l);
    [apply insert_desc_perm|now apply perm_skip].
Qed.

Lemma insert_desc_sorted (tie : tie_rule) (x : result_row)
  (l : list result_row) :
  Sorted ranked l -> Sorted ranked (insert_desc tie x l).
Proof.
  induction l as [|y l IH]; simpl; intros H.
  - repeat constructor.
  - destruct (goes_before tie x y) eqn:E.
    + constructor; [exact H|]. constructor.
      now apply goes_before_ranked with (tie := tie).
    + inversion H as [|? ? Hs Hh]; subst.
      constructor; [now apply IH|].
      pose proof (not_goes_before_ranked tie x y E) as Hyx.
      destruct l as [|z l]; simpl; [now constructor|].
      destruct (goes_before tie x z); constructor; [exact Hyx|].
      now inversion Hh.
Qed.

(** Whatever the database does with ties, what it returns is in the
    order of the [ORDER BY]. *)
Lemma order_by_sorted (tie : tie_rule) (l : list result_row) :
  StronglySorted ranked (order_by tie l).
Proof.
  apply Sorted_StronglySorted.
  - intros a b c. apply order_ge_trans.
  - induction l as [|x l IH]; simpl; [constructor|].
    now apply insert_desc_sorted.
Qed.

(** A list has one sorted arrangement when no two of its elements are
    tied. *)
Lemma sorted_arrangement_unique {A : Type} (R : A -> A -> Prop)
  (l1 l2 : list A) :
  (forall x y, In x l1 -> In y l1 -> R x y -> R y x -> x = y) ->
  Permutation l1 l2 -> StronglySorted R l1 -> StronglySorted R l2 ->
  l1 = l2.
Proof.
  revert l2. induction l1 as [|x t1 IH]; intros l2 Ha Hp H1 H2.
  - apply Permutation_nil in Hp. now subst.
  - destruct l2 as [|y t2];
      [apply Permutation_sym, Permutation_nil in Hp; discriminate|].
    inversion H1 as [|? ? S1 F1]; subst.
    inversion H2 as [|? ? S2 F2]; subst.
    assert (E : x = y).
    { assert (Hy : In y (x :: t1))
        by (apply (Permutation_in _ (Permutation_sym Hp)); now left).
      assert (Hx : In x (y :: t2))
        by (apply (Permutation_in _ Hp); now left).
      destruct Hy as [Hy|Hy]; [exact Hy|].
      destruct Hx as [Hx|Hx]; [now symmetry|].
      apply Ha; [now left|now right| |].
      - exact (proj1 (Forall_forall _ _) F1 y Hy).
      - exact (proj1 (Forall_forall _ _) F2 x Hx). }
    subst y. f_equal. apply IH; try assumption.
    + intros a b Hin Hin'. apply Ha; now right.
    + now apply Permutation_cons_inv with (a := x).
Qed.

(* ------------------------------------------------------------------ *)
(** ** Groups and distinct uids *)

Lemma group_by_uid_uids (rows : list jrow) :
  map result_uid (group_by_uid rows) = dedup String.eqb (map row_uid rows).
Proof.
  unfold group_by_uid. rewrite map_map.
  exact (dedup_map row_uid String.eqb rows).
Qed.

Lemma all_groups_perm (tie : tie_rule) (a : args) (s : Store.t) :
  Permutation (map result_uid (all_groups tie a s)) (matching_uids a s).
Proof.
  unfold all_groups, matching_uids. rewrite <- group_by_uid_uids.
  apply Permutation_map, order_by_perm.
Qed.

Lemma all_groups_length (tie : tie_rule) (a : args) (s : Store.t) :
  List.length (all_groups tie a s) = List.length (matching_uids a s).
Proof.
  rewrite <- (length_map result_uid).
  apply Permutation_length, all_groups_perm.
Qed.

Lemma all_groups_NoDup (tie : tie_rule) (a : args) (s : Store.t) :
  NoDup (map result_uid (all_groups tie a s)).
Proof.
  apply Permutation_NoDup with (l := matching_uids a s).
  - apply Permutation_sym, all_groups_perm.
  - apply dedup_string_NoDup.
Qed.

Lemma all_groups_In (tie : tie_rule) (a : args) (s : Store.t)
  (u : string) :
  In u (map result_uid (all_groups tie a s)) <-> In u (matching_uids a s).
Proof.
  split; apply Permutation_in;
    [|apply Permutation_sym]; apply all_groups_perm.
Qed.

(** Two executions return the same groups, possibly in another order. *)
Lemma all_groups_any_tie (tie tie' : tie_rule) (a : args) (s : Store.t) :
  Permutation (all_groups tie a s) (all_groups tie' a s).
Proof.
  unfold all_groups.
  apply perm_trans
    with (group_by_uid (filter (row_matches a) (from_clause s)));
    [apply order_by_perm|apply Permutation_sym, order_by_perm].
Qed.

(* ------------------------------------------------------------------ *)
(** ** What the handler does, step by step *)

Lemma build_total (a : args) : parses a -> exists b, build a = Some b.
Proof.
  unfold parses, build, add_parental_rating. intros H.
  destruct (parental_rating_filter_json a) as [[|x l]|]; eauto.
  congruence.
Qed.

Lemma build_fails (a : args) :
  parental_rating_filter_json a = JsonUnparsable -> build a = None.
Proof.
  unfold build, add_parental_rating. now intros ->.
Qed.

Lemma limit_offset_ok {A : Type} (pre : list value) (lim off : Z)
  (rows : list A) :
  0 <= lim <= int8_max -> 0 <= off <= int8_max ->
  limit_offset (pre ++ [VInt lim; VInt off])
    (List.length pre + 1) (List.length pre + 2) rows
  = Some (firstn (Z.to_nat lim) (skipn (Z.to_nat off) rows)).
Proof.
  intros Hl Ho. unfold limit_offset.
  rewrite (param_at pre [VInt lim; VInt off] [] _ 0%nat),
          (param_at pre [VInt lim; VInt off] [] _ 1%nat);
    try (simpl; lia).
  simpl. destruct (Z.ltb_spec lim 0); [lia|].
  destruct (Z.ltb_spec off 0); [lia|].
  destruct (Z.ltb_spec int8_max lim); [lia|].
  destruct (Z.ltb_spec int8_max off); [lia|]. reflexivity.
Qed.

Lemma limit_offset_refused {A : Type} (pre : list value) (lim off : Z)
  (rows : list A) :
  ~ (0 <= lim <= int8_max /\ 0 <= off <= int8_max) ->
  limit_offset (pre ++ [VInt lim; VInt off])
    (List.length pre + 1) (List.length pre + 2) rows = None.
Proof.
  intros H. unfold limit_offset.
  rewrite (param_at pre [VInt lim; VInt off] [] _ 0%nat),
          (param_at pre [VInt lim; VInt off] [] _ 1%nat);
    try (simpl; lia).
  simpl. destruct (Z.ltb_spec lim 0), (Z.ltb_spec off 0),
    (Z.ltb_spec int8_max lim), (Z.ltb_spec int8_max off);
    try reflexivity. exfalso. apply H. lia.
Qed.

(** The calls of the handler on a request that parses: the count call,
    and the page call when the database accepted the count call. *)
Lemma handler_calls (tie : tie_rule) (cy : Z) (s : Store.t) (rq : body)
  (b : builder) :
  build (destructure cy rq) = Some b ->
  calls_of (handler tie cy s rq)
  = (CountStatement (countQuery_text b), queryParams b)
    :: (if parameters_fit (destructure cy rq)
        then [ (PageStatement (query_text b),
                (queryParams b ++
                   [VInt (page_size (destructure cy rq));
                    VInt ((page (destructure cy rq) - 1)
                          * page_size (destructure cy rq))])%list) ]
        else []).
Proof.
  intros E. unfold handler. rewrite E. cbv zeta. unfold exec_count.
  rewrite (build_typed_own _ _ E).
  destruct (parameters_fit (destructure cy rq)); [|reflexivity].
  now destruct (exec_page _ _ _ _ _ _).
Qed.

Lemma handler_ok (tie : tie_rule) (cy : Z) (s : Store.t) (rq : body) :
  let a := destructure cy rq in
  parses a -> parameters_fit a = true -> paging_accepted a ->
  response_of (handler tie cy s rq)
  = Ok200 (page_slice (page a) (page_size a) (all_groups tie a s))
          (Z.of_nat (List.length (matching_uids a s)))
          (page a) (page_size a).
Proof.
  intros a Hp Hf [Hl Ho]. destruct (build_total a Hp) as [b E].
  unfold handler. fold a. rewrite E. cbv zeta.
  unfold exec_page, sorted_groups, exec_count.
  rewrite (build_typed_own a b E), (build_typed a b _ E), Hf.
  rewrite (build_where_rows a b _ s E), (build_where_rows_own a b s E).
  rewrite limit_offset_ok by assumption. reflexivity.
Qed.

(** A parameter the database refuses: the count call fails, the page
    call is not made, the answer is 500. *)
Lemma handler_unfit (tie : tie_rule) (cy : Z) (s : Store.t) (rq : body)
  (b : builder) :
  build (destructure cy rq) = Some b ->
  parameters_fit (destructure cy rq) = false ->
  handler tie cy s rq
  = ([(CountStatement (countQuery_text b), queryParams b)], Error500).
Proof.
  intros E Hf. unfold handler. rewrite E. cbv zeta. unfold exec_count.
  now rewrite (build_typed_own _ _ E), Hf.
Qed.

Lemma handler_db_error (tie : tie_rule) (cy : Z) (s : Store.t)
  (rq : body) :
  let a := destructure cy rq in
  parses a -> ~ paging_accepted a ->
  response_of (handler tie cy s rq) = Error500.
Proof.
  intros a Hp H. destruct (build_total a Hp) as [b E].
  unfold handler. fold a. rewrite E. cbv zeta.
  destruct (exec_count _ _ _); [|reflexivity].
  unfold exec_page. destruct (typed_where _ _); [|reflexivity].
  now rewrite limit_offset_refused.
Qed.

Lemma paging_accepted_dec (a : args) :
  paging_accepted a \/ ~ paging_accepted a.
Proof. unfold paging_accepted. lia. Qed.

(** What a 200 tells: the request parsed, the database took its
    parameters, limit and offset, and the response carries the page cut
    from the sorted groups of this execution and the number of matching
    ids. *)
Lemma handler_inv (tie : tie_rule) (cy : Z) (s : Store.t) (rq : body)
  (recs : list result_row) (t p ps : Z) :
  let a := destructure cy rq in
  response_of (handler tie cy s rq) = Ok200 recs t p ps ->
  parses a /\ parameters_fit a = true /\ paging_accepted a
  /\ recs = page_slice (page a) (page_size a) (all_groups tie a s)
  /\ t = Z.of_nat (List.length (matching_uids a s))
  /\ p = page a /\ ps = page_size a.
Proof.
  intros a H.
  assert (Hp : parses a).
  { intros F. unfold handler in H. fold a in H.
    now rewrite (build_fails _ F) in H. }
  destruct (build_total a Hp) as [b E].
  assert (Hf : parameters_fit a = true).
  { destruct (parameters_fit a) eqn:F; [reflexivity|].
    now rewrite (handler_unfit tie cy s rq b E F) in H. }
  assert (Ha : paging_accepted a).
  { destruct (paging_accepted_dec a) as [Ha|Ha]; [exact Ha|].
    now rewrite (handler_db_error tie cy s rq Hp Ha) in H. }
  rewrite (handler_ok tie cy s rq Hp Hf Ha) in H.
  injection H as <- <- <- <-. tauto.
Qed.

Lemma matching_uids_In (a : args) (s : Store.t) (u : string) :
  In u (matching_uids a s) <->
  exists r, In r (from_clause s) /\ row_matches a r = true /\ row_uid r = u.
Proof.
  unfold matching_uids. rewrite dedup_string_In, in_map_iff. split.
  - intros (r & Hu & Hr). apply filter_In in Hr. exists r. tauto.
  - intros (r & Hr & Hm & Hu). exists r. split; [exact Hu|].
    apply filter_In. tauto.
Qed.

Lemma ranked_spec (x y : result_row) :
  ranked x y <-> audience_desc_then_critic_desc x y.
Proof.
  unfold ranked, order_ge, audience_desc_then_critic_desc, critic_desc.
  destruct (rotten_tomatoes_score (row_content x)) as [p|],
           (rotten_tomatoes_score (row_content y)) as [q|];
    destruct (imdb_rating (row_content x)) as [u|],
             (imdb_rating (row_content y)) as [v|];
    cbn [desc_ge]; unfold Qge_bool;
    rewrite ?Z.geb_leb;
    repeat match goal with
           | |- context [Z.leb ?a ?b] => destruct (Z.leb_spec a b)
           end;
    rewrite ?Qle_bool_iff;
    intuition (try discriminate; try lia; auto).
Qed.

(* ------------------------------------------------------------------ *)
(** ** Slices *)

Lemma firstn_chunk {A : Type} (a b : nat) (l : list A) :
  (firstn a l ++ firstn b (skipn a l))%list = firstn (a + b) l.
Proof.
  revert l. induction a as [|a IH]; intros l; [reflexivity|].
  destruct l as [|x l]; simpl.
  - now rewrite firstn_nil.
  - now rewrite IH.
Qed.

Lemma concat_chunks {A : Type} (n m : nat) (l : list A) :
  List.concat (map (fun k => firstn n (skipn (k * n) l)) (seq 0 m))
  = firstn (m * n) l.
Proof.
  induction m as [|m IH]; [reflexivity|].
  rewrite seq_S, map_app, List.concat_app, IH. simpl.
  rewrite app_nil_r, firstn_chunk. f_equal. lia.
Qed.

Lemma page_count_covers (total ps : Z) :
  0 <= total -> 1 <= ps ->
  (Z.to_nat total <= page_count total ps * Z.to_nat ps)%nat.
Proof.
  intros Ht Hp. unfold page_count.
  pose proof (Z.div_mod (total + ps - 1) ps ltac:(lia)) as E.
  pose proof (Z.mod_pos_bound (total + ps - 1) ps ltac:(lia)) as B.
  assert (0 <= (total + ps - 1) / ps) by (apply Z.div_pos; lia).
  rewrite <- Z2Nat.inj_mul by lia. apply Z2Nat.inj_le; nia.
Qed.

Lemma Forall2_map_r {A B : Type} (P : A -> B -> Prop) (f : A -> B)
  (l : list A) :
  (forall x, In x l -> P x (f x)) -> Forall2 P l (map f l).
Proof.
  induction l as [|x l IH]; simpl; intros H; constructor; auto.
Qed.

Lemma pages_concat {A : Type} (ps : Z) (n : nat) (l : list A) :
  1 <= ps -> (List.length l <= n * Z.to_nat ps)%nat ->
  List.concat (map (fun p => page_slice (Z.of_nat p) ps l) (seq 1 n)) = l.
Proof.
  intros Hp Hn. rewrite <- seq_shift, map_map.
  rewrite <- (firstn_all2 l Hn), <- concat_chunks at 1.
  f_equal. apply map_ext. intros k. unfold page_slice.
  replace (Z.to_nat ((Z.of_nat (S k) - 1) * ps))
    with (k * Z.to_nat ps)%nat; [reflexivity|].
  rewrite Nat2Z.inj_succ, Z2Nat.inj_mul by lia.
  f_equal. lia.
Qed.

(* ------------------------------------------------------------------ *)
(** ** The joined relation, told from the tables *)

Lemma left_join_In {A B : Type} (on : A -> B -> bool) (l : list A)
  (r : list B) (a : A) (ob : option B) :
  In (a, ob) (left_join on l r) <->
  In a l /\ match ob with
            | Some b => In b r /\ on a b = true
            | None => forall b, In b r -> on a b = false
            end.
Proof.
  unfold left_join. rewrite in_flat_map. split.
  - intros (a' & Ha & H).
    destruct (filter (on a') r) as [|b0 m] eqn:F.
    + destruct H as [H|[]]. injection H as <- <-. split; [exact Ha|].
      intros b Hb. destruct (on a' b) eqn:E; [|reflexivity].
      assert (Hin : In b (filter (on a') r)) by (apply filter_In; tauto).
      rewrite F in Hin. contradiction.
    + apply in_map_iff in H. destruct H as (b & H & Hb).
      injection H as <- <-. split; [exact Ha|].
      rewrite <- F in Hb. now apply filter_In in Hb.
  - intros [Ha H]. exists a. split; [exact Ha|].
    destruct ob as [b|].
    + assert (Hin : In b (filter (on a) r)) by (apply filter_In; tauto).
      destruct (filter (on a) r) as [|b0 m]; [contradiction|].
      apply in_map_iff. now exists b.
    + destruct (filter (on a) r) as [|b0 m] eqn:F; [now left|].
      assert (Hin : In b0 (filter (on a) r)) by (rewrite F; now left).
      apply filter_In in Hin. destruct Hin as [Hb Ho].
      rewrite (H b0 Hb) in Ho. discriminate.
Qed.

Lemma eqb_neq_sym (x y : string) : (x =? y)%string = false <-> y <> x.
Proof.
  rewrite String.eqb_neq. split; intros H E; apply H; now symmetry.
Qed.

Lemma genre_side_joins (s : Store.t) (c : content)
  (ocg : option content_genre) (og : option genre) :
  genre_side s c ocg og <->
  match ocg with
  | Some cg =>
      In cg (tbl_content_genres s)
      /\ (uid c =? cg_content_uid cg)%string = true
  | None =>
      forall cg, In cg (tbl_content_genres s) ->
                 (uid c =? cg_content_uid cg)%string = false
  end
  /\ match og with
     | Some g => In g (tbl_genres s) /\ on_opt cg_genre_uid g_uid ocg g = true
     | None =>
         forall g, In g (tbl_genres s) ->
                   on_opt cg_genre_uid g_uid ocg g = false
     end.
Proof.
  unfold genre_side, on_opt. destruct ocg as [cg|], og as [g|];
    rewrite ?String.eqb_eq; split.
  - intros (H1 & H2 & H3 & H4). now rewrite H2, H4.
  - intros ((H1 & H2) & H3 & H4). now rewrite H2, H4.
  - intros (H1 & H2 & H3). rewrite H2. repeat split; auto.
    intros g Hg. apply eqb_neq_sym. now apply H3.
  - intros ((H1 & H2) & H3). rewrite H2. repeat split; auto.
    intros g Hg. apply eqb_neq_sym. now apply H3.
  - intros [H _]. discriminate.
  - intros [_ [_ H]]. discriminate.
  - intros [_ H]. split; [|reflexivity].
    intros cg Hcg. apply eqb_neq_sym. now apply H.
  - intros [H _]. split; [reflexivity|].
    intros cg Hcg. apply eqb_neq_sym. now apply H.
Qed.

Lemma service_side_joins (s : Store.t) (c : content)
  (ocsa : option availability) (oss : option streaming_service) :
  service_side s c ocsa oss <->
  match ocsa with
  | Some av =>
      In av (tbl_availability s)
      /\ (uid c =? csa_content_uid av)%string = true
  | None =>
      forall av, In av (tbl_availability s) ->
                 (uid c =? csa_content_uid av)%string = false
  end
  /\ match oss with
     | Some sv =>
         In sv (tbl_streaming_services s)
         /\ on_opt csa_service_uid ss_uid ocsa sv = true
     | None =>
         forall sv, In sv (tbl_streaming_services s) ->
                    on_opt csa_service_uid ss_uid ocsa sv = false
     end.
Proof.
  unfold service_side, on_opt. destruct ocsa as [av|], oss as [sv|];
    rewrite ?String.eqb_eq; split.
  - intros (H1 & H2 & H3 & H4). now rewrite H2, H4.
  - intros ((H1 & H2) & H3 & H4). now rewrite H2, H4.
  - intros (H1 & H2 & H3). rewrite H2. repeat split; auto.
    intros sv Hsv. apply eqb_neq_sym. now apply H3.
  - intros ((H1 & H2) & H3). rewrite H2. repeat split; auto.
    intros sv Hsv. apply eqb_neq_sym. now apply H3.
  - intros [H _]. discriminate.
  - intros [_ [_ H]]. discriminate.
  - intros [_ H]. split; [|reflexivity].
    intros av Hav. apply eqb_neq_sym. now apply H.
  - intros [H _]. split; [reflexivity|].
    intros av Hav. apply eqb_neq_sym. now apply H.
Qed.

(** The rows of the [FROM] clause are the joined rows of the tables. *)
Lemma from_clause_joined (s : Store.t) (r : jrow) :
  In r (from_clause s) <-> joined s r.
Proof.
  unfold from_clause, joined. rewrite in_map_iff.
  rewrite genre_side_joins, service_side_joins. split.
  - intros (x & <- & H). destruct x as [[[[c cg] g] csa] sv].
    apply left_join_In in H. destruct H as [H H4].
    apply left_join_In in H. destruct H as [H H3].
    apply left_join_In in H. destruct H as [H H2].
    apply left_join_In in H. destruct H as [H0 H1].
    cbn [j_c j_cg j_g j_csa j_ss fst snd] in *. tauto.
  - intros (H0 & (H1 & H2) & H3 & H4).
    exists (j_c r, j_cg r, j_g r, j_csa r, j_ss r).
    split; [now destruct r|].
    apply left_join_In. split; [|exact H4].
    apply left_join_In. split; [|exact H3].
    apply left_join_In. split; [|exact H2].
    apply left_join_In. split; [exact H0|exact H1].
Qed.

Lemma matching_uids_matches (a : args) (s : Store.t) (u : string) :
  In u (matching_uids a s) <-> matches a s u.
Proof.
  rewrite matching_uids_In. unfold matches. split.
  - intros (r & Hr & Hm & Hu). exists r.
    apply from_clause_joined in Hr. tauto.
  - intros (r & Hr & Hu & Hm). exists r.
    apply from_clause_joined in Hr. tauto.
Qed.

Lemma matching_uids_counts (a : args) (s : Store.t) :
  counts (matches a s) (List.length (matching_uids a s)).
Proof.
  exists (matching_uids a s). split; [apply dedup_string_NoDup|].
  split; [apply matching_uids_matches|reflexivity].
Qed.

(** A property has one number of distinct ids. *)
Lemma counts_unique (P : string -> Prop) (n m : nat) :
  counts P n -> counts P m -> n = m.
Proof.
  intros (l & Nl & Hl & <-) (l' & Nl' & Hl' & <-).
  apply Permutation_length, NoDup_Permutation; try assumption.
  intros u. now rewrite Hl, Hl'.
Qed.

(* ------------------------------------------------------------------ *)
(** ** Rows of a response come from matching joined rows *)

Lemma In_map_NoDup {A B : Type} (f : A -> B) (l : list A) (a b : A) :
  NoDup (map f l) -> In a l -> In b l -> f a = f b -> a = b.
Proof.
  induction l as [|x l IH]; simpl; [tauto|].
  intros N Ha Hb E. inversion N as [|? ? Hn N']; subst.
  destruct Ha as [->|Ha], Hb as [->|Hb]; auto.
  - exfalso. apply Hn. rewrite E. now apply in_map.
  - exfalso. apply Hn. rewrite <- E. now apply in_map.
Qed.

Lemma group_by_uid_row (rows : list jrow) (x : result_row) :
  In x (group_by_uid rows) -> exists r, In r rows /\ row_content x = j_c r.
Proof.
  unfold group_by_uid. intros H. apply in_map_iff in H.
  destruct H as (r & <- & Hr). exists r. split; [|reflexivity].
  now apply dedup_incl in Hr.
Qed.

Lemma all_groups_row (tie : tie_rule) (a : args) (s : Store.t)
  (x : result_row) :
  In x (all_groups tie a s) ->
  exists r, In r (from_clause s) /\ row_matches a r = true
            /\ row_content x = j_c r.
Proof.
  unfold all_groups. intros H.
  apply (Permutation_in _ (order_by_perm _ _)) in H.
  apply group_by_uid_row in H. destruct H as (r & Hr & E).
  apply filter_In in Hr. exists r. tauto.
Qed.

Lemma page_slice_incl {A : Type} (p ps : Z) (l : list A) :
  incl (page_slice p ps l) l.
Proof.
  unfold page_slice. intros x Hx.
  rewrite <- (firstn_skipn (Z.to_nat ((p - 1) * ps)) l).
  apply in_or_app. right.
  rewrite <- (firstn_skipn (Z.to_nat ps)
                (skipn (Z.to_nat ((p - 1) * ps)) l)).
  apply in_or_app. now left.
Qed.

Lemma handler_rows (tie : tie_rule) (cy : Z) (s : Store.t) (rq : body)
  (recs : list result_row) (t p ps : Z) :
  response_of (handler tie cy s rq) = Ok200 recs t p ps ->
  incl recs (all_groups tie (destructure cy rq) s).
Proof.
  intros H. apply handler_inv in H.
  destruct H as (_ & _ & _ & -> & _). apply page_slice_incl.
Qed.

(** The first page holds the whole result when the page size is at least
    the number of matching ids; the groups are those of any execution,
    in the order of this one. *)
Lemma page_slice_all {A : Type} (ps : Z) (l : list A) :
  (List.length l <= Z.to_nat ps)%nat -> page_slice 1 ps l = l.
Proof.
  intros H. unfold page_slice. simpl. now apply firstn_all2.
Qed.

Lemma first_page_holds_all (tie : tie_rule) (cy : Z) (s : Store.t)
  (rq : body) :
  let a := destructure cy rq in
  parses a -> parameters_fit a = true -> paging_accepted a ->
  page a = 1 ->
  (List.length (matching_uids a s) <= Z.to_nat (page_size a))%nat ->
  exists recs,
    response_of (handler tie cy s rq)
    = Ok200 recs (Z.of_nat (List.length (matching_uids a s)))
        1 (page_size a)
    /\ Permutation recs (all_groups table_order a s).
Proof.
  intros a Hp Hf Ha H1 Hn.
  exists (all_groups tie a s). split; [|apply all_groups_any_tie].
  rewrite (handler_ok tie cy s rq Hp Hf Ha). fold a. rewrite H1.
  rewrite page_slice_all; [reflexivity|].
  now rewrite all_groups_length.
Qed.

(* ------------------------------------------------------------------ *)
(** ** The order of the groups, in words *)

Lemma all_groups_sorted (tie : tie_rule) (a : args) (s : Store.t) :
  StronglySorted audience_desc_then_critic_desc (all_groups tie a s).
Proof.
  pose proof (order_by_sorted tie
    (group_by_uid (filter (row_matches a) (from_clause s)))) as H.
  unfold all_groups. induction H as [|x l Hs IH Hf]; constructor.
  - exact IH.
  - eapply Forall_impl; [|exact Hf]. intros y. apply ranked_spec.
Qed.

Lemma tied_same_ratings (x y : result_row) :
  audience_desc_then_critic_desc x y ->
  audience_desc_then_critic_desc y x ->
  same_ratings (row_content x) (row_content y).
Proof.
  unfold audience_desc_then_critic_desc, critic_desc, same_ratings.
  destruct (rotten_tomatoes_score (row_content x)) as [p|],
           (rotten_tomatoes_score (row_content y)) as [q|];
    destruct (imdb_rating (row_content x)) as [u|],
             (imdb_rating (row_content y)) as [v|];
    intros H H'; try contradiction;
    try (destruct H as [H|[E H]], H' as [H'|[E' H']]; try lia;
         try contradiction; subst);
    (split; [reflexivity|]); try exact I; now apply Qle_antisym.
Qed.

Lemma same_ratings_b_spec (c c' : content) :
  same_ratings c c' -> same_ratings_b c c' = true.
Proof.
  unfold same_ratings, same_ratings_b. intros [E H]. rewrite E.
  destruct (rotten_tomatoes_score c') as [z|]; simpl;
    rewrite ?Z.eqb_refl;
    destruct (imdb_rating c) as [q|], (imdb_rating c') as [q'|];
    simpl; try contradiction; try reflexivity;
    now apply Qeq_bool_iff.
Qed.

Lemma no_rating_ties_check (a : args) (s : Store.t) :
  no_rating_ties_b a s = true -> no_rating_ties a s.
Proof.
  unfold no_rating_ties_b. intros H r r' Hr Hr' Hm Hm' Hs.
  apply from_clause_joined in Hr, Hr'.
  rewrite forallb_forall in H. specialize (H r Hr).
  rewrite forallb_forall in H. specialize (H r' Hr').
  rewrite Hm, Hm', (same_ratings_b_spec _ _ Hs) in H. simpl in H.
  now apply String.eqb_eq.
Qed.

(** Without ties among the matching items no two groups are tied. *)
Lemma groups_not_tied (tie : tie_rule) (a : args) (s : Store.t)
  (x y : result_row) :
  no_rating_ties a s ->
  In x (all_groups tie a s) -> In y (all_groups tie a s) ->
  audience_desc_then_critic_desc x y ->
  audience_desc_then_critic_desc y x -> x = y.
Proof.
  intros Hn Hx Hy Hxy Hyx.
  apply (In_map_NoDup result_uid (all_groups tie a s));
    [apply all_groups_NoDup|exact Hx|exact Hy|].
  destruct (all_groups_row tie a s x Hx) as (r & Hr & Hm & Ex).
  destruct (all_groups_row tie a s y Hy) as (r' & Hr' & Hm' & Ey).
  unfold result_uid. rewrite Ex, Ey.
  apply from_clause_joined in Hr, Hr'.
  apply (Hn r r' Hr Hr' Hm Hm'). rewrite <- Ex, <- Ey.
  now apply tied_same_ratings.
Qed.

(** Without ties every execution returns the groups in the same order. *)
Lemma all_groups_unique (tie tie' : tie_rule) (a : args) (s : Store.t) :
  no_rating_ties a s -> all_groups tie a s = all_groups tie' a s.
Proof.
  intros Hn.
  apply (sorted_arrangement_unique audience_desc_then_critic_desc).
  - intros x y. now apply groups_not_tied.
  - apply all_groups_any_tie.
  - apply all_groups_sorted.
  - apply all_groups_sorted.
Qed.

(* ------------------------------------------------------------------ *)
(** ** Every sorted arrangement is the result of some execution *)

Lemma position_nth (l : list string) (i : nat) (d : string) :
  NoDup l -> (i < List.length l)%nat -> position (nth i l d) l = i.
Proof.
  revert i. induction l as [|v t IH]; intros i N Hi; [simpl in Hi; lia|].
  inversion N as [|? ? Hv N']; subst. destruct i as [|i]; simpl.
  - now rewrite String.eqb_refl.
  - destruct (String.eqb_spec (nth i t d) v) as [E|_].
    + exfalso. apply Hv. rewrite <- E. apply nth_In. simpl in Hi. lia.
    + f_equal. apply IH; [exact N'|simpl in Hi; lia].
Qed.

Lemma place_nth (L : list result_row) (i : nat) (d : result_row) :
  NoDup (map result_uid L) -> (i < List.length L)%nat ->
  place L (nth i L d) = i.
Proof.
  intros N Hi. unfold place.
  change (fun y => uid (row_content y)) with result_uid.
  change (uid (row_content (nth i L d))) with (result_uid (nth i L d)).
  rewrite <- (map_nth result_uid). apply position_nth; [exact N|].
  now rewrite length_map.
Qed.

Lemma sorted_under {A : Type} (R R' : A -> A -> Prop) (l : list A) :
  (forall x y, R x y -> R' x y) ->
  StronglySorted R l -> StronglySorted R' l.
Proof.
  intros H S. induction S as [|x l Hs IH Hf]; constructor; [exact IH|].
  eapply Forall_impl; [|exact Hf]. intros y. apply H.
Qed.

Lemma sorted_nth {A : Type} (R : A -> A -> Prop) (l : list A) (d : A)
  (i j : nat) :
  StronglySorted R l -> (i < j)%nat -> (j < List.length l)%nat ->
  R (nth i l d) (nth j l d).
Proof.
  intros H. revert i j. induction H as [|x l Hs IH Hf]; intros i j Hij Hj;
    [simpl in Hj; lia|].
  destruct j as [|j]; [lia|]. simpl in Hj. destruct i as [|i]; simpl.
  - apply (proj1 (Forall_forall _ _) Hf). apply nth_In. lia.
  - apply IH; lia.
Qed.

Section Toward.
Variable L : list result_row.
Hypothesis L_distinct : NoDup (map result_uid L).
Hypothesis L_sorted : StronglySorted ranked L.

Lemma goes_before_place (x y : result_row) :
  In x L -> In y L ->
  goes_before (tie_toward L) x y = (place L x <? place L y)%nat.
Proof.
  intros Hx Hy.
  destruct (In_nth L x x Hx) as (i & Hi & Ex).
  destruct (In_nth L y x Hy) as (j & Hj & Ey).
  pose proof (place_nth L i x L_distinct Hi) as Pi.
  pose proof (place_nth L j x L_distinct Hj) as Pj.
  rewrite Ex in Pi. rewrite Ey in Pj.
  unfold goes_before, tie_toward. rewrite Pi, Pj.
  destruct (Nat.ltb_spec i j) as [Hlt|Hge].
  - pose proof (sorted_nth ranked L x i j L_sorted Hlt Hj) as R.
    rewrite Ex, Ey in R.
    unfold ranked in R. rewrite R. now rewrite orb_true_r.
  - rewrite orb_false_r.
    destruct (Nat.eq_dec i j) as [->|Hne].
    + assert (E : y = x) by congruence. rewrite E.
      now destruct (order_ge x x).
    + pose proof (sorted_nth ranked L x j i L_sorted ltac:(lia) Hi) as R.
      rewrite Ex, Ey in R.
      unfold ranked in R. rewrite R. apply andb_false_r.
Qed.

Lemma insert_toward_sorted (x : result_row) (t : list result_row) :
  In x L -> incl t L ->
  Sorted (fun u v => (place L u <= place L v)%nat) t ->
  Sorted (fun u v => (place L u <= place L v)%nat)
    (insert_desc (tie_toward L) x t).
Proof.
  intros Hx. induction t as [|y t IH]; simpl; intros Ht H.
  - repeat constructor.
  - assert (Hy : In y L) by (apply Ht; now left).
    rewrite (goes_before_place x y Hx Hy).
    destruct (Nat.ltb_spec (place L x) (place L y)) as [Hlt|Hge].
    + constructor; [exact H|]. constructor. lia.
    + inversion H as [|? ? Hs Hh]; subst.
      constructor; [apply IH; [intros z Hz; apply Ht; now right|exact Hs]|].
      destruct t as [|z t]; simpl; [now constructor|].
      destruct (goes_before (tie_toward L) x z); constructor;
        [exact Hge|now inversion Hh].
Qed.

Lemma order_toward_sorted (l : list result_row) :
  incl l L ->
  StronglySorted (fun u v => (place L u <= place L v)%nat)
    (order_by (tie_toward L) l).
Proof.
  intros Hl. apply Sorted_StronglySorted; [intros u v w; lia|].
  induction l as [|x l IH]; simpl; [constructor|].
  apply insert_toward_sorted.
  - apply Hl. now left.
  - intros z Hz. apply (Permutation_in _ (order_by_perm _ _)) in Hz.
    apply Hl. now right.
  - apply IH. intros z Hz. apply Hl. now right.
Qed.

Lemma place_sorted_self (pre suf : list result_row) :
  L = (pre ++ suf)%list ->
  StronglySorted (fun u v => (place L u <= place L v)%nat) suf.
Proof.
  revert pre. induction suf as [|x t IH]; intros pre E; constructor.
  - apply (IH (pre ++ [x])%list). now rewrite <- app_assoc.
  - apply Forall_forall. intros y Hy.
    destruct (In_nth t y x Hy) as (j & Hj & Ey).
    assert (Px : place L x = List.length pre).
    { rewrite <- (place_nth L (List.length pre) x L_distinct).
      - now rewrite E, nth_middle.
      - rewrite E, length_app. simpl. lia. }
    assert (Py : place L y = (List.length pre + S j)%nat).
    { rewrite <- (place_nth L (List.length pre + S j) x L_distinct).
      - rewrite E, app_nth2_plus. simpl. now rewrite Ey.
      - rewrite E, length_app. simpl. lia. }
    lia.
Qed.

(** Whatever sorted arrangement of the rows is aimed at, the choice
    [tie_toward] makes the sort return it. *)
Lemma order_toward (l : list result_row) :
  Permutation l L -> order_by (tie_toward L) l = L.
Proof.
  intros P.
  apply (sorted_arrangement_unique
           (fun u v => (place L u <= place L v)%nat)).
  - intros x y Hx Hy H1 H2.
    assert (Hx' : In x L).
    { apply (Permutation_in _ P).
      exact (Permutation_in _ (order_by_perm _ _) Hx). }
    assert (Hy' : In y L).
    { apply (Permutation_in _ P).
      exact (Permutation_in _ (order_by_perm _ _) Hy). }
    destruct (In_nth L x x Hx') as (i & Hi & Ex).
    destruct (In_nth L y x Hy') as (j & Hj & Ey).
    pose proof (place_nth L i x L_distinct Hi) as Pi.
    pose proof (place_nth L j x L_distinct Hj) as Pj.
    rewrite Ex in Pi. rewrite Ey in Pj.
    assert (i = j) by lia. congruence.
  - apply perm_trans with l; [apply order_by_perm|exact P].
  - apply order_toward_sorted. intros z Hz.
    exact (Permutation_in _ P Hz).
  - now apply (place_sorted_self []).
Qed.
End Toward.

(** The executions are as free as the statement leaves them: every
    arrangement of the groups that is sorted by the two ratings is what
    some execution returns. *)
Lemma any_sorted_arrangement_is_an_execution (a : args) (s : Store.t)
  (L : list result_row) :
  Permutation L (all_groups table_order a s) ->
  StronglySorted audience_desc_then_critic_desc L ->
  exists tie, all_groups tie a s = L.
Proof.
  intros P S. exists (tie_toward L). unfold all_groups.
  apply order_toward.
  - apply (Permutation_NoDup (l := map result_uid (all_groups table_order a s)));
      [apply Permutation_map, Permutation_sym, P|apply all_groups_NoDup].
  - apply (sorted_under audience_desc_then_critic_desc); [|exact S].
    intros x y. apply ranked_spec.
  - apply perm_trans with (all_groups table_order a s);
      [apply Permutation_sym, order_by_perm|apply Permutation_sym, P].
Qed.

Lemma all_groups_content (tie : tie_rule) (a : args) (s : Store.t)
  (x : result_row) :
  In x (all_groups tie a s) -> In (row_content x) (tbl_content s).
Proof.
  intros H. destruct (all_groups_row tie a s x H) as (r & Hr & _ & ->).
  apply from_clause_joined in Hr. apply Hr.
Qed.

Lemma all_groups_matches (tie : tie_rule) (a : args) (s : Store.t)
  (u : string) :
  In u (map result_uid (all_groups tie a s)) <-> matches a s u.
Proof. now rewrite all_groups_In, matching_uids_matches. Qed.

(* ------------------------------------------------------------------ *)
(** ** Count and page agree *)




(** C10.  Two requests that differ only in [page] and [page_size] send
    the same count call, text and parameters, whatever the order of
    tied rows in either execution; whenever both are answered with a
    [total_results], it is the same number for both, the number of
    matching content ids; and both are answered with one when the
    request parses and the database accepts its parameters and the
    pagination of both. *)
Theorem total_results_ignores_paging (tie tie' : tie_rule) (cy : Z)
  (s : Store.t) (rq : body) (p ps p' ps' : option Z) :
  let r1 := with_paging rq p ps in
  let r2 := with_paging rq p' ps' in
  hd_error (calls_of (handler tie cy s r1))
  = hd_error (calls_of (handler tie' cy s r2))
  /\ (forall t1 t2,
        total_results_of (response_of (handler tie cy s r1)) = Some t1 ->
        total_results_of (response_of (handler tie' cy s r2)) = Some t2 ->
        t1 = t2
        /\ exists n, t1 = Z.of_nat n
                     /\ counts (matches (destructure cy rq) s) n)
  /\ (parses (destructure cy rq) ->
      parameters_fit (destructure cy rq) = true ->
      paging_accepted (destructure cy r1) ->
      paging_accepted (destructure cy r2) ->
      exists n,
        total_results_of (response_of (handler tie cy s r1))
        = Some (Z.of_nat n)
        /\ total_results_of (response_of (handler tie' cy s r2))
           = Some (Z.of_nat n)).
Proof.
  intros r1 r2.
  assert (H3 : parses (destructure cy rq) ->
               parameters_fit (destructure cy rq) = true ->
               paging_accepted (destructure cy r1) ->
               paging_accepted (destructure cy r2) ->
               total_results_of (response_of (handler tie cy s r1))
               = Some (Z.of_nat
                         (List.length (matching_uids (destructure cy rq) s)))
               /\ total_results_of (response_of (handler tie' cy s r2))
                  = Some (Z.of_nat
                            (List.length
                               (matching_uids (destructure cy rq) s)))).
  { intros Hp Hf H1 H2.
    rewrite (handler_ok tie cy s r1 Hp Hf H1),
            (handler_ok tie' cy s r2 Hp Hf H2). now split. }
  split; [|split].
  - destruct (build (destructure cy rq)) as [b|] eqn:E.
    + rewrite (handler_calls tie cy s r1 b), (handler_calls tie' cy s r2 b);
        [reflexivity|exact E|exact E].
    + unfold handler.
      change (build (destructure cy r1)) with (build (destructure cy rq)).
      change (build (destructure cy r2)) with (build (destructure cy rq)).
      now rewrite E.
  - intros t1 t2 E1 E2.
    destruct (response_of (handler tie cy s r1)) as [c1 u1 q1 z1|] eqn:R1;
      [|discriminate].
    destruct (response_of (handler tie' cy s r2)) as [c2 u2 q2 z2|] eqn:R2;
      [|discriminate].
    injection E1 as ->. injection E2 as ->.
    destruct (handler_inv tie cy s r1 _ _ _ _ R1)
      as (Hp & Hf & H1 & _ & -> & _).
    destruct (handler_inv tie' cy s r2 _ _ _ _ R2)
      as (_ & _ & H2 & _ & -> & _).
    split; [reflexivity|].
    exists (List.length (matching_uids (destructure cy rq) s)).
    split; [reflexivity|apply matching_uids_counts].
  - intros Hp Hf H1 H2. destruct (H3 Hp Hf H1 H2) as [E1 E2]. eauto.
Qed.

Lemma total_results_ignores_paging_witness :
  let r1 := with_paging exclude_horror (Some 1) (Some 1) in
  let r2 := with_paging exclude_horror (Some 7) (Some 50) in
  (total_results_of (response_of (handler table_order 2026 sample_store r1))
   = Some 2
   /\ total_results_of
        (response_of (handler reverse_order 2026 sample_store r2))
      = Some 2)
  /\ hd_error (calls_of (handler table_order 2026 sample_store r1))
     = hd_error (calls_of (handler reverse_order 2026 sample_store r2))
  /\ (forall t1 t2,
        total_results_of
          (response_of (handler table_order 2026 sample_store r1))
        = Some t1 ->
        total_results_of
          (response_of (handler reverse_order 2026 sample_store r2))
        = Some t2 ->
        t1 = t2
        /\ exists n,
             t1 = Z.of_nat n
             /\ counts (matches (destructure 2026 exclude_horror)
                          sample_store) n)
  /\ (parses (destructure 2026 exclude_horror) ->
      parameters_fit (destructure 2026 exclude_horror) = true ->
      paging_accepted (destructure 2026 r1) ->
      paging_accepted (destructure 2026 r2) ->
      exists n,
        total_results_of
          (response_of (handler table_order 2026 sample_store r1))
        = Some (Z.of_nat n)
        /\ total_results_of
             (response_of (handler reverse_order 2026 sample_store r2))
           = Some (Z.of_nat n)).
Proof.
  split; [split; reflexivity|].
  apply (total_results_ignores_paging table_order reverse_order 2026
           sample_store exclude_horror (Some 1) (Some 1) (Some 7) (Some 50)).
Defined.

(* ------------------------------------------------------------------ *)
(** ** Order and pages *)

(** The claim "ties are broken by a deterministic stable order" fails:
    the statement names no order for rows with equal ratings.  [m1] and
    [m2] have the same two ratings; the first page of size 2 of the
    request without filters is [s1; m1] in one execution and [s1; m2]
    in another, both in the order of the [ORDER BY]. *)
Lemma tied_items_have_no_fixed_order :
  same_ratings (mk_content "m1" "movie" (Some 2020) (Some 45) None
                  (Some (88 # 10)) (Some 90) (Some "PG"))
               (mk_content "m2" "movie" (Some 2010) (Some 90) None
                  (Some (88 # 10)) (Some 90) (Some "R"))
  /\ uids_of (response_of
                (handler table_order 2026 sample_store
                   (with_paging empty_body (Some 1) (Some 2))))
     = Some ["s1"; "m1"]
  /\ uids_of (response_of
                (handler reverse_order 2026 sample_store
                   (with_paging empty_body (Some 1) (Some 2))))
     = Some ["s1"; "m2"].
Proof.
  split; [split; [reflexivity|simpl; reflexivity]|].
  split; reflexivity.
Qed.

(** C4 (amended).  Whenever the handler answers with a 200, the page
    returned is the slice at offset [(page - 1) * page_size], of length
    at most [page_size] (page 1 and 20 when the request does not say),
    of a sequence that holds each matching content item once and is
    sorted by audience rating ([rotten_tomatoes_score]) descending, then
    critic rating ([imdb_rating]) descending, a missing rating standing
    first.  The order of items with the same two ratings is left to the
    database and may differ from one execution to the next; when no two
    matching items have the same ratings, the sequence is the only
    sorted arrangement of the matching items.  A 200 is the answer to
    every request that parses and whose parameters, limit and offset
    the database accepts. *)
Theorem page_is_slice_of_sorted_groups (tie : tie_rule) (cy : Z)
  (s : Store.t) (rq : body) :
  let a := destructure cy rq in
  (forall recs t p ps,
      response_of (handler tie cy s rq) = Ok200 recs t p ps ->
      exists L,
        recs = firstn (Z.to_nat (requested_page_size rq))
                 (skipn (Z.to_nat ((requested_page rq - 1)
                                   * requested_page_size rq)) L)
        /\ (List.length recs <= Z.to_nat (requested_page_size rq))%nat
        /\ StronglySorted audience_desc_then_critic_desc L
        /\ NoDup (map result_uid L)
        /\ (forall u, In u (map result_uid L) <-> matches a s u)
        /\ (forall x, In x L -> In (row_content x) (tbl_content s))
        /\ (no_rating_ties a s ->
            forall L', Permutation L L' ->
                       StronglySorted audience_desc_then_critic_desc L' ->
                       L' = L))
  /\ (parses a -> parameters_fit a = true -> paging_accepted a ->
      exists recs,
        recommendations_of (response_of (handler tie cy s rq)) = Some recs).
Proof.
  intros a. split.
  - intros recs t p ps H.
    destruct (handler_inv tie cy s rq recs t p ps H)
      as (_ & _ & _ & -> & _).
    exists (all_groups tie a s).
    split; [reflexivity|]. split; [apply firstn_le_length|].
    split; [apply all_groups_sorted|].
    split; [apply all_groups_NoDup|].
    split; [apply all_groups_matches|].
    split; [apply all_groups_content|].
    intros Hn L' HP HS. symmetry.
    apply (sorted_arrangement_unique audience_desc_then_critic_desc);
      try assumption; [|apply all_groups_sorted].
    intros x y. now apply groups_not_tied.
  - intros Hp Hf Ha. eexists.
    now rewrite (handler_ok tie cy s rq Hp Hf Ha).
Qed.

Lemma page_is_slice_of_sorted_groups_witness :
  let rq := with_paging empty_body (Some 2) (Some 2) in
  let a := destructure 2026 rq in
  uids_of (response_of (handler table_order 2026 sample_store rq))
  = Some ["m2"]
  /\ (forall recs t p ps,
        response_of (handler table_order 2026 sample_store rq)
        = Ok200 recs t p ps ->
        exists L,
          recs = firstn (Z.to_nat 2) (skipn (Z.to_nat ((2 - 1) * 2)) L)
          /\ (List.length recs <= Z.to_nat 2)%nat
          /\ StronglySorted audience_desc_then_critic_desc L
          /\ NoDup (map result_uid L)
          /\ (forall u, In u (map result_uid L)
                        <-> matches a sample_store u)
          /\ (forall x, In x L ->
                In (row_content x) (tbl_content sample_store))
          /\ (no_rating_ties a sample_store ->
              forall L', Permutation L L' ->
                         StronglySorted audience_desc_then_critic_desc L' ->
                         L' = L))
  /\ (parses a -> parameters_fit a = true -> paging_accepted a ->
      exists recs,
        recommendations_of
          (response_of (handler table_order 2026 sample_store rq))
        = Some recs).
Proof.
  split; [reflexivity|].
  apply (page_is_slice_of_sorted_groups table_order 2026 sample_store
           (with_paging empty_body (Some 2) (Some 2))).
Defined.

(** The claim "no id is duplicated across pages and none is omitted"
    fails for items with equal ratings: the request that excludes a
    genre no item has matches [m1] and [m2], which are tied; with a page
    size of 1 there are two pages, and when the database orders the tie
    one way for the first page and the other way for the second, [m1]
    is on both pages and [m2] on none. *)
Lemma tied_item_on_two_pages :
  total_results_of
    (response_of (handler table_order 2026 sample_store
                    (with_paging exclude_western (Some 1) (Some 1))))
  = Some 2
  /\ page_count 2 1 = 2%nat
  /\ uids_of (response_of
                (handler table_order 2026 sample_store
                   (with_paging exclude_western (Some 1) (Some 1))))
     = Some ["m1"]
  /\ uids_of (response_of
                (handler reverse_order 2026 sample_store
                   (with_paging exclude_western (Some 2) (Some 1))))
     = Some ["m1"].
Proof. repeat split; reflexivity. Qed.

Lemma page_offset_bound (n : nat) (ps : Z) (p : nat) :
  1 <= ps -> (1 <= p)%nat -> (p < 1 + page_count (Z.of_nat n) ps)%nat ->
  0 <= (Z.of_nat p - 1) * ps <= Z.of_nat n.
Proof.
  intros Hps H1 H2. unfold page_count in H2.
  pose proof (Z.div_mod (Z.of_nat n + ps - 1) ps ltac:(lia)) as E.
  pose proof (Z.mod_pos_bound (Z.of_nat n + ps - 1) ps ltac:(lia)) as B.
  assert (0 <= (Z.of_nat n + ps - 1) / ps) by (apply Z.div_pos; lia).
  assert (Z.of_nat p <= (Z.of_nat n + ps - 1) / ps) by lia.
  split; nia.
Qed.

(** C7 (amended).  Let a request parse with parameters the database
    accepts, let [n] be the number of matching content ids and the page
    size be at least 1.  If no two matching items with different ids
    have the same two ratings, then, whatever the database does in each
    execution, the pages 1 to [ceil(n / page_size)] are all answered
    with a 200 carrying [total_results = n], and their concatenation
    holds every matching content id exactly once.  (With tied items the
    pages need not be cut from the same order.) *)
Theorem pages_cover_matches_once (ties : nat -> tie_rule) (cy : Z)
  (s : Store.t) (rq : body) (ps : Z) (n : nat) :
  let a := destructure cy rq in
  parses a -> parameters_fit a = true ->
  1 <= ps <= int8_max ->
  counts (matches a s) n -> Z.of_nat n <= int8_max ->
  no_rating_ties a s ->
  exists pages : list (list result_row),
    Forall2
      (fun p recs =>
         response_of
           (handler (ties p) cy s
              (with_paging rq (Some (Z.of_nat p)) (Some ps)))
         = Ok200 recs (Z.of_nat n) (Z.of_nat p) ps)
      (seq 1 (page_count (Z.of_nat n) ps)) pages
    /\ NoDup (map result_uid (List.concat pages))
    /\ (forall u, In u (map result_uid (List.concat pages))
                  <-> matches a s u).
Proof.
  intros a Hp Hf Hps Hc Hn Ht.
  assert (En : n = List.length (matching_uids a s))
    by (apply (counts_unique _ _ _ Hc), matching_uids_counts).
  set (L := all_groups table_order a s).
  exists (map (fun p => page_slice (Z.of_nat p) ps L)
              (seq 1 (page_count (Z.of_nat n) ps))).
  assert (Hcat : List.concat
            (map (fun p => page_slice (Z.of_nat p) ps L)
               (seq 1 (page_count (Z.of_nat n) ps))) = L).
  { apply pages_concat; [lia|].
    unfold L. rewrite all_groups_length, <- En.
    pose proof (page_count_covers (Z.of_nat n) ps ltac:(lia) ltac:(lia))
      as H.
    now rewrite Nat2Z.id in H. }
  split.
  - apply Forall2_map_r. intros p Hin. apply in_seq in Hin.
    pose proof (page_offset_bound n ps p ltac:(lia) ltac:(lia) ltac:(lia))
      as Ho.
    assert (Ha : paging_accepted
                   (destructure cy
                      (with_paging rq (Some (Z.of_nat p)) (Some ps))))
      by (unfold paging_accepted; simpl; lia).
    rewrite (handler_ok (ties p) cy s
               (with_paging rq (Some (Z.of_nat p)) (Some ps)) Hp Hf Ha).
    unfold L. rewrite (all_groups_unique table_order (ties p) a s Ht).
    rewrite En. reflexivity.
  - rewrite Hcat. split; [apply all_groups_NoDup|apply all_groups_matches].
Qed.

Lemma pages_cover_matches_once_witness :
  let a := destructure 2026 short_request in
  (uids_of (response_of
              (handler table_order 2026 sample_store
                 (with_paging short_request (Some 1) (Some 1))))
   = Some ["s1"]
   /\ uids_of (response_of
                 (handler reverse_order 2026 sample_store
                    (with_paging short_request (Some 2) (Some 1))))
      = Some ["m1"])
  /\ exists pages : list (list result_row),
       Forall2
         (fun p recs =>
            response_of
              (handler (alternating p) 2026 sample_store
                 (with_paging short_request (Some (Z.of_nat p)) (Some 1)))
            = Ok200 recs (Z.of_nat 2) (Z.of_nat p) 1)
         (seq 1 (page_count (Z.of_nat 2) 1)) pages
       /\ NoDup (map result_uid (List.concat pages))
       /\ (forall u, In u (map result_uid (List.concat pages))
                     <-> matches a sample_store u).
Proof.
  split; [split; reflexivity|].
  apply (pages_cover_matches_once alternating 2026 sample_store
           short_request 1 2).
  - discriminate.
  - reflexivity.
  - unfold int8_max. lia.
  - exact (matching_uids_counts (destructure 2026 short_request)
             sample_store).
  - unfold int8_max. simpl. lia.
  - apply no_rating_ties_check. reflexivity.
Defined.

(* ------------------------------------------------------------------ *)
(** ** Comparisons of integers and texts *)

Lemma Qle_bool_inject (a b : Z) :
  Qle_bool (inject_Z a) (inject_Z b) = (a <=? b).
Proof. unfold Qle_bool; simpl. now rewrite !Z.mul_1_r. Qed.

Lemma sql_le_int (a b : Z) : sql_le (VInt a) (VInt b) = tv_of_bool (a <=? b).
Proof. unfold sql_le; simpl. now rewrite Qle_bool_inject. Qed.

Lemma sql_lt_int (a b : Z) : sql_lt (VInt a) (VInt b) = tv_of_bool (a <? b).
Proof.
  unfold sql_lt, Qlt_bool; simpl. rewrite Qle_bool_inject.
  now rewrite Z.ltb_antisym.
Qed.

Lemma sql_eq_int (a b : Z) : sql_eq (VInt a) (VInt b) = tv_of_bool (a =? b).
Proof.
  unfold sql_eq, Qeq_bool; simpl. now rewrite !Z.mul_1_r.
Qed.

Lemma sql_eq_text (s t : string) :
  sql_eq (VText s) (VText t) = tv_of_bool (String.eqb s t).
Proof. reflexivity. Qed.

Lemma row_matches_conj (a : args) (r : jrow) :
  row_matches a r
  = is_true (sem_content_type a r) && is_true (sem_release_year a r)
    && is_true (sem_min_rating a r) && is_true (sem_parental_rating a r)
    && is_true (sem_duration a r)
    && is_true (sem_uid_list false g_uid_col (genre_uids a) r)
    && is_true (sem_uid_list true g_uid_col (Some (excluded_genre_uids a)) r)
    && is_true (sem_uid_list false ss_uid_col (streaming_service_uids a) r)
    && is_true (sem_uid_list true ss_uid_col
                  (Some (excluded_service_uids a)) r).
Proof. unfold row_matches, row_sem. now rewrite !is_true_and. Qed.

(* ------------------------------------------------------------------ *)
(** ** Duration buckets *)

Lemma bucket_of_clause (category : string) (bk : bucket) :
  bucket_of category = Some bk ->
  exists d,
    (category =? "any")%string = false
    /\ durationCondition category = Some d
    /\ duration_clause category = Some d
    /\ forall params r, is_true (eval params r d) = spec_duration bk (j_c r).
Proof.
  unfold bucket_of, duration_clause, durationCondition.
  destruct (category =? "any")%string; [discriminate|].
  destruct (category =? "short")%string;
    [|destruct (category =? "medium")%string;
      [|destruct (category =? "long")%string; [|discriminate]]];
    intros E; injection E as <-; eexists; (split; [reflexivity|]);
    (split; [reflexivity|]); (split; [reflexivity|]); intros params r;
    unfold spec_duration, is_kind, is_movie, is_tv_show;
    cbn [eval operand_value cmp_eval column_value];
    destruct (duration_minutes (j_c r)) as [m|],
             (number_of_seasons (j_c r)) as [n|];
    cbn [opt_value opt_test];
    change (Z.of_nat 60) with 60; change (Z.of_nat 120) with 120;
    change (Z.of_nat 1) with 1; change (Z.of_nat 2) with 2;
    change (Z.of_nat 4) with 4;
    unfold sql_gt, sql_ge;
    rewrite ?sql_eq_text, ?sql_lt_int, ?sql_le_int, ?sql_eq_int;
    rewrite is_true_or, !is_true_and, ?is_true_of_bool; reflexivity.
Qed.

Lemma add_duration_clause (a : args) (b : builder) :
  add_duration a b
  = match duration_clause (preferred_duration_category a) with
    | Some d => {| queryParams := queryParams b;
                   whereClauses := (whereClauses b ++ [Paren d])%list |}
    | None => b
    end.
Proof.
  unfold add_duration, duration_clause.
  now destruct (negb (preferred_duration_category a =? "any")%string).
Qed.

Lemma add_uid_list_keeps (mk : operand -> list operand -> cond) (c : column)
  (xs : option (list string)) (b : builder) (p : cond) :
  In p (whereClauses b) -> In p (whereClauses (add_uid_list mk c xs b)).
Proof.
  unfold add_uid_list. destruct xs as [[|x l]|]; auto.
  intros H. simpl. apply in_or_app. now left.
Qed.

(** C5.  For a request whose [preferred_duration_category] is "short",
    "medium" or "long", the builder appends one duration conjunct, and a
    joined row satisfies that conjunct exactly when its content item is:
    for short, a movie with runtime < 60 or a series ([tv_show]) with
    exactly 1 season; for medium, a movie with runtime from 60 to 120 or
    a series with 2 to 4 seasons; for long, a movie with runtime > 120 or
    a series with more than 4 seasons.  Every row that matches the
    request satisfies it. *)
Theorem duration_predicate_is_the_bucket (a : args) (bk : bucket) :
  bucket_of (preferred_duration_category a) = Some bk ->
  exists d,
    durationCondition (preferred_duration_category a) = Some d
    /\ (forall b, build a = Some b -> In (Paren d) (whereClauses b))
    /\ (forall params r,
          is_true (eval params r (Paren d)) = spec_duration bk (j_c r))
    /\ (forall r, is_true (sem_duration a r) = spec_duration bk (j_c r))
    /\ (forall r, row_matches a r = true -> spec_duration bk (j_c r) = true).
Proof.
  intros Hb. destruct (bucket_of_clause _ _ Hb) as (d & Ha & Hd & Hc & He).
  assert (Hs : forall r,
             is_true (sem_duration a r) = spec_duration bk (j_c r)).
  { intros r. unfold sem_duration. rewrite Ha, Hd. apply He. }
  exists d. split; [exact Hd|]. split; [|split; [|split]].
  - intros b E. destruct (build_steps a b E) as (b1 & _ & ->).
    do 4 apply add_uid_list_keeps.
    rewrite add_duration_clause, Hc. simpl. apply in_or_app.
    right. now left.
  - intros params r. apply He.
  - exact Hs.
  - intros r Hm. rewrite row_matches_conj in Hm. rewrite <- Hs.
    repeat (apply andb_prop in Hm; destruct Hm as [Hm ?]). assumption.
Qed.

Lemma duration_predicate_is_the_bucket_witness :
  let a := destructure 2026 plain_request in
  exists d,
    durationCondition (preferred_duration_category a) = Some d
    /\ (forall b, build a = Some b -> In (Paren d) (whereClauses b))
    /\ (forall params r,
          is_true (eval params r (Paren d)) = spec_duration Medium (j_c r))
    /\ (forall r, is_true (sem_duration a r) = spec_duration Medium (j_c r))
    /\ (forall r, row_matches a r = true
                  -> spec_duration Medium (j_c r) = true).
Proof.
  apply (duration_predicate_is_the_bucket
           (destructure 2026 plain_request) Medium).
  reflexivity.
Defined.

(* ------------------------------------------------------------------ *)
(** ** The statement text does not depend on caller values *)

Lemma alike_init : alike builder_init builder_init.
Proof. split; reflexivity. Qed.

Lemma alike_push (b1 b2 : builder) (vs1 vs2 : list value)
  (mk1 mk2 : nat -> cond) :
  alike b1 b2 -> List.length vs1 = List.length vs2 ->
  (forall n, mk1 n = mk2 n) ->
  alike (push vs1 mk1 b1) (push vs2 mk2 b2).
Proof.
  intros [Hw Hn] Hv Hm. unfold alike, push; simpl.
  rewrite !length_app, Hw, Hn, Hv, Hm. auto.
Qed.

Lemma placeholders_sizes (n : nat) (xs ys : list string) :
  List.length xs = List.length ys -> placeholders n xs = placeholders n ys.
Proof. unfold placeholders. now intros ->. Qed.

Lemma alike_uid_list (mk : operand -> list operand -> cond) (c : column)
  (xs ys : option (list string)) (b1 b2 : builder) :
  alike b1 b2 -> size_of xs = size_of ys ->
  alike (add_uid_list mk c xs b1) (add_uid_list mk c ys b2).
Proof.
  intros H Hs. unfold add_uid_list.
  destruct xs as [[|x l]|], ys as [[|y m]|]; try discriminate; try exact H.
  apply alike_push; [exact H|simpl in *; now rewrite !length_map|].
  intros n. f_equal. now apply placeholders_sizes.
Qed.

Lemma duration_clause_bucket (c1 c2 : string) :
  bucket_of c1 = bucket_of c2 -> duration_clause c1 = duration_clause c2.
Proof.
  unfold bucket_of, duration_clause, durationCondition.
  destruct (c1 =? "any")%string, (c1 =? "short")%string,
           (c1 =? "medium")%string, (c1 =? "long")%string,
           (c2 =? "any")%string, (c2 =? "short")%string,
           (c2 =? "medium")%string, (c2 =? "long")%string;
    simpl; intros E; try discriminate; reflexivity.
Qed.

Lemma alike_texts (b1 b2 : builder) :
  alike b1 b2 ->
  countQuery_text b1 = countQuery_text b2 /\ query_text b1 = query_text b2.
Proof.
  intros [Hw Hn]. unfold countQuery_text, query_text.
  now rewrite Hw, Hn.
Qed.

Lemma build_none (a : args) :
  build a = None ->
  add_parental_rating a
    (add_min_rating a (add_release_year a
       (add_content_type a builder_init))) = None.
Proof.
  unfold build.
  now destruct (add_parental_rating a
                  (add_min_rating a (add_release_year a
                     (add_content_type a builder_init)))).
Qed.

Lemma alike_parental (a1 a2 : args) (d1 d2 : builder) :
  alike d1 d2 ->
  match parental_rating_filter_json a1 with
  | JsonArray l => Some (List.length l)
  | JsonUnparsable => None
  end
  = match parental_rating_filter_json a2 with
    | JsonArray l => Some (List.length l)
    | JsonUnparsable => None
    end ->
  match add_parental_rating a1 d1, add_parental_rating a2 d2 with
  | Some e1, Some e2 => alike e1 e2
  | None, None => True
  | _, _ => False
  end.
Proof.
  intros H E. unfold add_parental_rating.
  destruct (parental_rating_filter_json a1) as [[|x1 l1]|],
           (parental_rating_filter_json a2) as [[|x2 l2]|];
    try discriminate; try exact H; try exact I.
  injection E as E.
  apply alike_push; [exact H|simpl; now rewrite !length_map, E|].
  intros n. f_equal. apply placeholders_sizes. simpl. now rewrite E.
Qed.

Lemma alike_duration (a1 a2 : args) (b1 b2 : builder) :
  alike b1 b2 ->
  bucket_of (preferred_duration_category a1)
  = bucket_of (preferred_duration_category a2) ->
  alike (add_duration a1 b1) (add_duration a2 b2).
Proof.
  intros [Hw Hn] E.
  rewrite !add_duration_clause, (duration_clause_bucket _ _ E).
  destruct (duration_clause (preferred_duration_category a2));
    split; simpl; congruence.
Qed.

(** Requests of one shape are built into like builders, and [JSON.parse]
    throws on both or on neither. *)
Lemma build_alike (a1 a2 : args) :
  shape_of a1 = shape_of a2 ->
  match build a1, build a2 with
  | Some b1, Some b2 => alike b1 b2
  | None, None => True
  | _, _ => False
  end.
Proof.
  intros E.
  assert (E1 := f_equal sh_content_type E).
  assert (E2 := f_equal sh_release_year E).
  assert (E3 := f_equal sh_min_rating E).
  assert (E4 := f_equal sh_parental_ratings E).
  assert (E5 := f_equal sh_duration E).
  assert (E6 := f_equal sh_genres E).
  assert (E7 := f_equal sh_excluded_genres E).
  assert (E8 := f_equal sh_services E).
  assert (E9 := f_equal sh_excluded_services E).
  cbn [shape_of sh_content_type sh_release_year sh_min_rating
       sh_parental_ratings sh_duration sh_genres sh_excluded_genres
       sh_services sh_excluded_services] in *. clear E.
  assert (H1 : alike (add_content_type a1 builder_init)
                     (add_content_type a2 builder_init)).
  { unfold add_content_type. rewrite E1.
    destruct (negb (preferred_content_type a2 =? "both")%string);
      [|apply alike_init].
    apply alike_push; [apply alike_init|reflexivity|reflexivity]. }
  assert (H2 : alike (add_release_year a1 (add_content_type a1 builder_init))
                     (add_release_year a2 (add_content_type a2 builder_init))).
  { unfold add_release_year. rewrite E2.
    destruct (truthy (min_release_year a2) && truthy (max_release_year a2));
      [|exact H1].
    apply alike_push; [exact H1|reflexivity|reflexivity]. }
  clear H1.
  set (c1 := add_release_year a1 (add_content_type a1 builder_init)) in *.
  set (c2 := add_release_year a2 (add_content_type a2 builder_init)) in *.
  assert (H3 : alike (add_min_rating a1 c1) (add_min_rating a2 c2)).
  { unfold add_min_rating. rewrite E3.
    destruct (Qlt_bool 0 (min_rating a2)); [|exact H2].
    apply alike_push; [exact H2|reflexivity|reflexivity]. }
  clear H2.
  set (d1 := add_min_rating a1 c1) in *.
  set (d2 := add_min_rating a2 c2) in *.
  pose proof (alike_parental a1 a2 d1 d2 H3 E4) as H4.
  destruct (build a1) as [b1|] eqn:B1, (build a2) as [b2|] eqn:B2.
  - destruct (build_steps a1 b1 B1) as (e1 & P1 & ->).
    destruct (build_steps a2 b2 B2) as (e2 & P2 & ->).
    fold c1 d1 in P1. fold c2 d2 in P2. rewrite P1, P2 in H4.
    apply (alike_uid_list NotInList); [|exact E9].
    apply (alike_uid_list InList); [|exact E8].
    apply (alike_uid_list NotInList); [|exact E7].
    apply (alike_uid_list InList); [|exact E6].
    now apply alike_duration.
  - destruct (build_steps a1 b1 B1) as (e1 & P1 & _).
    apply build_none in B2. fold c1 d1 in P1. fold c2 d2 in B2.
    now rewrite P1, B2 in H4.
  - destruct (build_steps a2 b2 B2) as (e2 & P2 & _).
    apply build_none in B1. fold c1 d1 in B1. fold c2 d2 in P2.
    now rewrite P2, B1 in H4.
  - exact I.
Qed.

(** The text the builder produces for a request with every filter set. *)
Example countQuery_text_of_plain_request :
  option_map countQuery_text (build (destructure 2026 plain_request))
  = Some ("SELECT COUNT(DISTINCT c.uid) FROM content c"
          ++ " LEFT JOIN content_genres cg ON c.uid = cg.content_uid"
          ++ " LEFT JOIN genres g ON cg.genre_uid = g.uid"
          ++ " LEFT JOIN content_streaming_availability csa"
          ++ " ON c.uid = csa.content_uid"
          ++ " LEFT JOIN streaming_services ss ON csa.service_uid = ss.uid"
          ++ " WHERE c.content_type = $1"
          ++ " AND c.release_year BETWEEN $2 AND $3"
          ++ " AND (c.imdb_rating >= $4 OR c.rotten_tomatoes_score >= $5)"
          ++ " AND c.parental_rating IN ($6,$7)"
          ++ " AND ((c.content_type = 'movie'"
          ++ " AND c.duration_minutes BETWEEN 60 AND 120)"
          ++ " OR (c.content_type = 'tv_show'"
          ++ " AND c.number_of_seasons BETWEEN 2 AND 4))"
          ++ " AND g.uid IN ($8,$9) AND g.uid NOT IN ($10)"
          ++ " AND ss.uid IN ($11) AND ss.uid NOT IN ($12)")%string.
Proof. reflexivity. Qed.

Example queryParams_of_plain_request :
  option_map queryParams (build (destructure 2026 plain_request))
  = Some [ VText "movie"; VInt 1990; VInt 2026; VNum (7 # 1); VNum (7 # 1);
           VText "R"; VText "PG"; VText "g_scifi"; VText "g_drama";
           VText "g_horror"; VText "netflix"; VText "hulu" ].
Proof. reflexivity. Qed.

(** C8.  Two requests that switch on the same predicates with value sets
    of the same sizes are built into the same statement texts, for the
    count query and for the page query, whatever the caller-supplied
    values (content type, years, rating, parental ratings, genre and
    service identifiers, page and page size) are: the values travel in
    the bound parameter lists only.  The statements the handler sends
    for the two agree one by one, and they are the same list when the
    database takes the parameters of both or of neither. *)
Theorem statement_text_depends_on_shape_only (tie tie' : tie_rule)
  (cy cy' : Z) (s s' : Store.t) (rq1 rq2 : body) :
  shape_of (destructure cy rq1) = shape_of (destructure cy' rq2) ->
  match build (destructure cy rq1), build (destructure cy' rq2) with
  | Some b1, Some b2 =>
      countQuery_text b1 = countQuery_text b2
      /\ query_text b1 = query_text b2
  | None, None => True
  | _, _ => False
  end
  /\ (forall k st1 st2,
        nth_error (statement_texts tie cy s rq1) k = Some st1 ->
        nth_error (statement_texts tie' cy' s' rq2) k = Some st2 ->
        st1 = st2)
  /\ (parameters_fit (destructure cy rq1)
      = parameters_fit (destructure cy' rq2) ->
      statement_texts tie cy s rq1 = statement_texts tie' cy' s' rq2).
Proof.
  intros E. apply build_alike in E. unfold statement_texts.
  destruct (build (destructure cy rq1)) as [b1|] eqn:B1,
           (build (destructure cy' rq2)) as [b2|] eqn:B2;
    try contradiction.
  - rewrite (handler_calls tie cy s rq1 b1 B1),
            (handler_calls tie' cy' s' rq2 b2 B2).
    destruct (alike_texts b1 b2 E) as [Ec Eq]. rewrite Ec, Eq.
    split; [now split|]. split.
    + intros k st1 st2. cbn [map fst].
      destruct (parameters_fit (destructure cy rq1)),
               (parameters_fit (destructure cy' rq2));
        cbn [map fst]; destruct k as [|[|k]]; simpl;
        try congruence; try (destruct k; discriminate).
    + intros ->.
      now destruct (parameters_fit (destructure cy' rq2)).
  - split; [exact I|]. unfold handler. rewrite B1, B2.
    split; [|reflexivity]. intros k st1 st2. destruct k; discriminate.
Qed.

Lemma statement_text_depends_on_shape_only_witness :
  match build (destructure 2026 plain_request),
        build (destructure 1999 hostile_request) with
  | Some b1, Some b2 =>
      countQuery_text b1 = countQuery_text b2
      /\ query_text b1 = query_text b2
  | None, None => True
  | _, _ => False
  end
  /\ (forall k st1 st2,
        nth_error (statement_texts table_order 2026 sample_store
                     plain_request) k = Some st1 ->
        nth_error (statement_texts reverse_order 1999 sample_store
                     hostile_request) k = Some st2 ->
        st1 = st2)
  /\ (parameters_fit (destructure 2026 plain_request)
      = parameters_fit (destructure 1999 hostile_request) ->
      statement_texts table_order 2026 sample_store plain_request
      = statement_texts reverse_order 1999 sample_store hostile_request).
Proof.
  apply (statement_text_depends_on_shape_only table_order reverse_order
           2026 1999 sample_store sample_store plain_request
           hostile_request).
  reflexivity.
Defined.

(* ------------------------------------------------------------------ *)
(** ** The year range *)

Lemma year_range_sem (a : args) (r : jrow) :
  min_release_year a <> 0 -> max_release_year a <> 0 ->
  is_true (sem_release_year a r) = true ->
  exists y, release_year (j_c r) = Some y
            /\ min_release_year a <= y <= max_release_year a.
Proof.
  intros Hlo Hhi. unfold sem_release_year, truthy.
  destruct (Z.eqb_spec (min_release_year a) 0); [contradiction|].
  destruct (Z.eqb_spec (max_release_year a) 0); [contradiction|].
  cbn [negb andb column_value].
  destruct (release_year (j_c r)) as [y|]; cbn [opt_value];
    [|discriminate].
  unfold sql_ge. rewrite !sql_le_int, is_true_and, !is_true_of_bool.
  intros H. apply andb_prop in H. destruct H as [H1 H2].
  apply Z.leb_le in H1, H2. exists y. auto.
Qed.

(** The claim "the year-range predicate is always applied" fails: with
    the bounds 0 and 1950 the predicate is skipped, and an item released
    in 2020 is returned. *)
Lemma year_range_skipped_for_zero_bound :
  min_release_year (destructure 2026 zero_year_request) = 0
  /\ max_release_year (destructure 2026 zero_year_request) = 1950
  /\ (exists x recs,
        response_of (handler table_order 2026 sample_store zero_year_request)
        = Ok200 recs 3 1 20
        /\ In x recs
        /\ release_year (row_content x) = Some 2020
        /\ ~ (0 <= 2020 <= 1950))
  /\ forall tie, exists x recs,
        response_of (handler tie 2026 sample_store zero_year_request)
        = Ok200 recs 3 1 20
        /\ In x recs
        /\ release_year (row_content x) = Some 2020.
Proof.
  split; [reflexivity|]. split; [reflexivity|]. split.
  - eexists. eexists. split; [vm_compute; reflexivity|].
    split; [right; left; reflexivity|]. split; [reflexivity|lia].
  - intros tie.
    destruct (first_page_holds_all tie 2026 sample_store zero_year_request)
      as (recs & E & P);
      [discriminate|reflexivity
      |unfold paging_accepted, int8_max; simpl; lia|reflexivity
      |simpl; lia|].
    eexists. exists recs. split; [exact E|]. split.
    + apply (Permutation_in _ (Permutation_sym P)).
      vm_compute. right. left. reflexivity.
    + reflexivity.
Qed.

(** C6 (amended).  Whenever both year bounds are non-zero, every joined
    row that matches, and so every item of the response, has a release
    year between the minimum and the maximum, bounds included.  Bounds
    the caller leaves out are 1900 and the current year: the handler
    does on a request without year bounds exactly what it does on the
    same request with the bounds 1900 and the current year. *)
Theorem year_range_applied_for_nonzero_bounds (tie : tie_rule) (cy : Z)
  (s : Store.t) (rq : body) :
  let a := destructure cy rq in
  min_release_year a <> 0 -> max_release_year a <> 0 ->
  (forall r, row_matches a r = true ->
     exists y, release_year (j_c r) = Some y
               /\ min_release_year a <= y <= max_release_year a)
  /\ (forall recs t p ps x,
        response_of (handler tie cy s rq) = Ok200 recs t p ps -> In x recs ->
        exists y, release_year (row_content x) = Some y
                  /\ min_release_year a <= y <= max_release_year a)
  /\ handler tie cy s (with_years rq None None)
     = handler tie cy s (with_years rq (Some 1900) (Some cy)).
Proof.
  intros a Hlo Hhi.
  assert (H : forall r, row_matches a r = true ->
            exists y, release_year (j_c r) = Some y
                      /\ min_release_year a <= y <= max_release_year a).
  { intros r Hm. apply year_range_sem; try assumption.
    rewrite row_matches_conj in Hm.
    repeat (apply andb_prop in Hm; destruct Hm as [Hm ?]). assumption. }
  split; [exact H|]. split; [|reflexivity].
  intros recs t p ps x Hr Hx.
  apply (handler_rows tie cy s rq recs t p ps Hr) in Hx.
  apply all_groups_row in Hx. destruct Hx as (r & _ & Hm & ->).
  now apply H.
Qed.

Lemma year_range_applied_for_nonzero_bounds_witness :
  let a := destructure 2026 empty_body in
  (forall r, row_matches a r = true ->
     exists y, release_year (j_c r) = Some y
               /\ min_release_year a <= y <= max_release_year a)
  /\ (forall recs t p ps x,
        response_of (handler table_order 2026 sample_store empty_body)
        = Ok200 recs t p ps -> In x recs ->
        exists y, release_year (row_content x) = Some y
                  /\ min_release_year a <= y <= max_release_year a)
  /\ handler table_order 2026 sample_store (with_years empty_body None None)
     = handler table_order 2026 sample_store
         (with_years empty_body (Some 1900) (Some 2026)).
Proof.
  apply (year_range_applied_for_nonzero_bounds table_order 2026 sample_store
           empty_body).
  - simpl. lia.
  - simpl. lia.
Defined.

(* ------------------------------------------------------------------ *)
(** ** No validation *)

(** The only failure before a query is a [JSON.parse] that throws; it
    is answered with status 500. *)
Lemma unparsable_is_500 (tie : tie_rule) (cy : Z) (s : Store.t)
  (rq : body) :
  parental_rating_filter_json (destructure cy rq) = JsonUnparsable ->
  handler tie cy s rq = ([], Error500).
Proof.
  intros H. unfold handler. now rewrite (build_fails _ H).
Qed.

(** The handler has no validating step: on every request that parses it
    sends the count call, whatever the page, the page size, the years
    and the identifiers are. *)
Lemma count_call_is_always_sent (tie : tie_rule) (cy : Z) (s : Store.t)
  (rq : body) :
  parses (destructure cy rq) ->
  exists b,
    build (destructure cy rq) = Some b
    /\ hd_error (calls_of (handler tie cy s rq))
       = Some (CountStatement (countQuery_text b), queryParams b).
Proof.
  intros Hp. destruct (build_total _ Hp) as [b E]. exists b.
  split; [exact E|]. now rewrite (handler_calls tie cy s rq b E).
Qed.

(** C3, evaluated.  A request with page size 101 and an empty
    identifier, and one with the year minimum above the maximum, are
    invalid in the sense of the claim; for both the two queries are run
    and the answer is a 200, in every execution.  A request for page 0
    has both queries run as well and is answered with the 500 of a
    storage failure.  No request is refused before a query. *)
Theorem invalid_requests_are_served :
  invalid_request (destructure 2026 oversized_request)
  /\ (forall tie,
        List.length
          (calls_of (handler tie 2026 sample_store oversized_request))
        = 2%nat
        /\ exists recs,
             response_of (handler tie 2026 sample_store oversized_request)
             = Ok200 recs 2 1 101
             /\ Permutation (map result_uid recs) ["m1"; "m2"])
  /\ uids_of (response_of
                (handler table_order 2026 sample_store oversized_request))
     = Some ["m1"; "m2"]
  /\ invalid_request (destructure 2026 inverted_years_request)
  /\ (forall tie,
        List.length
          (calls_of (handler tie 2026 sample_store inverted_years_request))
        = 2%nat
        /\ response_of
             (handler tie 2026 sample_store inverted_years_request)
           = Ok200 [] 0 1 20)
  /\ invalid_request (destructure 2026 page_zero_request)
  /\ (forall tie,
        List.length
          (calls_of (handler tie 2026 sample_store page_zero_request))
        = 2%nat
        /\ response_of (handler tie 2026 sample_store page_zero_request)
           = Error500).
Proof.
  split; [right; left; simpl; lia|]. split.
  { intros tie. split; [reflexivity|].
    destruct (first_page_holds_all tie 2026 sample_store oversized_request)
      as (recs & E & P);
      [discriminate|reflexivity
      |unfold paging_accepted, int8_max; simpl; lia|reflexivity
      |simpl; lia|].
    exists recs. split; [exact E|].
    exact (Permutation_map result_uid P). }
  split; [reflexivity|].
  split; [do 3 right; left; simpl; lia|].
  split; [intros tie; split; reflexivity|].
  split; [do 2 right; left; simpl; lia|].
  intros tie; split; reflexivity.
Qed.

(* ------------------------------------------------------------------ *)
(** ** Exclusion filters on the joined rows *)

(** A joined row without a genre fails any genre exclusion: [NULL NOT IN
    (..)] is unknown. *)
Lemma null_genre_fails_exclusion (a : args) (r : jrow) :
  j_g r = None -> excluded_genre_uids a <> [] -> row_matches a r = false.
Proof.
  intros Hg Hx. rewrite row_matches_conj.
  assert (E : is_true (sem_uid_list true g_uid_col
                         (Some (excluded_genre_uids a)) r) = false).
  { unfold sem_uid_list. destruct (excluded_genre_uids a) as [|x l];
      [contradiction|].
    cbn [column_value]. rewrite Hg. cbn [opt_value].
    now rewrite sql_in_null. }
  rewrite E. now rewrite !andb_false_r.
Qed.

Lemma null_service_fails_exclusion (a : args) (r : jrow) :
  j_ss r = None -> excluded_service_uids a <> [] -> row_matches a r = false.
Proof.
  intros Hg Hx. rewrite row_matches_conj.
  assert (E : is_true (sem_uid_list true ss_uid_col
                         (Some (excluded_service_uids a)) r) = false).
  { unfold sem_uid_list. destruct (excluded_service_uids a) as [|x l];
      [contradiction|].
    cbn [column_value]. rewrite Hg. cbn [opt_value].
    now rewrite sql_in_null. }
  rewrite E. now rewrite !andb_false_r.
Qed.

(** A joined row that matches a request with included genres carries
    one of them. *)
Lemma included_genre_on_row (a : args) (r : jrow) (x : string)
  (l : list string) :
  genre_uids a = Some (x :: l) -> row_matches a r = true ->
  exists g, j_g r = Some g /\ In (g_uid g) (x :: l).
Proof.
  intros Hg Hm. rewrite row_matches_conj in Hm.
  repeat (apply andb_prop in Hm; destruct Hm as [Hm ?]).
  match goal with
  | H : is_true (sem_uid_list false g_uid_col _ r) = true |- _ =>
      rename H into Hin
  end.
  rewrite Hg in Hin. unfold sem_uid_list in Hin. cbn [column_value] in Hin.
  destruct (j_g r) as [g|]; cbn [opt_value] in Hin.
  - exists g. split; [reflexivity|].
    rewrite sql_in_text, is_true_of_bool in Hin.
    apply existsb_exists in Hin. destruct Hin as (y & Hy & E).
    apply String.eqb_eq in E. now rewrite E.
  - now rewrite sql_in_null in Hin.
Qed.

(** C2, evaluated.  In the sample store the series [s1] has no genre row
    and no availability row.  It is returned when nothing is filtered,
    and it is neither returned nor counted when the only filter is the
    exclusion of a genre, or of a service, that no item has. *)
Theorem item_without_rows_dropped_by_exclusion :
  genre_uids_of sample_store "s1" = []
  /\ availability_of sample_store "s1" = []
  /\ uids_of (response_of (handler table_order 2026 sample_store empty_body))
     = Some ["s1"; "m1"; "m2"]
  /\ uids_of (response_of
                (handler table_order 2026 sample_store exclude_western))
     = Some ["m1"; "m2"]
  /\ total_results_of
       (response_of (handler table_order 2026 sample_store exclude_western))
     = Some 2
  /\ uids_of (response_of
                (handler table_order 2026 sample_store exclude_peacock))
     = Some ["m1"; "m2"]
  /\ total_results_of
       (response_of (handler table_order 2026 sample_store exclude_peacock))
     = Some 2
  /\ forall tie,
       (exists recs,
          response_of (handler tie 2026 sample_store empty_body)
          = Ok200 recs 3 1 20
          /\ Permutation (map result_uid recs) ["s1"; "m1"; "m2"])
       /\ (exists recs,
             response_of (handler tie 2026 sample_store exclude_western)
             = Ok200 recs 2 1 20
             /\ Permutation (map result_uid recs) ["m1"; "m2"])
       /\ (exists recs,
             response_of (handler tie 2026 sample_store exclude_peacock)
             = Ok200 recs 2 1 20
             /\ Permutation (map result_uid recs) ["m1"; "m2"]).
Proof.
  do 7 (split; [vm_compute; reflexivity|]).
  intros tie. repeat split.
  - destruct (first_page_holds_all tie 2026 sample_store empty_body)
      as (recs & E & P);
      [discriminate|reflexivity
      |unfold paging_accepted, int8_max; simpl; lia|reflexivity
      |simpl; lia|].
    exists recs. split; [exact E|exact (Permutation_map result_uid P)].
  - destruct (first_page_holds_all tie 2026 sample_store exclude_western)
      as (recs & E & P);
      [discriminate|reflexivity
      |unfold paging_accepted, int8_max; simpl; lia|reflexivity
      |simpl; lia|].
    exists recs. split; [exact E|exact (Permutation_map result_uid P)].
  - destruct (first_page_holds_all tie 2026 sample_store exclude_peacock)
      as (recs & E & P);
      [discriminate|reflexivity
      |unfold paging_accepted, int8_max; simpl; lia|reflexivity
      |simpl; lia|].
    exists recs. split; [exact E|exact (Permutation_map result_uid P)].
Qed.

(** C9, evaluated.  In the sample store the movie [m2] has the genres
    [g_scifi] and [g_horror].  With [excluded_genre_uids = ["g_horror"]]
    it is returned and counted: its joined row for [g_scifi] passes the
    [NOT IN]. *)
Theorem item_with_excluded_genre_is_returned :
  genre_uids_of sample_store "m2" = ["g_scifi"; "g_horror"]
  /\ excluded_genre_uids (destructure 2026 exclude_horror) = ["g_horror"]
  /\ uids_of (response_of
                (handler table_order 2026 sample_store exclude_horror))
     = Some ["m1"; "m2"]
  /\ total_results_of
       (response_of (handler table_order 2026 sample_store exclude_horror))
     = Some 2
  /\ forall tie, exists recs,
       response_of (handler tie 2026 sample_store exclude_horror)
       = Ok200 recs 2 1 20
       /\ Permutation (map result_uid recs) ["m1"; "m2"].
Proof.
  do 4 (split; [vm_compute; reflexivity|]).
  intros tie.
  destruct (first_page_holds_all tie 2026 sample_store exclude_horror)
    as (recs & E & P);
    [discriminate|reflexivity
    |unfold paging_accepted, int8_max; simpl; lia|reflexivity
    |simpl; lia|].
  exists recs. split; [exact E|exact (Permutation_map result_uid P)].
Qed.

(* ------------------------------------------------------------------ *)
(** ** The joined rows of a content item *)

Lemma left_join_left {A B : Type} (on : A -> B -> bool) (l : list A)
  (r : list B) (a : A) (ob : option B) :
  In (a, ob) (left_join on l r) -> In a l.
Proof.
  unfold left_join. intros H. apply in_flat_map in H.
  destruct H as (a' & Ha & H).
  destruct (filter (on a') r) as [|b m].
  - destruct H as [H|[]]. now injection H as <- _.
  - apply in_map_iff in H. destruct H as (b' & H & _).
    now injection H as <- _.
Qed.

Lemma left_join_right {A B : Type} (on : A -> B -> bool) (l : list A)
  (r : list B) (a : A) (b : B) :
  In (a, Some b) (left_join on l r) -> In b r /\ on a b = true.
Proof.
  unfold left_join. intros H. apply in_flat_map in H.
  destruct H as (a' & Ha & H).
  destruct (filter (on a') r) as [|b0 m] eqn:F.
  - destruct H as [H|[]]. discriminate.
  - apply in_map_iff in H. destruct H as (b' & H & Hb).
    injection H as <- <-. rewrite <- F in Hb. now apply filter_In in Hb.
Qed.

Lemma left_join_keeps {A B : Type} (on : A -> B -> bool) (l : list A)
  (r : list B) (a : A) :
  In a l -> exists ob, In (a, ob) (left_join on l r).
Proof.
  intros Ha. unfold left_join.
  destruct (filter (on a) r) as [|b m] eqn:F.
  - exists None. apply in_flat_map. exists a. split; [exact Ha|].
    rewrite F. now left.
  - exists (Some b). apply in_flat_map. exists a. split; [exact Ha|].
    rewrite F. now left.
Qed.

Lemma left_join_unmatched {A B : Type} (on : A -> B -> bool) (l : list A)
  (r : list B) (a : A) (ob : option B) :
  In (a, ob) (left_join on l r) -> filter (on a) r = [] -> ob = None.
Proof.
  intros H F. destruct ob as [b|]; [|reflexivity].
  apply left_join_right in H. destruct H as [Hb Ho].
  assert (In b (filter (on a) r)) by (apply filter_In; tauto).
  rewrite F in *. contradiction.
Qed.

(** The genre of a joined row is one the store records for the item. *)
Lemma from_clause_genre (s : Store.t) (r : jrow) (g : genre) :
  In r (from_clause s) -> j_g r = Some g ->
  In (g_uid g) (genre_uids_of s (row_uid r)).
Proof.
  unfold from_clause. intros H Hg. apply in_map_iff in H.
  destruct H as (x & <- & H).
  destruct x as [[[[c cg] og] oa] os]. simpl in Hg. subst og.
  apply left_join_left, left_join_left in H.
  pose proof (left_join_right _ _ _ _ _ H) as [_ Hon].
  apply left_join_left in H.
  unfold on_opt in Hon. simpl in Hon.
  destruct cg as [cg|]; [|discriminate].
  apply left_join_right in H. destruct H as [Hcg Hc].
  apply String.eqb_eq in Hon, Hc.
  unfold genre_uids_of, row_uid. simpl. rewrite <- Hon.
  apply in_map. apply filter_In. split; [exact Hcg|].
  rewrite Hc. apply String.eqb_refl.
Qed.

(** Every content item has a joined row. *)
Lemma from_clause_keeps (s : Store.t) (c : content) :
  In c (tbl_content s) -> exists r, In r (from_clause s) /\ j_c r = c.
Proof.
  intros Hc. unfold from_clause.
  destruct (left_join_keeps
              (fun c cg => String.eqb (uid c) (cg_content_uid cg))
              (tbl_content s) (tbl_content_genres s) c Hc) as [cg H1].
  destruct (left_join_keeps
              (fun x g => on_opt cg_genre_uid g_uid (snd x) g)
              _ (tbl_genres s) _ H1) as [g H2].
  destruct (left_join_keeps
              (fun x a => String.eqb (uid (fst (fst x))) (csa_content_uid a))
              _ (tbl_availability s) _ H2) as [a H3].
  destruct (left_join_keeps
              (fun x sv => on_opt csa_service_uid ss_uid (snd x) sv)
              _ (tbl_streaming_services s) _ H3) as [sv H4].
  eexists. split; [apply in_map_iff; eexists; split; [|exact H4]|];
    reflexivity.
Qed.

(** An item without a genre row has no genre on any of its joined rows. *)
Lemma from_clause_no_genre (s : Store.t) (r : jrow) :
  In r (from_clause s) -> genre_uids_of s (row_uid r) = [] -> j_g r = None.
Proof.
  intros H E. destruct (j_g r) as [g|] eqn:Hg; [|reflexivity].
  pose proof (from_clause_genre s r g H Hg) as Hin.
  rewrite E in Hin. contradiction.
Qed.

(** A matching row of a request with included genres has one of them,
    so an item without genre rows is never returned by such a request. *)
Lemma returned_item_has_included_genre (tie : tie_rule) (cy : Z)
  (s : Store.t) (rq : body)
  (recs : list result_row) (t p ps : Z) (x : result_row) (y : string)
  (l : list string) :
  genre_uids (destructure cy rq) = Some (y :: l) ->
  response_of (handler tie cy s rq) = Ok200 recs t p ps -> In x recs ->
  exists gid, In gid (y :: l) /\ In gid (genre_uids_of s (result_uid x)).
Proof.
  intros Hg Hr Hx.
  apply (handler_rows tie cy s rq recs t p ps Hr) in Hx.
  apply all_groups_row in Hx. destruct Hx as (r & Hin & Hm & E).
  destruct (included_genre_on_row _ r y l Hg Hm) as (g & Hj & Hl).
  exists (g_uid g). split; [exact Hl|].
  unfold result_uid. rewrite E. now apply from_clause_genre.
Qed.

(** A joined row without a genre fails any genre inclusion. *)
Lemma null_genre_fails_inclusion (a : args) (r : jrow) (y : string)
  (l : list string) :
  j_g r = None -> genre_uids a = Some (y :: l) -> row_matches a r = false.
Proof.
  intros Hg Hx. destruct (row_matches a r) eqn:Hm; [|reflexivity].
  destruct (included_genre_on_row a r y l Hx Hm) as (g & Hj & _).
  congruence.
Qed.

(** With an exclusion of genres, an item without genre rows has no
    matching joined row at all: it can be neither returned nor counted. *)
Lemma item_without_genre_never_matches_exclusion (a : args) (s : Store.t)
  (u : string) :
  genre_uids_of s u = [] -> excluded_genre_uids a <> [] ->
  ~ In u (matching_uids a s).
Proof.
  intros E Hx Hin. apply matching_uids_In in Hin.
  destruct Hin as (r & Hr & Hm & <-).
  rewrite (null_genre_fails_exclusion a r) in Hm; [discriminate| |exact Hx].
  now apply from_clause_no_genre with (s := s).
Qed.

(* ------------------------------------------------------------------ *)
(** ** More on distinct elements *)

Lemma dedup_NoDup {A : Type} (eqb : A -> A -> bool) (l : list A) :
  (forall x, eqb x x = true) -> NoDup (dedup eqb l).
Proof.
  intros R. induction l as [|y l IH]; simpl; constructor.
  - intros H. apply filter_In in H. destruct H as [_ H].
    now rewrite R in H.
  - now apply NoDup_filter.
Qed.

Lemma dedup_complete {A : Type} (eqb : A -> A -> bool) (l : list A) (x : A) :
  (forall u v, eqb u v = true -> u = v) -> In x l -> In x (dedup eqb l).
Proof.
  intros E. induction l as [|y l IH]; simpl; [tauto|].
  intros [->|H]; [now left|].
  destruct (eqb y x) eqn:F.
  - left. now apply E.
  - right. apply filter_In. split; [now apply IH|]. now rewrite F.
Qed.

Lemma genre_eqb_refl (g : genre) : genre_eqb g g = true.
Proof. unfold genre_eqb. now rewrite !String.eqb_refl. Qed.

Lemma genre_eqb_eq (g g' : genre) : genre_eqb g g' = true -> g = g'.
Proof.
  unfold genre_eqb. intros H. apply andb_prop in H. destruct H as [H1 H2].
  apply String.eqb_eq in H1, H2. destruct g, g'. simpl in *. congruence.
Qed.

Lemma opt_eqb_string_refl (o : option string) : opt_eqb String.eqb o o = true.
Proof. destruct o; simpl; [apply String.eqb_refl|reflexivity]. Qed.

Lemma service_ref_eqb_refl (x : service_ref) : service_ref_eqb x x = true.
Proof.
  unfold service_ref_eqb.
  now rewrite !String.eqb_refl, !opt_eqb_string_refl.
Qed.

Lemma filter_none {A : Type} (f : A -> bool) (l : list A) :
  (forall x, In x l -> f x = false) -> filter f l = [].
Proof.
  induction l as [|y l IH]; simpl; intros H; [reflexivity|].
  rewrite (H y (or_introl eq_refl)). apply IH. intros x Hx. apply H. now right.
Qed.

(* ------------------------------------------------------------------ *)
(** ** The parts of the conjunction *)

Lemma row_matches_parts (a : args) (r : jrow) :
  row_matches a r = true ->
  is_true (sem_content_type a r) = true
  /\ is_true (sem_release_year a r) = true
  /\ is_true (sem_min_rating a r) = true
  /\ is_true (sem_parental_rating a r) = true
  /\ is_true (sem_duration a r) = true
  /\ is_true (sem_uid_list false g_uid_col (genre_uids a) r) = true
  /\ is_true (sem_uid_list true g_uid_col
                (Some (excluded_genre_uids a)) r) = true
  /\ is_true (sem_uid_list false ss_uid_col
                (streaming_service_uids a) r) = true
  /\ is_true (sem_uid_list true ss_uid_col
                (Some (excluded_service_uids a)) r) = true.
Proof.
  rewrite row_matches_conj. intros H.
  repeat (apply andb_prop in H; destruct H as [H ?]). tauto.
Qed.

Lemma sql_in_not_text (x : value) (l : list string) :
  (forall v, x <> VText v) ->
  sql_in x (map VText l) = match l with [] => FF | _ => UU end.
Proof.
  intros N. induction l as [|y l IH]; simpl; [reflexivity|].
  rewrite IH. destruct x as [|z|q|v]; [| | |now destruct (N v)];
    now destruct l.
Qed.

(** What an inclusion and an exclusion say about the value of a column. *)
Lemma sem_included (c : column) (y : string) (l : list string) (r : jrow) :
  is_true (sem_uid_list false c (Some (y :: l)) r) = true ->
  exists v, column_value c r = VText v /\ In v (y :: l).
Proof.
  unfold sem_uid_list.
  destruct (column_value c r) as [|z|q|v] eqn:E;
    try (rewrite sql_in_not_text by discriminate; discriminate).
  rewrite sql_in_text, is_true_of_bool. intros H.
  apply existsb_exists in H. destruct H as (w & Hw & F).
  apply String.eqb_eq in F. subst w. now exists v.
Qed.

Lemma sem_excluded (c : column) (xs : list string) (r : jrow) (v : string) :
  is_true (sem_uid_list true c (Some xs) r) = true ->
  column_value c r = VText v -> ~ In v xs.
Proof.
  unfold sem_uid_list. destruct xs as [|y l]; [intros _ _ []|].
  intros H E. rewrite E, sql_in_text in H. intros Hin.
  assert (F : existsb (String.eqb v) (y :: l) = true).
  { apply existsb_exists. exists v. split; [exact Hin|].
    apply String.eqb_refl. }
  rewrite F in H. discriminate.
Qed.

(* ------------------------------------------------------------------ *)
(** ** The aggregates of a returned row *)

Lemma handler_group (tie : tie_rule) (cy : Z) (s : Store.t) (rq : body)
  (recs : list result_row) (t p ps : Z) (x : result_row) :
  response_of (handler tie cy s rq) = Ok200 recs t p ps -> In x recs ->
  In x (group_by_uid
          (filter (row_matches (destructure cy rq)) (from_clause s))).
Proof.
  intros Hr Hx. apply (handler_rows tie cy s rq recs t p ps Hr) in Hx.
  unfold all_groups in Hx.
  exact (Permutation_in _ (order_by_perm _ _) Hx).
Qed.

Lemma group_by_uid_genre (rows : list jrow) (x : result_row) (g : genre) :
  In x (group_by_uid rows) -> In g (genres x) ->
  exists r, In r rows /\ row_uid r = result_uid x /\ j_g r = Some g.
Proof.
  unfold group_by_uid. intros H Hg. apply in_map_iff in H.
  destruct H as (r0 & <- & _). simpl in Hg.
  apply dedup_incl, in_flat_map in Hg. destruct Hg as (r & Hr & Hg).
  apply filter_In in Hr. destruct Hr as [Hr Hu].
  apply String.eqb_eq in Hu. exists r. split; [exact Hr|].
  split; [now symmetry|].
  destruct (j_g r) as [g'|]; [|contradiction].
  destruct Hg as [->|[]]. reflexivity.
Qed.

Lemma group_by_uid_service (rows : list jrow) (x : result_row)
  (v : service_ref) :
  In x (group_by_uid rows) -> In v (available_on_services x) ->
  exists r sv,
    In r rows /\ row_uid r = result_uid x /\ j_ss r = Some sv
    /\ service_uid v = ss_uid sv
    /\ watch_link v = match j_csa r with
                      | Some a => csa_watch_link a
                      | None => None
                      end.
Proof.
  unfold group_by_uid. intros H Hv. apply in_map_iff in H.
  destruct H as (r0 & <- & _). simpl in Hv.
  apply dedup_incl, in_flat_map in Hv. destruct Hv as (r & Hr & Hv).
  apply filter_In in Hr. destruct Hr as [Hr Hu].
  apply String.eqb_eq in Hu.
  destruct (j_ss r) as [sv|] eqn:E; [|contradiction].
  destruct Hv as [<-|[]]. exists r, sv. simpl. auto.
Qed.

Lemma from_clause_genre_table (s : Store.t) (r : jrow) (g : genre) :
  In r (from_clause s) -> j_g r = Some g -> In g (tbl_genres s).
Proof.
  unfold from_clause. intros H Hg. apply in_map_iff in H.
  destruct H as (x & <- & H).
  destruct x as [[[[c cg] og] oa] os]. simpl in Hg. subst og.
  apply left_join_left, left_join_left in H.
  now apply left_join_right in H.
Qed.

Lemma from_clause_service (s : Store.t) (r : jrow) (sv : streaming_service) :
  In r (from_clause s) -> j_ss r = Some sv ->
  In sv (tbl_streaming_services s)
  /\ exists a, j_csa r = Some a /\ In a (availability_of s (row_uid r))
               /\ csa_service_uid a = ss_uid sv.
Proof.
  unfold from_clause. intros H Hs. apply in_map_iff in H.
  destruct H as (x & <- & H).
  destruct x as [[[[c cg] og] oa] os]. simpl in Hs. subst os.
  pose proof (left_join_right _ _ _ _ _ H) as [Hsv Hon].
  split; [exact Hsv|].
  unfold on_opt in Hon. simpl in Hon.
  destruct oa as [a|]; [|discriminate].
  apply left_join_left, left_join_right in H. destruct H as [Ha Hc].
  simpl in Hc. apply String.eqb_eq in Hon, Hc.
  exists a. split; [reflexivity|]. split; [|exact Hon].
  unfold availability_of, row_uid. simpl. apply filter_In.
  split; [exact Ha|]. rewrite Hc. apply String.eqb_refl.
Qed.

Lemma from_clause_content (s : Store.t) (r : jrow) :
  In r (from_clause s) -> In (j_c r) (tbl_content s).
Proof.
  unfold from_clause. intros H. apply in_map_iff in H.
  destruct H as (x & <- & H).
  destruct x as [[[[c cg] og] oa] os]. simpl.
  now apply left_join_left, left_join_left, left_join_left,
            left_join_left in H.
Qed.

(** X1.  Every genre listed on a returned item is a row of [genres]
    that the store records for that item, and no genre is listed twice. *)
Theorem listed_genres_are_recorded (tie : tie_rule) (cy : Z)
  (s : Store.t) (rq : body)
  (recs : list result_row) (t p ps : Z) (x : result_row) :
  response_of (handler tie cy s rq) = Ok200 recs t p ps -> In x recs ->
  NoDup (genres x)
  /\ forall g, In g (genres x) ->
       In g (tbl_genres s)
       /\ In (g_uid g) (genre_uids_of s (result_uid x)).
Proof.
  intros Hr Hx.
  pose proof (handler_group tie cy s rq recs t p ps x Hr Hx) as Hg.
  split.
  - unfold group_by_uid in Hg. apply in_map_iff in Hg.
    destruct Hg as (r0 & <- & _). simpl. apply dedup_NoDup, genre_eqb_refl.
  - intros g Hin.
    destruct (group_by_uid_genre _ x g Hg Hin) as (r & Hrow & Hu & Hj).
    apply filter_In in Hrow. destruct Hrow as [Hrow _].
    split; [now apply from_clause_genre_table with (r := r)|].
    rewrite <- Hu. now apply from_clause_genre.
Qed.

Lemma listed_genres_are_recorded_witness :
  NoDup (genres m2_without_horror)
  /\ forall g, In g (genres m2_without_horror) ->
       In g (tbl_genres sample_store)
       /\ In (g_uid g)
            (genre_uids_of sample_store (result_uid m2_without_horror)).
Proof.
  apply (listed_genres_are_recorded table_order 2026 sample_store
           exclude_horror
           (rows_of (response_of
                       (handler table_order 2026 sample_store
                          exclude_horror)))
           2 1 20 m2_without_horror).
  - reflexivity.
  - vm_compute. right. left. reflexivity.
Defined.

(** X2.  The genres listed on a returned item are those of its joined
    rows that passed the genre filters: with included genres only
    included ones are listed, and an excluded genre is never listed,
    whether or not the store records it for the item. *)
Theorem listed_genres_respect_filters (tie : tie_rule) (cy : Z)
  (s : Store.t) (rq : body)
  (recs : list result_row) (t p ps : Z) (x : result_row) (g : genre) :
  response_of (handler tie cy s rq) = Ok200 recs t p ps -> In x recs ->
  In g (genres x) ->
  (forall y l, genre_uids (destructure cy rq) = Some (y :: l) ->
               In (g_uid g) (y :: l))
  /\ ~ In (g_uid g) (excluded_genre_uids (destructure cy rq)).
Proof.
  intros Hr Hx Hin.
  pose proof (handler_group tie cy s rq recs t p ps x Hr Hx) as Hg.
  destruct (group_by_uid_genre _ x g Hg Hin) as (r & Hrow & Hu & Hj).
  apply filter_In in Hrow. destruct Hrow as [_ Hm].
  destruct (row_matches_parts _ _ Hm)
    as (_ & _ & _ & _ & _ & Hi & He & _ & _).
  assert (Hv : column_value g_uid_col r = VText (g_uid g))
    by (simpl; now rewrite Hj).
  split.
  - intros y l E. rewrite E in Hi.
    destruct (sem_included _ _ _ _ Hi) as (v & Hc & Hl).
    rewrite Hv in Hc. injection Hc as <-. exact Hl.
  - exact (sem_excluded _ _ _ _ He Hv).
Qed.

Lemma listed_genres_respect_filters_witness :
  (forall y l,
      genre_uids (destructure 2026 exclude_horror) = Some (y :: l) ->
      In (g_uid scifi) (y :: l))
  /\ ~ In (g_uid scifi)
       (excluded_genre_uids (destructure 2026 exclude_horror)).
Proof.
  apply (listed_genres_respect_filters table_order 2026 sample_store
           exclude_horror
           (rows_of (response_of
                       (handler table_order 2026 sample_store
                          exclude_horror)))
           2 1 20 m2_without_horror scifi).
  - reflexivity.
  - vm_compute. right. left. reflexivity.
  - vm_compute. left. reflexivity.
Defined.

(** X3.  Every service listed on a returned item is one on which the
    store records the item as available, with the watch link of that
    availability row; with included services only included ones are
    listed, an excluded service is never listed, and no entry is listed
    twice. *)
Theorem listed_services_are_recorded (tie : tie_rule) (cy : Z)
  (s : Store.t) (rq : body)
  (recs : list result_row) (t p ps : Z) (x : result_row) :
  response_of (handler tie cy s rq) = Ok200 recs t p ps -> In x recs ->
  NoDup (available_on_services x)
  /\ forall v, In v (available_on_services x) ->
       (exists a, In a (availability_of s (result_uid x))
                  /\ csa_service_uid a = service_uid v
                  /\ csa_watch_link a = watch_link v)
       /\ (forall y l,
             streaming_service_uids (destructure cy rq) = Some (y :: l) ->
             In (service_uid v) (y :: l))
       /\ ~ In (service_uid v) (excluded_service_uids (destructure cy rq)).
Proof.
  intros Hr Hx.
  pose proof (handler_group tie cy s rq recs t p ps x Hr Hx) as Hg.
  split.
  - unfold group_by_uid in Hg. apply in_map_iff in Hg.
    destruct Hg as (r0 & <- & _). simpl.
    apply dedup_NoDup, service_ref_eqb_refl.
  - intros v Hin.
    destruct (group_by_uid_service _ x v Hg Hin)
      as (r & sv & Hrow & Hu & Hj & Hsu & Hw).
    apply filter_In in Hrow. destruct Hrow as [Hrow Hm].
    destruct (from_clause_service s r sv Hrow Hj)
      as (_ & a & Ha & Hav & Hs).
    destruct (row_matches_parts _ _ Hm)
      as (_ & _ & _ & _ & _ & _ & _ & Hi & He).
    assert (Hv : column_value ss_uid_col r = VText (service_uid v))
      by (simpl; now rewrite Hj, Hsu).
    split; [|split].
    + exists a. rewrite <- Hu. split; [exact Hav|].
      split; [congruence|]. now rewrite Hw, Ha.
    + intros y l E. rewrite E in Hi.
      destruct (sem_included _ _ _ _ Hi) as (w & Hc & Hl).
      rewrite Hv in Hc. injection Hc as <-. exact Hl.
    + exact (sem_excluded _ _ _ _ He Hv).
Qed.

Lemma listed_services_are_recorded_witness :
  NoDup (available_on_services m2_of_plain_request)
  /\ forall v, In v (available_on_services m2_of_plain_request) ->
       (exists a,
           In a (availability_of sample_store
                   (result_uid m2_of_plain_request))
           /\ csa_service_uid a = service_uid v
           /\ csa_watch_link a = watch_link v)
       /\ (forall y l,
             streaming_service_uids (destructure 2026 plain_request)
             = Some (y :: l) ->
             In (service_uid v) (y :: l))
       /\ ~ In (service_uid v)
            (excluded_service_uids (destructure 2026 plain_request)).
Proof.
  apply (listed_services_are_recorded table_order 2026 sample_store
           plain_request
           (rows_of (response_of
                       (handler table_order 2026 sample_store
                          plain_request)))
           1 1 10 m2_of_plain_request).
  - reflexivity.
  - vm_compute. left. reflexivity.
Defined.

(* ------------------------------------------------------------------ *)
(** ** More on what is returned *)

Lemma no_match_response (tie : tie_rule) (cy : Z) (s : Store.t)
  (rq : body) :
  let a := destructure cy rq in
  parses a -> parameters_fit a = true -> paging_accepted a ->
  (forall r, In r (from_clause s) -> row_matches a r = false) ->
  response_of (handler tie cy s rq) = Ok200 [] 0 (page a) (page_size a).
Proof.
  intros a Hp Hf Ha Hn. rewrite (handler_ok tie cy s rq Hp Hf Ha). fold a.
  unfold matching_uids, all_groups. rewrite (filter_none _ _ Hn). simpl.
  unfold page_slice. now rewrite skipn_nil, firstn_nil.
Qed.

(** X4.  A request whose included genres are all excluded as well
    matches nothing, whatever the store holds: no content id matches
    it; whenever it is answered with a 200 the answer carries no
    recommendation and [total_results] 0; and it is answered so when it
    parses and the database accepts its parameters, limit and offset. *)
Theorem contradictory_genres_match_nothing (tie : tie_rule) (cy : Z)
  (s : Store.t) (rq : body) (y : string) (l : list string) :
  let a := destructure cy rq in
  genre_uids a = Some (y :: l) ->
  incl (y :: l) (excluded_genre_uids a) ->
  (forall u, ~ matches a s u)
  /\ (forall recs t p ps,
        response_of (handler tie cy s rq) = Ok200 recs t p ps ->
        recs = [] /\ t = 0)
  /\ (parses a -> parameters_fit a = true -> paging_accepted a ->
      response_of (handler tie cy s rq)
      = Ok200 [] 0 (requested_page rq) (requested_page_size rq)).
Proof.
  intros a Hg Hi.
  assert (Hn : forall r, row_matches a r = false).
  { intros r. destruct (row_matches a r) eqn:Hm; [exfalso|reflexivity].
    destruct (row_matches_parts _ _ Hm)
      as (_ & _ & _ & _ & _ & Hin & Hex & _ & _).
    rewrite Hg in Hin.
    destruct (sem_included _ _ _ _ Hin) as (v & Hv & Hl).
    exact (sem_excluded _ _ _ _ Hex Hv (Hi _ Hl)). }
  assert (H3 : parses a -> parameters_fit a = true -> paging_accepted a ->
               response_of (handler tie cy s rq)
               = Ok200 [] 0 (page a) (page_size a)).
  { intros Hp Hf Ha. apply no_match_response; try assumption.
    intros r _. apply Hn. }
  split; [|split].
  - intros u (r & _ & _ & Hm). rewrite Hn in Hm. discriminate.
  - intros recs t p ps H.
    destruct (handler_inv tie cy s rq recs t p ps H) as (Hp & Hf & Ha & _).
    rewrite (H3 Hp Hf Ha) in H. injection H as <- <- _ _. now split.
  - exact H3.
Qed.

Lemma contradictory_genres_match_nothing_witness :
  (forall u, ~ matches (destructure 2026 contradictory_request)
                 sample_store u)
  /\ (forall recs t p ps,
        response_of
          (handler table_order 2026 sample_store contradictory_request)
        = Ok200 recs t p ps ->
        recs = [] /\ t = 0)
  /\ (parses (destructure 2026 contradictory_request) ->
      parameters_fit (destructure 2026 contradictory_request) = true ->
      paging_accepted (destructure 2026 contradictory_request) ->
      response_of
        (handler table_order 2026 sample_store contradictory_request)
      = Ok200 [] 0 1 20).
Proof.
  apply (contradictory_genres_match_nothing table_order 2026 sample_store
           contradictory_request "g_scifi" []).
  - reflexivity.
  - intros u [<-|[]]. right. left. reflexivity.
Defined.

(** X5.  On a request that parses and whose parameters, limit and
    offset the database accepts, the number of recommendations on the
    page is the page size, cut down to what is left of the matching
    items after the offset; a page past the last one is answered with
    status 200, no recommendation and the same [total_results]. *)
Theorem page_length (tie : tie_rule) (cy : Z) (s : Store.t) (rq : body) :
  let a := destructure cy rq in
  parses a -> parameters_fit a = true -> paging_accepted a ->
  exists recs n,
    response_of (handler tie cy s rq)
    = Ok200 recs (Z.of_nat n)
        (requested_page rq) (requested_page_size rq)
    /\ counts (matches a s) n
    /\ List.length recs
       = Nat.min (Z.to_nat (requested_page_size rq))
           (n - Z.to_nat ((requested_page rq - 1)
                          * requested_page_size rq))
    /\ (Z.of_nat n <= (requested_page rq - 1) * requested_page_size rq ->
        recs = []).
Proof.
  intros a Hp Hf Ha.
  exists (page_slice (page a) (page_size a) (all_groups tie a s)),
    (List.length (matching_uids a s)).
  split; [exact (handler_ok tie cy s rq Hp Hf Ha)|].
  split; [apply matching_uids_counts|].
  assert (E : List.length
                (page_slice (page a) (page_size a) (all_groups tie a s))
              = Nat.min (Z.to_nat (page_size a))
                  (List.length (matching_uids a s)
                   - Z.to_nat ((page a - 1) * page_size a))).
  { unfold page_slice. rewrite length_firstn, length_skipn.
    now rewrite all_groups_length. }
  split; [exact E|]. intros Hb. apply length_zero_iff_nil. rewrite E.
  change (requested_page rq) with (page a) in Hb.
  change (requested_page_size rq) with (page_size a) in Hb.
  destruct Ha as [_ Ho]. lia.
Qed.

Lemma page_length_witness :
  let rq := with_paging empty_body (Some 2) (Some 2) in
  uids_of (response_of (handler table_order 2026 sample_store rq))
  = Some ["m2"]
  /\ exists recs n,
       response_of (handler table_order 2026 sample_store rq)
       = Ok200 recs (Z.of_nat n) 2 2
       /\ counts (matches (destructure 2026 rq) sample_store) n
       /\ List.length recs
          = Nat.min (Z.to_nat 2) (n - Z.to_nat ((2 - 1) * 2))
       /\ (Z.of_nat n <= (2 - 1) * 2 -> recs = []).
Proof.
  split; [reflexivity|].
  apply (page_length table_order 2026 sample_store
           (with_paging empty_body (Some 2) (Some 2))).
  - discriminate.
  - reflexivity.
  - unfold paging_accepted, int8_max. simpl. lia.
Defined.

Lemma sql_ge_num (v : value) (floor : Q) :
  is_true (sql_ge v (VNum floor)) = true ->
  exists q, num_of v = Some q /\ (floor <= q)%Q.
Proof.
  unfold sql_ge, sql_le, cmp_values. simpl.
  destruct v as [|z|q|t]; simpl; try discriminate.
  - rewrite is_true_of_bool. intros H. apply Qle_bool_iff in H. eauto.
  - rewrite is_true_of_bool. intros H. apply Qle_bool_iff in H. eauto.
Qed.

(** X6.  Every returned item passed the filters on its own columns: its
    content type is the requested one unless that is "both"; with a
    positive rating floor its IMDb rating or its Rotten Tomatoes score,
    each on its own scale, is at least the floor; with parental ratings
    given it has one of them.  An item whose rating column is [NULL]
    never passes on that column. *)
Theorem returned_items_pass_content_filters (tie : tie_rule) (cy : Z)
  (s : Store.t)
  (rq : body) (recs : list result_row) (t p ps : Z) (x : result_row) :
  let a := destructure cy rq in
  response_of (handler tie cy s rq) = Ok200 recs t p ps -> In x recs ->
  (preferred_content_type a <> "both" ->
   content_type (row_content x) = preferred_content_type a)
  /\ ((0 < min_rating a)%Q -> rating_floor_met (min_rating a) (row_content x))
  /\ (forall y l, parental_rating_filter_json a = JsonArray (y :: l) ->
        exists pr, parental_rating (row_content x) = Some pr
                   /\ In pr (y :: l)).
Proof.
  intros a Hr Hx. apply (handler_rows tie cy s rq recs t p ps Hr) in Hx.
  apply all_groups_row in Hx. destruct Hx as (r & _ & Hm & ->).
  destruct (row_matches_parts _ _ Hm) as (Hc & _ & Hf & Hp & _).
  split; [|split].
  - intros N. unfold sem_content_type in Hc. fold a in Hc.
    destruct (String.eqb_spec (preferred_content_type a) "both");
      [contradiction|].
    cbn [negb column_value] in Hc.
    rewrite sql_eq_text, is_true_of_bool in Hc.
    now apply String.eqb_eq in Hc.
  - intros Hpos. unfold sem_min_rating in Hf. fold a in Hf.
    assert (E0 : Qlt_bool 0 (min_rating a) = true).
    { unfold Qlt_bool. destruct (Qle_bool (min_rating a) 0) eqn:E;
        [|reflexivity].
      apply Qle_bool_iff in E. exfalso. exact (Qlt_not_le _ _ Hpos E). }
    rewrite E0, is_true_or in Hf. apply orb_prop in Hf.
    destruct Hf as [Hf|Hf]; apply sql_ge_num in Hf;
      destruct Hf as (q & Hq & Hle); simpl in Hq.
    + left. destruct (imdb_rating (j_c r)) as [i|]; [|discriminate].
      injection Hq as <-. eauto.
    + right. destruct (rotten_tomatoes_score (j_c r)) as [z|];
        [|discriminate].
      injection Hq as <-. eauto.
  - intros y l E. unfold sem_parental_rating in Hp. fold a in Hp.
    rewrite E in Hp. cbn [column_value] in Hp.
    destruct (parental_rating (j_c r)) as [pr|]; cbn [opt_value] in Hp.
    + rewrite sql_in_text, is_true_of_bool in Hp.
      apply existsb_exists in Hp. destruct Hp as (w & Hw & F).
      apply String.eqb_eq in F. subst w. eauto.
    + now rewrite sql_in_null in Hp.
Qed.

Lemma returned_items_pass_content_filters_witness :
  let a := destructure 2026 plain_request in
  (preferred_content_type a <> "both" ->
   content_type (row_content m2_of_plain_request) = preferred_content_type a)
  /\ ((0 < min_rating a)%Q ->
      rating_floor_met (min_rating a) (row_content m2_of_plain_request))
  /\ (forall y l, parental_rating_filter_json a = JsonArray (y :: l) ->
        exists pr, parental_rating (row_content m2_of_plain_request) = Some pr
                   /\ In pr (y :: l)).
Proof.
  apply (returned_items_pass_content_filters table_order 2026 sample_store
           plain_request
           (rows_of (response_of
                       (handler table_order 2026 sample_store
                          plain_request)))
           1 1 10 m2_of_plain_request).
  - reflexivity.
  - vm_compute. left. reflexivity.
Defined.

(* ------------------------------------------------------------------ *)
(** ** Exclusions only ever remove results *)

Lemma sem_excluded_mono (c : column) (xs xs' : list string) (r : jrow) :
  incl xs xs' ->
  is_true (sem_uid_list true c (Some xs') r) = true ->
  is_true (sem_uid_list true c (Some xs) r) = true.
Proof.
  intros Hi H. destruct xs as [|y l]; [reflexivity|].
  destruct xs' as [|y' l']; [destruct (Hi y (or_introl eq_refl))|].
  unfold sem_uid_list in *.
  destruct (column_value c r) as [|z|q|v];
    try (rewrite sql_in_not_text in H by discriminate; discriminate).
  rewrite sql_in_text in *.
  destruct (existsb (String.eqb v) (y' :: l')) eqn:E'; [discriminate|].
  destruct (existsb (String.eqb v) (y :: l)) eqn:E; [|reflexivity].
  apply existsb_exists in E. destruct E as (w & Hw & F).
  assert (existsb (String.eqb v) (y' :: l') = true)
    by (apply existsb_exists; exists w; auto).
  congruence.
Qed.

(** X7.  Excluding more genres and more services never adds a result:
    every content id that matches the request with the larger
    exclusions matches the one with the smaller exclusions; and when
    the request parses and the database accepts its parameters, limit
    and offset, both are answered with a [total_results], and that of
    the larger exclusions is not the greater. *)
Theorem more_exclusions_fewer_results (tie tie' : tie_rule) (cy : Z)
  (s : Store.t) (rq : body) (xg xg' xs xs' : list string) :
  let r1 := with_exclusions rq (Some xg) (Some xs) in
  let r2 := with_exclusions rq (Some xg') (Some xs') in
  incl xg xg' -> incl xs xs' ->
  (forall u, matches (destructure cy r2) s u ->
             matches (destructure cy r1) s u)
  /\ (parses (destructure cy rq) ->
      parameters_fit (destructure cy rq) = true ->
      paging_accepted (destructure cy rq) ->
      exists n1 n2,
        counts (matches (destructure cy r1) s) n1
        /\ counts (matches (destructure cy r2) s) n2
        /\ total_results_of (response_of (handler tie cy s r1))
           = Some (Z.of_nat n1)
        /\ total_results_of (response_of (handler tie' cy s r2))
           = Some (Z.of_nat n2)
        /\ (n2 <= n1)%nat).
Proof.
  intros r1 r2 Hg Hs.
  assert (Hi : forall u, matches (destructure cy r2) s u ->
                         matches (destructure cy r1) s u).
  { intros u (r & Hr & E & Hm). exists r. split; [exact Hr|].
    split; [exact E|].
    destruct (row_matches_parts _ _ Hm)
      as (H1 & H2 & H3 & H4 & H5 & H6 & H7 & H8 & H9).
    rewrite row_matches_conj.
    repeat (apply andb_true_iff; split);
      [exact H1|exact H2|exact H3|exact H4|exact H5|exact H6| |exact H8|].
    - exact (sem_excluded_mono g_uid_col xg xg' r Hg H7).
    - exact (sem_excluded_mono ss_uid_col xs xs' r Hs H9). }
  split; [exact Hi|]. intros Hp Hf Ha.
  exists (List.length (matching_uids (destructure cy r1) s)),
         (List.length (matching_uids (destructure cy r2) s)).
  split; [apply matching_uids_counts|].
  split; [apply matching_uids_counts|].
  rewrite (handler_ok tie cy s r1 Hp Hf Ha),
          (handler_ok tie' cy s r2 Hp Hf Ha).
  split; [reflexivity|]. split; [reflexivity|].
  apply NoDup_incl_length; [apply dedup_string_NoDup|].
  intros u Hu. apply matching_uids_matches.
  apply Hi. now apply matching_uids_matches.
Qed.

Lemma more_exclusions_fewer_results_witness :
  let r1 := with_exclusions empty_body (Some ["g_horror"]) (Some []) in
  let r2 := with_exclusions empty_body (Some ["g_horror"; "g_scifi"])
              (Some ["hulu"]) in
  (total_results_of
     (response_of (handler table_order 2026 sample_store r1)) = Some 2
   /\ total_results_of
        (response_of (handler reverse_order 2026 sample_store r2)) = Some 0)
  /\ (forall u, matches (destructure 2026 r2) sample_store u ->
                matches (destructure 2026 r1) sample_store u)
  /\ (parses (destructure 2026 empty_body) ->
      parameters_fit (destructure 2026 empty_body) = true ->
      paging_accepted (destructure 2026 empty_body) ->
      exists n1 n2,
        counts (matches (destructure 2026 r1) sample_store) n1
        /\ counts (matches (destructure 2026 r2) sample_store) n2
        /\ total_results_of
             (response_of (handler table_order 2026 sample_store r1))
           = Some (Z.of_nat n1)
        /\ total_results_of
             (response_of (handler reverse_order 2026 sample_store r2))
           = Some (Z.of_nat n2)
        /\ (n2 <= n1)%nat).
Proof.
  split; [split; reflexivity|].
  apply (more_exclusions_fewer_results table_order reverse_order 2026
           sample_store empty_body
           ["g_horror"] ["g_horror"; "g_scifi"] [] ["hulu"]).
  - intros u [<-|[]]. left. reflexivity.
  - intros u [].
Defined.

(* ------------------------------------------------------------------ *)
(** ** The request without filters *)

(** X8.  A request that sets no field matches exactly the content items
    whose release year is known and lies between 1900 and the current
    year: an item with a [NULL] release year, or one from before 1900,
    is not recommended by default. *)
Theorem default_request_matches_by_year (cy : Z) (s : Store.t) (u : string) :
  cy <> 0 ->
  (In u (matching_uids (destructure cy empty_body) s) <->
   exists c y, In c (tbl_content s) /\ uid c = u
               /\ release_year c = Some y /\ 1900 <= y <= cy).
Proof.
  intros Hcy. rewrite matching_uids_In. split.
  - intros (r & Hr & Hm & E).
    destruct (row_matches_parts _ _ Hm) as (_ & Hy & _).
    apply year_range_sem in Hy; [|simpl; lia|exact Hcy].
    destruct Hy as (y & Hy & Hb). exists (j_c r), y.
    split; [now apply from_clause_content|]. auto.
  - intros (c & y & Hc & E & Hy & Hb).
    destruct (from_clause_keeps s c Hc) as (r & Hr & Hj).
    exists r. split; [exact Hr|]. split; [|unfold row_uid; congruence].
    rewrite row_matches_conj.
    repeat (apply andb_true_iff; split); try reflexivity.
    unfold sem_release_year, truthy.
    change (min_release_year (destructure cy empty_body)) with 1900.
    change (max_release_year (destructure cy empty_body)) with cy.
    cbn [column_value]. rewrite Hj, Hy. cbn [opt_value]. unfold sql_ge.
    rewrite !sql_le_int.
    destruct (Z.eqb_spec cy 0); [contradiction|].
    destruct (Z.leb_spec 1900 y); [|lia].
    destruct (Z.leb_spec y cy); [|lia]. reflexivity.
Qed.

Lemma default_request_matches_by_year_witness :
  In "m1" (matching_uids (destructure 2026 empty_body) sample_store) <->
  exists c y, In c (tbl_content sample_store) /\ uid c = "m1"
              /\ release_year c = Some y /\ 1900 <= y <= 2026.
Proof.
  apply (default_request_matches_by_year 2026 sample_store "m1"). lia.
Defined.

(* ------------------------------------------------------------------ *)
(** ** Placeholders and parameters *)

Lemma map_add_seq (k m : nat) :
  map (fun i => (k + i)%nat) (seq 0 m) = seq k m.
Proof.
  revert k. induction m as [|m IH]; intros k; [reflexivity|].
  simpl. f_equal; [lia|].
  rewrite <- seq_shift, map_map. rewrite <- (IH (S k)).
  apply map_ext. intros i. lia.
Qed.

Lemma placeholders_numbers (n : nat) (xs : list string) :
  flat_map operand_placeholders (placeholders n xs)
  = seq (n - List.length xs + 1) (List.length xs).
Proof.
  unfold placeholders.
  rewrite <- (map_add_seq (n - List.length xs + 1) (List.length xs)).
  generalize (seq 0 (List.length xs)). intros l.
  induction l as [|i l IH]; simpl; [reflexivity|]. now rewrite IH.
Qed.

Lemma numbered_push (b : builder) (vs : list value) (mk : nat -> cond) :
  numbered b ->
  cond_placeholders (mk (List.length (queryParams b ++ vs)))
  = seq (List.length (queryParams b) + 1) (List.length vs) ->
  numbered (push vs mk b).
Proof.
  unfold numbered, push, where_placeholders. simpl. intros H E.
  rewrite flat_map_app, H. simpl. rewrite app_nil_r, E, length_app.
  rewrite seq_app. f_equal. f_equal. lia.
Qed.

Lemma numbered_uid_list (mk : operand -> list operand -> cond) (c : column)
  (xs : option (list string)) (b : builder) :
  (forall l, cond_placeholders (mk (Col c) l)
             = flat_map operand_placeholders l) ->
  numbered b -> numbered (add_uid_list mk c xs b).
Proof.
  intros Hmk H. unfold add_uid_list. destruct xs as [[|x l]|]; try exact H.
  apply numbered_push; [exact H|].
  rewrite Hmk, placeholders_numbers, length_app, !length_map.
  f_equal. lia.
Qed.

Lemma append_assoc_local (a b c : string) :
  ((a ++ b) ++ c)%string = (a ++ (b ++ c))%string.
Proof. induction a as [|x a IH]; simpl; [reflexivity|now rewrite IH]. Qed.

Lemma build_numbered (a : args) (b : builder) :
  build a = Some b -> numbered b.
Proof.
  intros E.
  destruct (build_steps a b E) as (b1 & E1 & ->).
  change (numbered
    (add_uid_list NotInList ss_uid_col (Some (excluded_service_uids a))
      (add_uid_list InList ss_uid_col (streaming_service_uids a)
        (add_uid_list NotInList g_uid_col (Some (excluded_genre_uids a))
          (add_uid_list InList g_uid_col (genre_uids a)
            (add_duration a b1)))))).
  assert (H0 : numbered builder_init) by reflexivity.
  assert (H1 : numbered (add_content_type a builder_init)).
  { unfold add_content_type.
    destruct (negb (preferred_content_type a =? "both")%string);
      [|exact H0].
    apply numbered_push; [exact H0|reflexivity]. }
  assert (H2 : numbered (add_release_year a
                           (add_content_type a builder_init))).
  { unfold add_release_year.
    destruct (truthy (min_release_year a) && truthy (max_release_year a));
      [|exact H1].
    apply numbered_push; [exact H1|].
    rewrite length_app. simpl.
    replace (List.length (queryParams (add_content_type a builder_init))
             + 2 - 1)%nat
      with (List.length (queryParams (add_content_type a builder_init))
            + 1)%nat by lia.
    do 2 f_equal. lia. }
  assert (H3 : numbered (add_min_rating a
                 (add_release_year a (add_content_type a builder_init)))).
  { unfold add_min_rating.
    destruct (Qlt_bool 0 (min_rating a)); [|exact H2].
    apply numbered_push; [exact H2|].
    rewrite length_app. simpl.
    set (n := List.length (queryParams (add_release_year a
                 (add_content_type a builder_init)))).
    replace (n + 2 - 1)%nat with (n + 1)%nat by lia.
    do 2 f_equal. lia. }
  assert (H4 : numbered b1).
  { unfold add_parental_rating in E1.
    destruct (parental_rating_filter_json a) as [[|x l]|];
      try discriminate; injection E1 as <-; [exact H3|].
    apply numbered_push; [exact H3|].
    cbn [cond_placeholders operand_placeholders app].
    rewrite placeholders_numbers, length_app.
    cbn [List.length map]. rewrite ?length_map. f_equal. lia. }
  assert (H5 : numbered (add_duration a b1)).
  { rewrite add_duration_clause.
    destruct (duration_clause (preferred_duration_category a)) as [d|] eqn:D;
      [|exact H4].
    unfold numbered, where_placeholders in *. simpl.
    rewrite flat_map_app, H4. simpl. rewrite app_nil_r.
    assert (cond_placeholders d = []) as ->; [|apply app_nil_r].
    unfold duration_clause, durationCondition in D.
    destruct (negb _); [|discriminate].
    destruct (_ =? "short")%string;
      [|destruct (_ =? "medium")%string;
        [|destruct (_ =? "long")%string; [|discriminate]]];
      injection D as <-; reflexivity. }
  repeat (apply numbered_uid_list; [reflexivity|]). exact H5.
Qed.

Lemma query_text_end (b : builder) :
  exists head,
    query_text b
    = (head ++ limit_offset_text (List.length (queryParams b)))%string.
Proof.
  exists (select_text ++ from_text ++ where_text (whereClauses b)
          ++ " GROUP BY c.uid"
          ++ " ORDER BY c.rotten_tomatoes_score DESC, c.imdb_rating DESC"
          ++ " -- Prioritize higher rated content first" ++ newline)%string.
  unfold query_text, limit_offset_text.
  now rewrite !append_assoc_local.
Qed.

(** X9.  The conjuncts name the bound parameters one after the other,
    each exactly once: the placeholders of the [WHERE] text are $1 to $n
    for the n parameters the builder pushed.  The count call carries
    those n parameters.  The page call, sent when the database took the
    count call, carries them followed by two more; its text ends in
    [LIMIT $n+1 OFFSET $n+2;], parameter n+1 is the page size and
    parameter n+2 the offset [(page - 1) * page_size]. *)
Theorem placeholders_are_the_parameters (tie : tie_rule) (cy : Z)
  (s : Store.t) (rq : body) (b : builder) :
  let a := destructure cy rq in
  let n := List.length (queryParams b) in
  build a = Some b ->
  where_placeholders (whereClauses b) = seq 1 n
  /\ (forall st params,
        In (st, params) (calls_of (handler tie cy s rq)) ->
        (st = CountStatement (countQuery_text b) /\ params = queryParams b)
        \/ (st = PageStatement (query_text b)
            /\ (exists head,
                  query_text b = (head ++ limit_offset_text n)%string)
            /\ List.length params = (n + 2)%nat
            /\ firstn n params = queryParams b
            /\ param params (n + 1) = VInt (requested_page_size rq)
            /\ param params (n + 2)
               = VInt ((requested_page rq - 1) * requested_page_size rq)))
  /\ (parameters_fit a = true ->
      exists params,
        In (PageStatement (query_text b), params)
           (calls_of (handler tie cy s rq))).
Proof.
  intros a n E. split; [exact (build_numbered a b E)|].
  rewrite (handler_calls tie cy s rq b E). fold a. split.
  - intros st params [H|H].
    + left. injection H as <- <-. now split.
    + right. destruct (parameters_fit a); [|contradiction].
      destruct H as [H|[]]. injection H as <- <-.
      split; [reflexivity|]. split; [apply query_text_end|].
      split; [rewrite length_app; reflexivity|].
      split.
      * unfold n. rewrite firstn_app, Nat.sub_diag, firstn_all. simpl.
        apply app_nil_r.
      * split.
        -- apply (param_at (queryParams b)
                    [VInt (page_size a); VInt ((page a - 1) * page_size a)]
                    [] (n + 1)%nat 0%nat); [simpl; lia|unfold n; lia].
        -- apply (param_at (queryParams b)
                    [VInt (page_size a); VInt ((page a - 1) * page_size a)]
                    [] (n + 2)%nat 1%nat); [simpl; lia|unfold n; lia].
  - intros ->. eexists. right. left. reflexivity.
Qed.

Lemma placeholders_are_the_parameters_witness :
  let rq := plain_request in
  let n := List.length (queryParams plain_builder) in
  where_placeholders (whereClauses plain_builder) = seq 1 n
  /\ (forall st params,
        In (st, params)
           (calls_of (handler table_order 2026 sample_store rq)) ->
        (st = CountStatement (countQuery_text plain_builder)
         /\ params = queryParams plain_builder)
        \/ (st = PageStatement (query_text plain_builder)
            /\ (exists head,
                  query_text plain_builder
                  = (head ++ limit_offset_text n)%string)
            /\ List.length params = (n + 2)%nat
            /\ firstn n params = queryParams plain_builder
            /\ param params (n + 1) = VInt 10
            /\ param params (n + 2) = VInt ((1 - 1) * 10)))
  /\ (parameters_fit (destructure 2026 rq) = true ->
      exists params,
        In (PageStatement (query_text plain_builder), params)
           (calls_of (handler table_order 2026 sample_store rq))).
Proof.
  apply (placeholders_are_the_parameters table_order 2026 sample_store
           plain_request plain_builder).
  reflexivity.
Defined.

(* ------------------------------------------------------------------ *)
(** ** The content route *)

Lemma left_join_complete {A B : Type} (on : A -> B -> bool) (l : list A)
  (r : list B) (a : A) (b : B) :
  In a l -> In b r -> on a b = true -> In (a, Some b) (left_join on l r).
Proof.
  intros Ha Hb Ho. unfold left_join. apply in_flat_map. exists a.
  split; [exact Ha|].
  assert (Hf : In b (filter (on a) r)) by (apply filter_In; auto).
  destruct (filter (on a) r) as [|b0 m]; [contradiction|].
  apply in_map_iff. exists b. auto.
Qed.

Lemma from_clause_has_genre (s : Store.t) (c : content) (g : genre) :
  In c (tbl_content s) -> In g (tbl_genres s) ->
  In (g_uid g) (genre_uids_of s (uid c)) ->
  exists r, In r (from_clause s) /\ j_c r = c /\ j_g r = Some g.
Proof.
  intros Hc Hg Hin. unfold genre_uids_of in Hin. apply in_map_iff in Hin.
  destruct Hin as (cg & Hu & Hcg). apply filter_In in Hcg.
  destruct Hcg as [Hcg Hk]. apply String.eqb_eq in Hk.
  pose proof (left_join_complete
                (fun c cg => String.eqb (uid c) (cg_content_uid cg))
                (tbl_content s) (tbl_content_genres s) c cg Hc Hcg) as H1.
  cbv beta in H1. rewrite Hk, String.eqb_refl in H1. specialize (H1 eq_refl).
  pose proof (left_join_complete
                (fun x g => on_opt cg_genre_uid g_uid (snd x) g)
                _ (tbl_genres s) _ g H1 Hg) as H2.
  cbv beta in H2. unfold on_opt in H2. cbn [snd] in H2.
  rewrite Hu, String.eqb_refl in H2. specialize (H2 eq_refl).
  destruct (left_join_keeps
              (fun x a => String.eqb (uid (fst (fst x))) (csa_content_uid a))
              _ (tbl_availability s) _ H2) as [oa H3].
  destruct (left_join_keeps
              (fun x sv => on_opt csa_service_uid ss_uid (snd x) sv)
              _ (tbl_streaming_services s) _ H3) as [os H4].
  eexists. split; [apply in_map_iff; eexists; split; [|exact H4]|];
    [reflexivity|split; reflexivity].
Qed.

Lemma content_exists_rows (s : Store.t) (cu : string) :
  content_exists s cu = true <->
  exists r, In r (from_clause s) /\ row_uid r = cu.
Proof.
  unfold content_exists. rewrite existsb_exists. split.
  - intros (c & Hc & E). apply String.eqb_eq in E.
    destruct (from_clause_keeps s c Hc) as (r & Hr & Hj).
    exists r. split; [exact Hr|]. unfold row_uid. congruence.
  - intros (r & Hr & E). exists (j_c r).
    split; [now apply from_clause_content|].
    apply String.eqb_eq. exact E.
Qed.

(** The rows of one uid form one group, headed by the first row. *)
Lemma group_by_uid_head (rows : list jrow) (r0 : jrow) (rest : list jrow) :
  rows = r0 :: rest ->
  exists more,
    group_by_uid rows
    = {| row_content := j_c r0;
         genres := agg_genres (filter (same_uid r0) rows);
         available_on_services := agg_services (filter (same_uid r0) rows) |}
      :: more.
Proof. intros ->. unfold group_by_uid. simpl. eexists. reflexivity. Qed.

Lemma content_detail_found (db : database) (ru : option string)
  (cu : string) (x : result_row) (o : option bool) :
  content_detail db ru cu = Detail200 x o ->
  exists r0 rest,
    filter (fun r => String.eqb (row_uid r) cu) (from_clause (db_store db))
    = r0 :: rest
    /\ row_content x = j_c r0
    /\ genres x
       = agg_genres
           (filter (same_uid r0)
              (filter (fun r => String.eqb (row_uid r) cu)
                 (from_clause (db_store db)))).
Proof.
  unfold content_detail.
  destruct (filter _ (from_clause (db_store db))) as [|r0 rest] eqn:F;
    [discriminate|].
  destruct (group_by_uid_head (r0 :: rest) r0 rest eq_refl) as [more ->].
  intros H. injection H as <- _. exists r0, rest. auto.
Qed.

Lemma content_detail_genres (db : database) (ru : option string)
  (cu : string) (x : result_row) (o : option bool) (g : genre) :
  content_detail db ru cu = Detail200 x o ->
  (In g (genres x) <->
   In g (tbl_genres (db_store db))
   /\ In (g_uid g) (genre_uids_of (db_store db) cu)).
Proof.
  intros H. destruct (content_detail_found db ru cu x o H)
    as (r0 & rest & F & _ & ->).
  assert (H0 : In r0 (from_clause (db_store db)) /\ row_uid r0 = cu).
  { assert (Hin : In r0 (r0 :: rest)) by now left.
    rewrite <- F in Hin. apply filter_In in Hin.
    destruct Hin as [Hin E]. apply String.eqb_eq in E. auto. }
  destruct H0 as [Hr0 Hu0]. split.
  - intros Hg. apply dedup_incl, in_flat_map in Hg.
    destruct Hg as (r & Hr & Hg). apply filter_In in Hr.
    destruct Hr as [Hr _]. apply filter_In in Hr. destruct Hr as [Hr E].
    apply String.eqb_eq in E.
    destruct (j_g r) as [g'|] eqn:Hj; [|contradiction].
    destruct Hg as [->|[]].
    split; [now apply from_clause_genre_table with (r := r)|].
    rewrite <- E. now apply from_clause_genre.
  - intros [Hg Hin].
    assert (Hc0 : In (j_c r0) (tbl_content (db_store db)))
      by now apply from_clause_content.
    assert (Hin0 : In (g_uid g) (genre_uids_of (db_store db) (uid (j_c r0))))
      by (fold (row_uid r0); now rewrite Hu0).
    destruct (from_clause_has_genre (db_store db) (j_c r0) g Hc0 Hg Hin0)
      as (r & Hr & Hc & Hj).
    apply dedup_complete; [apply genre_eqb_eq|].
    apply in_flat_map. exists r. split; [|rewrite Hj; now left].
    assert (Hu : row_uid r = cu) by (unfold row_uid; rewrite Hc; exact Hu0).
    apply filter_In. split.
    + apply filter_In. split; [exact Hr|]. rewrite Hu. apply String.eqb_refl.
    + unfold same_uid. rewrite Hu0, Hu. apply String.eqb_refl.
Qed.

Lemma content_route_exists (db : database) (cu : string) :
  content_exists (db_store db) cu = true ->
  exists x, content_route db cu = Detail200 x None
            /\ result_uid x = cu
            /\ In (row_content x) (tbl_content (db_store db)).
Proof.
  intros H. apply content_exists_rows in H. destruct H as (r & Hr & E).
  unfold content_route, content_detail.
  assert (Hin : In r (filter (fun r => String.eqb (row_uid r) cu)
                        (from_clause (db_store db)))).
  { apply filter_In. split; [exact Hr|]. rewrite E. apply String.eqb_refl. }
  destruct (filter _ (from_clause (db_store db))) as [|r0 rest] eqn:F;
    [contradiction|].
  destruct (group_by_uid_head (r0 :: rest) r0 rest eq_refl) as [more ->].
  eexists. split; [reflexivity|].
  assert (H0 : In r0 (r0 :: rest)) by now left.
  rewrite <- F in H0. apply filter_In in H0. destruct H0 as [H0 E0].
  apply String.eqb_eq in E0. split; [exact E0|].
  now apply from_clause_content.
Qed.

(** X10.  The content route answers 404 exactly when no content row has
    the requested uid; otherwise it answers 200 with a row of that uid
    taken from the [content] table.  The [is_on_watchlist] field is never
    part of the answer: the route runs without [authenticateToken], so
    [req.user] is never set. *)
Theorem content_route_finds_the_item (db : database) (cu : string) :
  (content_exists (db_store db) cu = false ->
   content_route db cu = Detail404)
  /\ (content_exists (db_store db) cu = true ->
      exists x, content_route db cu = Detail200 x None
                /\ result_uid x = cu
                /\ In (row_content x) (tbl_content (db_store db)))
  /\ (forall x o, content_route db cu = Detail200 x o -> o = None).
Proof.
  split; [|split].
  - intros H. unfold content_route, content_detail.
    rewrite filter_none; [reflexivity|].
    intros r Hr. destruct (String.eqb_spec (row_uid r) cu); [|reflexivity].
    assert (content_exists (db_store db) cu = true)
      by (apply content_exists_rows; eauto).
    congruence.
  - apply content_route_exists.
  - unfold content_route, content_detail. intros x o.
    destruct (group_by_uid _); [discriminate|].
    intros H. now injection H as _ <-.
Qed.

(** X11.  The genres the content handler lists for an item are exactly
    the rows of [genres] that [content_genres] links to it: none is
    missing and none is added. *)
Theorem content_detail_lists_all_genres (db : database)
  (ru : option string) (cu : string) (x : result_row) (o : option bool) :
  content_detail db ru cu = Detail200 x o ->
  forall g, In g (genres x) <->
            In g (tbl_genres (db_store db))
            /\ In (g_uid g) (genre_uids_of (db_store db) cu).
Proof. intros H g. now apply content_detail_genres with (ru := ru) (o := o). Qed.

Lemma content_detail_lists_all_genres_witness :
  In horror (genres m2_detail) <->
  In horror (tbl_genres (db_store sample_db))
  /\ In (g_uid horror) (genre_uids_of (db_store sample_db) "m2").
Proof.
  apply (content_detail_lists_all_genres sample_db None "m2" m2_detail None).
  reflexivity.
Defined.

(** X12.  Every recommended item has a content page: the content route
    answers 200 for its uid, and lists every genre the recommendation
    lists (the recommendation may list fewer, never more).  When the
    uids of [content] are unique, as its primary key demands, both give
    the same content row. *)
Theorem recommended_item_has_content_page (tie : tie_rule) (cy : Z)
  (db : database)
  (rq : body) (recs : list result_row) (t p ps : Z) (x : result_row) :
  response_of (handler tie cy (db_store db) rq) = Ok200 recs t p ps ->
  In x recs ->
  exists y,
    content_route db (result_uid x) = Detail200 y None
    /\ incl (genres x) (genres y)
    /\ (NoDup (map uid (tbl_content (db_store db))) ->
        row_content y = row_content x).
Proof.
  intros Hr Hx.
  pose proof (handler_group tie cy _ rq recs t p ps x Hr Hx) as Hg.
  apply (handler_rows tie cy _ rq recs t p ps Hr) in Hx.
  apply all_groups_row in Hx. destruct Hx as (r & Hin & _ & Hc).
  assert (He : content_exists (db_store db) (result_uid x) = true).
  { apply content_exists_rows. exists r. split; [exact Hin|].
    unfold row_uid, result_uid. now rewrite Hc. }
  destruct (content_route_exists db _ He) as (y & Hy & Hu & Hy').
  exists y. split; [exact Hy|]. split.
  - intros g Hgx.
    apply (content_detail_genres db None (result_uid x) y None g Hy).
    destruct (group_by_uid_genre _ x g Hg Hgx) as (r' & Hrow & Hu' & Hj).
    apply filter_In in Hrow. destruct Hrow as [Hrow _].
    split; [now apply from_clause_genre_table with (r := r')|].
    rewrite <- Hu'. now apply from_clause_genre.
  - intros N. apply (In_map_NoDup uid (tbl_content (db_store db)));
      try assumption.
    rewrite Hc. now apply from_clause_content.
Qed.

Lemma recommended_item_has_content_page_witness :
  exists y,
    content_route sample_db (result_uid m2_without_horror)
    = Detail200 y None
    /\ incl (genres m2_without_horror) (genres y)
    /\ (NoDup (map uid (tbl_content (db_store sample_db))) ->
        row_content y = row_content m2_without_horror).
Proof.
  apply (recommended_item_has_content_page table_order 2026 sample_db
           exclude_horror
           (rows_of (response_of
                       (handler table_order 2026 sample_store
                          exclude_horror)))
           2 1 20 m2_without_horror).
  - reflexivity.
  - vm_compute. right. left. reflexivity.
Defined.

(* ------------------------------------------------------------------ *)
(** ** Sorting by a test *)

Section SortBy.
Context {A : Type}.
Variable ge : A -> A -> bool.

Lemma insert_by_perm (x : A) (l : list A) :
  Permutation (insert_by ge x l) (x :: l).
Proof.
  induction l as [|y l IH]; simpl; [apply Permutation_refl|].
  destruct (ge x y); [apply Permutation_refl|].
  apply perm_trans with (y :: x :: l); [now apply perm_skip|apply perm_swap].
Qed.

Lemma sort_by_perm (l : list A) : Permutation (sort_by ge l) l.
Proof.
  induction l as [|x l IH]; simpl; [constructor|].
  apply perm_trans with (x :: sort_by ge l);
    [apply insert_by_perm|now apply perm_skip].
Qed.

Hypothesis ge_total : forall a b, ge a b = true \/ ge b a = true.

Lemma insert_by_sorted (x : A) (l : list A) :
  Sorted (fun a b => ge a b = true) l ->
  Sorted (fun a b => ge a b = true) (insert_by ge x l).
Proof.
  induction l as [|y l IH]; simpl; intros H.
  - repeat constructor.
  - destruct (ge x y) eqn:E.
    + constructor; [exact H|]. now constructor.
    + inversion H as [|? ? Hs Hh]; subst.
      constructor; [now apply IH|].
      assert (Hyx : ge y x = true)
        by (destruct (ge_total x y) as [F|F]; [congruence|exact F]).
      destruct l as [|z l]; simpl; [now constructor|].
      destruct (ge x z); constructor; [exact Hyx|].
      now inversion Hh.
Qed.

Lemma sort_by_sorted (l : list A) :
  Sorted (fun a b => ge a b = true) (sort_by ge l).
Proof.
  induction l as [|x l IH]; simpl; [constructor|].
  now apply insert_by_sorted.
Qed.
End SortBy.

(* ------------------------------------------------------------------ *)
(** ** The watchlist handlers *)

Lemma set_watchlist_same (db : database) :
  set_watchlist db (db_watchlist db) = db.
Proof. now destruct db. Qed.

Lemma on_watchlist_false (wl : list watchlist_entry) (u cu : string) :
  on_watchlist wl u cu = false ->
  filter (fun e => negb (entry_is u cu e)) wl = wl.
Proof.
  unfold on_watchlist. induction wl as [|e wl IH]; simpl; [reflexivity|].
  intros H. apply orb_false_iff in H. destruct H as [-> H]. simpl.
  now rewrite IH.
Qed.

Lemma on_watchlist_after_delete (wl : list watchlist_entry) (u cu : string) :
  on_watchlist (filter (fun e => negb (entry_is u cu e)) wl) u cu = false.
Proof.
  unfold on_watchlist. induction wl as [|e wl IH]; simpl; [reflexivity|].
  destruct (entry_is u cu e) eqn:E; simpl; [exact IH|]. now rewrite E, IH.
Qed.

Lemma delete_shrinks (wl : list watchlist_entry) (u cu : string) :
  on_watchlist wl u cu = true ->
  (List.length (filter (fun e => negb (entry_is u cu e)) wl)
   < List.length wl)%nat.
Proof.
  unfold on_watchlist. induction wl as [|e wl IH]; simpl; [discriminate|].
  destruct (entry_is u cu e) eqn:E; simpl.
  - intros _.
    pose proof (filter_length_le (fun e => negb (entry_is u cu e)) wl). lia.
  - intros H. apply IH in H. lia.
Qed.

Lemma entry_is_key (u cu : string) (e : watchlist_entry) :
  entry_is u cu e = true <-> entry_key e = (u, cu).
Proof.
  unfold entry_is, entry_key. rewrite andb_true_iff, !String.eqb_eq.
  split; [intros [-> ->]; reflexivity|intros H; now injection H].
Qed.

Lemma on_watchlist_key (wl : list watchlist_entry) (u cu : string) :
  on_watchlist wl u cu = true <-> In (u, cu) (map entry_key wl).
Proof.
  unfold on_watchlist. rewrite existsb_exists, in_map_iff. split.
  - intros (e & He & H). apply entry_is_key in H. eauto.
  - intros (e & H & He). apply entry_is_key in H. eauto.
Qed.

(** What [watchlist_add] does, case by case. *)
Lemma watchlist_add_cases (db : database) (u : string) (cu : option string)
  (nu now : string) :
  (fst (watchlist_add db u cu nu now) = db
   /\ status_of (snd (watchlist_add db u cu nu now)) <> 201%nat)
  \/ (exists c,
        cu = Some c /\ c <> ""
        /\ content_exists (db_store db) c = true
        /\ on_watchlist (db_watchlist db) u c = false
        /\ watchlist_add db u cu nu now
           = (set_watchlist db
                (db_watchlist db ++
                   [{| we_uid := nu; we_user_uid := u;
                       we_content_uid := c; we_added_at := now |}]),
              Reply 201 "Content added to watchlist successfully")).
Proof.
  unfold watchlist_add.
  destruct cu as [c|]; simpl; [|left; split; [reflexivity|discriminate]].
  destruct (String.eqb_spec c ""); [left; split; [reflexivity|discriminate]|].
  destruct (content_exists (db_store db) c) eqn:Ec; simpl;
    [|left; split; [reflexivity|discriminate]].
  destruct (on_watchlist (db_watchlist db) u c) eqn:Eo;
    [left; split; [reflexivity|discriminate]|].
  unfold insert_watchlist_entry. simpl. rewrite Eo, Ec. simpl.
  destruct (existsb _ (db_watchlist db) || false || _)%bool;
    [left; split; [reflexivity|discriminate]|].
  right. exists c. auto.
Qed.

(** X13.  Adding to the watchlist changes the database only when it
    answers 201, and then by exactly one new entry for this user and
    this content, which exists and was not on the user's watchlist; a
    missing or empty [content_uid] (400), an unknown content (404), a
    content already listed (409) and a rejected insert (500) leave every
    table as it was.  With a known user, an existing content that is not
    yet listed and a fresh entry uid the answer is 201. *)
Theorem watchlist_add_outcome (db : database) (u : string)
  (cu : option string) (nu now : string) :
  (status_of (snd (watchlist_add db u cu nu now)) <> 201%nat ->
   fst (watchlist_add db u cu nu now) = db)
  /\ (status_of (snd (watchlist_add db u cu nu now)) = 201%nat ->
      exists c,
        cu = Some c /\ c <> ""
        /\ content_exists (db_store db) c = true
        /\ on_watchlist (db_watchlist db) u c = false
        /\ fst (watchlist_add db u cu nu now)
           = set_watchlist db
               (db_watchlist db ++
                  [{| we_uid := nu; we_user_uid := u;
                      we_content_uid := c; we_added_at := now |}]))
  /\ (forall c,
        cu = Some c -> c <> "" ->
        content_exists (db_store db) c = true ->
        on_watchlist (db_watchlist db) u c = false ->
        existsb (fun x => String.eqb (u_uid x) u) (db_users db) = true ->
        existsb (fun x => String.eqb (we_uid x) nu) (db_watchlist db)
        = false ->
        status_of (snd (watchlist_add db u cu nu now)) = 201%nat).
Proof.
  split; [|split].
  - intros H. destruct (watchlist_add_cases db u cu nu now)
      as [[E _]|(c & _ & _ & _ & _ & E)]; [exact E|].
    rewrite E in H. now destruct H.
  - intros H. destruct (watchlist_add_cases db u cu nu now)
      as [[_ N]|(c & E1 & E2 & E3 & E4 & E)]; [contradiction|].
    exists c. rewrite E. auto.
  - intros c -> Hc He Ho Hu Hn. unfold watchlist_add. simpl.
    destruct (String.eqb_spec c ""); [contradiction|].
    rewrite He, Ho. simpl. unfold insert_watchlist_entry. simpl.
    now rewrite Hn, Ho, Hu, He.
Qed.

Lemma NoDup_snoc {A : Type} (l : list A) (x : A) :
  NoDup l -> ~ In x l -> NoDup (l ++ [x]).
Proof.
  intros N H. apply NoDup_rev in N. rewrite <- (rev_involutive (l ++ [x])).
  apply NoDup_rev. rewrite rev_app_distr. simpl. constructor; [|exact N].
  now rewrite <- in_rev.
Qed.

Lemma filter_keeps_keys_distinct {Row Key : Type} (keep : Row -> bool)
  (key : Row -> Key) (rows : list Row) :
  NoDup (map key rows) -> NoDup (map key (filter keep rows)).
Proof.
  intros N. induction rows as [|r rows IH]; simpl; [constructor|].
  simpl in N. apply NoDup_cons_iff in N. destruct N as [Hn N].
  destruct (keep r); simpl; [|now apply IH].
  apply NoDup_cons; [|now apply IH].
  rewrite in_map_iff. intros (y & E & Hy).
  apply filter_In in Hy. apply Hn. rewrite <- E. apply in_map. tauto.
Qed.

(** X14.  The handlers keep the rule of the table that a user has at
    most one entry per content: if it holds before an add or a remove,
    it holds after, whatever the request. *)
Theorem watchlist_stays_unique (db : database) (u : string)
  (cu : option string) (nu now cu' : string) :
  watchlist_unique db ->
  watchlist_unique (fst (watchlist_add db u cu nu now))
  /\ watchlist_unique (fst (watchlist_remove db u cu')).
Proof.
  intros N. split.
  - destruct (watchlist_add_cases db u cu nu now)
      as [[E _]|(c & _ & _ & _ & Ho & E)]; rewrite E; [exact N|].
    unfold watchlist_unique. simpl. rewrite map_app. simpl.
    apply NoDup_snoc; [exact N|].
    intros H. change (In (u, c) (map entry_key (db_watchlist db))) in H.
    apply (proj2 (on_watchlist_key _ _ _)) in H. congruence.
  - unfold watchlist_unique, watchlist_remove. simpl.
    now apply filter_keeps_keys_distinct.
Qed.

Lemma watchlist_stays_unique_witness :
  watchlist_unique
    (fst (watchlist_add sample_db_with_two "user_1" (Some "m2") "we_3"
            "2024-05-03T10:00:00.000Z"))
  /\ watchlist_unique (fst (watchlist_remove sample_db_with_two "user_1" "m1")).
Proof.
  apply (watchlist_stays_unique sample_db_with_two "user_1" (Some "m2")
           "we_3" "2024-05-03T10:00:00.000Z" "m1").
  unfold watchlist_unique. simpl.
  repeat constructor; simpl; intuition discriminate.
Defined.

(** X15.  Removing what was just added restores the database: after an
    add answered with 201, the remove of the same content by the same
    user answers 200 and leaves every table as it was before the add. *)
Theorem watchlist_add_then_remove (db : database) (u c nu now : string) :
  status_of (snd (watchlist_add db u (Some c) nu now)) = 201%nat ->
  watchlist_remove (fst (watchlist_add db u (Some c) nu now)) u c
  = (db, Reply 200 "Content removed from watchlist successfully").
Proof.
  intros H. destruct (watchlist_add_cases db u (Some c) nu now)
    as [[_ N]|(c' & E1 & _ & _ & Ho & E)]; [contradiction|].
  injection E1 as <-. rewrite E.
  set (e := {| we_uid := nu; we_user_uid := u;
               we_content_uid := c; we_added_at := now |}).
  assert (Hf : filter (fun x => negb (entry_is u c x)) (db_watchlist db ++ [e])
               = db_watchlist db).
  { rewrite filter_app, (on_watchlist_false _ _ _ Ho). simpl.
    unfold entry_is, e. simpl. rewrite !String.eqb_refl. simpl.
    apply app_nil_r. }
  unfold watchlist_remove. cbn [fst db_watchlist set_watchlist].
  rewrite Hf, length_app. simpl.
  replace (List.length (db_watchlist db) + 1 - List.length (db_watchlist db))%nat
    with 1%nat by lia.
  simpl. f_equal. now destruct db.
Qed.

Lemma watchlist_add_then_remove_witness :
  watchlist_remove
    (fst (watchlist_add sample_db "user_1" (Some "m1") "we_1"
            "2024-05-01T10:00:00.000Z")) "user_1" "m1"
  = (sample_db, Reply 200 "Content removed from watchlist successfully").
Proof.
  apply (watchlist_add_then_remove sample_db "user_1" "m1" "we_1"
           "2024-05-01T10:00:00.000Z").
  reflexivity.
Defined.

(** X16.  A remove answers 404 exactly when the user has no entry for
    the content, and then changes nothing; otherwise it answers 200.
    Either way the user has no entry for the content afterwards, and
    the entries of every other (user, content) pair, the store and the
    users are untouched. *)
Theorem watchlist_remove_outcome (db : database) (u c : string) :
  let db' := fst (watchlist_remove db u c) in
  (on_watchlist (db_watchlist db) u c = false ->
   watchlist_remove db u c
   = (db, Reply 404 "Content not found in watchlist"))
  /\ (on_watchlist (db_watchlist db) u c = true ->
      snd (watchlist_remove db u c)
      = Reply 200 "Content removed from watchlist successfully")
  /\ on_watchlist (db_watchlist db') u c = false
  /\ (forall u' c', (u', c') <> (u, c) ->
        filter (entry_is u' c') (db_watchlist db')
        = filter (entry_is u' c') (db_watchlist db))
  /\ db_store db' = db_store db /\ db_users db' = db_users db.
Proof.
  unfold watchlist_remove. cbn [fst snd]. split; [|split; [|split; [|split]]].
  - intros H. rewrite (on_watchlist_false _ _ _ H), Nat.sub_diag.
    simpl. now rewrite set_watchlist_same.
  - intros H. apply delete_shrinks in H.
    destruct (Nat.eqb_spec
                (List.length (db_watchlist db)
                 - List.length (filter (fun e => negb (entry_is u c e))
                                  (db_watchlist db))) 0);
      [lia|reflexivity].
  - simpl. apply on_watchlist_after_delete.
  - intros u' c' N. simpl.
    induction (db_watchlist db) as [|e wl IH]; simpl; [reflexivity|].
    destruct (entry_is u c e) eqn:E; simpl.
    + destruct (entry_is u' c' e) eqn:E'; [|exact IH].
      apply entry_is_key in E, E'. congruence.
    + now rewrite IH.
  - split; reflexivity.
Qed.

Lemma pair_eqb_eq (x y : string * string) : pair_eqb x y = true -> x = y.
Proof.
  destruct x, y. unfold pair_eqb. simpl. intros H.
  apply andb_prop in H. destruct H as [H1 H2].
  apply String.eqb_eq in H1, H2. congruence.
Qed.

Lemma group_watchlist_uids (rows : list wl_jrow) :
  watchlist_uids (group_watchlist rows)
  = map fst (dedup pair_eqb (map group_key rows)).
Proof.
  unfold watchlist_uids, group_watchlist. rewrite map_map.
  rewrite <- (dedup_map group_key pair_eqb rows), map_map. reflexivity.
Qed.

Lemma group_watchlist_In (rows : list wl_jrow) (cu : string) :
  In cu (watchlist_uids (group_watchlist rows)) <->
  exists x, In x rows /\ row_uid (w_row x) = cu.
Proof.
  rewrite group_watchlist_uids, in_map_iff. split.
  - intros (k & E & Hk). apply dedup_incl, in_map_iff in Hk.
    destruct Hk as (x & <- & Hx). exists x. auto.
  - intros (x & Hx & E). exists (group_key x). split; [exact E|].
    apply dedup_complete; [apply pair_eqb_eq|]. now apply in_map.
Qed.

Lemma watchlist_from_In (db : database) (x : wl_jrow) :
  In x (watchlist_from db) <->
  In (w_entry x) (db_watchlist db)
  /\ In (w_row x)
       (from_clause
          (store_with_content (db_store db)
             (filter (fun c => String.eqb (we_content_uid (w_entry x)) (uid c))
                (tbl_content (db_store db))))).
Proof.
  unfold watchlist_from. rewrite in_flat_map. split.
  - intros (e & He & H). apply in_map_iff in H.
    destruct H as (r & <- & Hr). simpl. auto.
  - intros [He Hr]. exists (w_entry x). split; [exact He|].
    apply in_map_iff. exists (w_row x). split; [now destruct x|exact Hr].
Qed.

Lemma watchlist_get_In (db : database) (u cu : string) :
  In cu (watchlist_uids (watchlist_get db u)) <->
  on_watchlist (db_watchlist db) u cu = true
  /\ content_exists (db_store db) cu = true.
Proof.
  unfold watchlist_get.
  assert (P : Permutation
    (watchlist_uids (sort_by added_later
       (group_watchlist
          (filter (fun x => String.eqb (we_user_uid (w_entry x)) u)
             (watchlist_from db)))))
    (watchlist_uids
       (group_watchlist
          (filter (fun x => String.eqb (we_user_uid (w_entry x)) u)
             (watchlist_from db)))))
    by (apply Permutation_map, sort_by_perm).
  split.
  - intros H. apply (Permutation_in _ P) in H.
    apply group_watchlist_In in H. destruct H as (x & Hx & E).
    apply filter_In in Hx. destruct Hx as [Hx Hu].
    apply String.eqb_eq in Hu. apply watchlist_from_In in Hx.
    destruct Hx as [He Hr]. apply from_clause_content in Hr.
    simpl in Hr. apply filter_In in Hr. destruct Hr as [Hc Hk].
    apply String.eqb_eq in Hk. fold (row_uid (w_row x)) in Hk.
    rewrite E in Hk. split.
    + unfold on_watchlist. apply existsb_exists. exists (w_entry x).
      split; [exact He|]. apply entry_is_key. unfold entry_key. congruence.
    + unfold content_exists. apply existsb_exists. exists (j_c (w_row x)).
      split; [exact Hc|]. apply String.eqb_eq. exact E.
  - intros [Ho Hc]. apply (Permutation_in _ (Permutation_sym P)).
    apply group_watchlist_In.
    unfold on_watchlist in Ho. apply existsb_exists in Ho.
    destruct Ho as (e & He & Hk). apply entry_is_key in Hk.
    injection Hk as Hu Hcu.
    unfold content_exists in Hc. apply existsb_exists in Hc.
    destruct Hc as (c & Hc & E). apply String.eqb_eq in E.
    destruct (from_clause_keeps
                (store_with_content (db_store db)
                   (filter (fun c => String.eqb (we_content_uid e) (uid c))
                      (tbl_content (db_store db)))) c) as (r & Hr & Hj).
    { simpl. apply filter_In. split; [exact Hc|].
      rewrite Hcu, E. apply String.eqb_refl. }
    exists {| w_entry := e; w_row := r |}. split.
    + apply filter_In. split.
      * apply watchlist_from_In. simpl. auto.
      * simpl. rewrite Hu. apply String.eqb_refl.
    + simpl. unfold row_uid. now rewrite Hj.
Qed.

(** X17.  The watchlist of a user lists exactly the contents for which
    the user has an entry and which exist in [content], and it is
    ordered by the time of adding, latest first. *)
Theorem watchlist_get_lists_entries (db : database) (u : string) :
  (forall cu,
      In cu (watchlist_uids (watchlist_get db u)) <->
      on_watchlist (db_watchlist db) u cu = true
      /\ content_exists (db_store db) cu = true)
  /\ Sorted (fun x y => String.leb (wr_added_at y) (wr_added_at x) = true)
       (watchlist_get db u).
Proof.
  split; [intros cu; apply watchlist_get_In|].
  unfold watchlist_get. apply (sort_by_sorted added_later).
  intros a b. unfold added_later. apply String.leb_total.
Qed.

Lemma watchlist_from_app (db : database) (e : watchlist_entry) :
  watchlist_from (set_watchlist db (db_watchlist db ++ [e]))
  = (watchlist_from db
     ++ map (fun r => {| w_entry := e; w_row := r |})
          (from_clause
             (store_with_content (db_store db)
                (filter (fun c => String.eqb (we_content_uid e) (uid c))
                   (tbl_content (db_store db))))))%list.
Proof.
  unfold watchlist_from. simpl. rewrite flat_map_app. simpl.
  now rewrite app_nil_r.
Qed.

(** X18.  After an add answered with 201 the content is on the user's
    watchlist, and the watchlist of every other user is what it was. *)
Theorem watchlist_add_then_get (db : database) (u c nu now : string) :
  status_of (snd (watchlist_add db u (Some c) nu now)) = 201%nat ->
  In c (watchlist_uids
          (watchlist_get (fst (watchlist_add db u (Some c) nu now)) u))
  /\ forall u', u' <> u ->
       watchlist_get (fst (watchlist_add db u (Some c) nu now)) u'
       = watchlist_get db u'.
Proof.
  intros H. destruct (watchlist_add_cases db u (Some c) nu now)
    as [[_ N]|(c' & E1 & _ & Hc & Ho & E)]; [contradiction|].
  injection E1 as <-. rewrite E. cbn [fst]. split.
  - apply watchlist_get_In. split; [|exact Hc].
    simpl. unfold on_watchlist. rewrite existsb_app. simpl.
    unfold entry_is at 2. simpl. rewrite !String.eqb_refl.
    simpl. apply orb_true_r.
  - intros u' N. unfold watchlist_get. rewrite watchlist_from_app.
    rewrite filter_app. f_equal. f_equal.
    rewrite <- app_nil_r. f_equal.
    apply filter_none. intros x Hx. apply in_map_iff in Hx.
    destruct Hx as (r & <- & _). simpl.
    destruct (String.eqb_spec u u'); [congruence|reflexivity].
Qed.

Lemma watchlist_add_then_get_witness :
  In "m1"
     (watchlist_uids
        (watchlist_get
           (fst (watchlist_add sample_db "user_1" (Some "m1") "we_1"
                   "2024-05-01T10:00:00.000Z")) "user_1"))
  /\ forall u', u' <> "user_1" ->
       watchlist_get
         (fst (watchlist_add sample_db "user_1" (Some "m1") "we_1"
                 "2024-05-01T10:00:00.000Z")) u'
       = watchlist_get sample_db u'.
Proof.
  apply (watchlist_add_then_get sample_db "user_1" "m1" "we_1"
           "2024-05-01T10:00:00.000Z").
  reflexivity.
Defined.

(* ------------------------------------------------------------------ *)
(** ** The token middleware *)

Lemma split_on_field (a b : string) :
  has_space a = false ->
  split_on space (a ++ String space b)%string = a :: split_on space b.
Proof.
  unfold has_space. induction a as [|c a IH]; simpl; [reflexivity|].
  intros H. apply orb_false_iff in H. destruct H as [-> H].
  now rewrite (IH H).
Qed.

Lemma split_on_last (a : string) :
  has_space a = false -> split_on space a = [a].
Proof.
  unfold has_space. induction a as [|c a IH]; simpl; [reflexivity|].
  intros H. apply orb_false_iff in H. destruct H as [-> H].
  now rewrite (IH H).
Qed.

Lemma append_nil_r_local (s : string) : (s ++ "")%string = s.
Proof. induction s as [|c s IH]; simpl; [reflexivity|now rewrite IH]. Qed.

Lemma header_token_second (scheme tok rest : string) :
  has_space scheme = false -> has_space tok = false ->
  rest = "" \/ (exists r, rest = String space r) ->
  header_token (Some (scheme ++ String space (tok ++ rest))%string) = Some tok.
Proof.
  intros Hs Ht Hr. unfold header_token.
  destruct (String.eqb_spec (scheme ++ String space (tok ++ rest))%string "")
    as [E|_].
  - destruct scheme; discriminate.
  - rewrite (split_on_field _ _ Hs). simpl.
    destruct Hr as [->|[r ->]].
    + rewrite append_nil_r_local.
      now rewrite (split_on_last _ Ht).
    + now rewrite (split_on_field _ _ Ht).
Qed.

(** X19.  The middleware takes the token from the second space-separated
    field of the [Authorization] header and never looks at the first:
    whatever the scheme word is, the outcome is decided by verifying that
    field alone - [next] with the payload when it verifies, 401 when it
    has expired, 403 otherwise. *)
Theorem token_is_second_field (verify : string -> verify_result)
  (scheme tok rest : string) :
  has_space scheme = false -> has_space tok = false -> tok <> "" ->
  rest = "" \/ (exists r, rest = String space r) ->
  authenticateToken verify
    (Some (scheme ++ String space (tok ++ rest))%string)
  = match verify tok with
    | Verified user => Next user
    | TokenExpired => Rejected token_expired
    | VerifyError => Rejected invalid_token
    end.
Proof.
  intros Hs Ht Hn Hr. unfold authenticateToken.
  rewrite (header_token_second scheme tok rest Hs Ht Hr). simpl.
  destruct (String.eqb_spec tok ""); [contradiction|reflexivity].
Qed.

Lemma token_is_second_field_witness :
  authenticateToken sample_verify
    (Some ("Basic" ++ String space ("good" ++ " trailing"))%string)
  = match sample_verify "good" with
    | Verified user => Next user
    | TokenExpired => Rejected token_expired
    | VerifyError => Rejected invalid_token
    end.
Proof.
  apply (token_is_second_field sample_verify "Basic" "good" " trailing").
  - reflexivity.
  - reflexivity.
  - discriminate.
  - right. exists "trailing". reflexivity.
Defined.

(** X20.  Without a usable token the middleware answers 401 and does not
    verify anything: no header, a header without a space, or one with
    two spaces after the first word.  It calls [next] only with the
    payload of a token that verified, and that token is not empty. *)
Theorem middleware_rejections (verify : string -> verify_result) :
  authenticateToken verify None = Rejected no_token
  /\ (forall h, has_space h = false ->
        authenticateToken verify (Some h) = Rejected no_token)
  /\ (forall scheme rest, has_space scheme = false ->
        authenticateToken verify
          (Some (scheme ++ String space (String space rest))%string)
        = Rejected no_token)
  /\ (forall h user, authenticateToken verify h = Next user ->
        exists tok, header_token h = Some tok /\ tok <> ""
                    /\ verify tok = Verified user).
Proof.
  split; [reflexivity|]. split; [|split].
  - intros h Hh. unfold authenticateToken, header_token.
    destruct (String.eqb_spec h ""); [reflexivity|].
    now rewrite (split_on_last h Hh).
  - intros scheme rest Hs. unfold authenticateToken, header_token.
    destruct (String.eqb_spec
                (scheme ++ String space (String space rest))%string "");
      [reflexivity|].
    rewrite (split_on_field _ _ Hs). reflexivity.
  - intros h user. unfold authenticateToken.
    destruct (header_token h) as [tok|]; simpl; [|discriminate].
    destruct (String.eqb_spec tok ""); [discriminate|].
    destruct (verify tok) eqn:V; try discriminate.
    intros H. injection H as <-. exists tok. auto.
Qed.

Lemma entries_of_add_other (db : database) (u u' : string)
  (cu : option string) (nu now : string) :
  u' <> u ->
  entries_of (fst (watchlist_add db u cu nu now)) u' = entries_of db u'.
Proof.
  intros N. destruct (watchlist_add_cases db u cu nu now)
    as [[E _]|(c & _ & _ & _ & _ & E)]; rewrite E; [reflexivity|].
  unfold entries_of. simpl. rewrite filter_app. simpl.
  destruct (String.eqb_spec u u'); [congruence|]. apply app_nil_r.
Qed.

Lemma entries_of_remove_other (db : database) (u u' c : string) :
  u' <> u ->
  entries_of (fst (watchlist_remove db u c)) u' = entries_of db u'.
Proof.
  intros N. unfold entries_of, watchlist_remove. simpl.
  induction (db_watchlist db) as [|e wl IH]; simpl; [reflexivity|].
  destruct (entry_is u c e) eqn:E; simpl.
  - apply andb_prop in E. destruct E as [E _]. apply String.eqb_eq in E.
    destruct (String.eqb_spec (we_user_uid e) u'); [congruence|exact IH].
  - now rewrite IH.
Qed.

(** X21.  Through the watchlist routes a caller can change no entry but
    those of the user of the verified token: without a verified token
    the database is left as it was, and with one the entries of every
    other user are left as they were. *)
Theorem watchlist_routes_guard (verify : string -> verify_result)
  (authHeader : option string) (db : database) (cu : option string)
  (nu now cu' : string) :
  ((forall user, authenticateToken verify authHeader <> Next user) ->
   fst (route_watchlist_add verify authHeader db cu nu now) = db
   /\ fst (route_watchlist_remove verify authHeader db cu') = db)
  /\ (forall user u',
        authenticateToken verify authHeader = Next user ->
        u' <> tu_uid user ->
        entries_of (fst (route_watchlist_add verify authHeader db cu nu now)) u'
        = entries_of db u'
        /\ entries_of (fst (route_watchlist_remove verify authHeader db cu')) u'
           = entries_of db u').
Proof.
  unfold route_watchlist_add, route_watchlist_remove, protected. split.
  - intros H. destruct (authenticateToken verify authHeader) as [user|r];
      [now destruct (H user)|auto].
  - intros user u' E N. rewrite E. split.
    + now apply entries_of_add_other.
    + now apply entries_of_remove_other.
Qed.

(* ------------------------------------------------------------------ *)
(** ** Sign-up and log-in *)

Lemma falsy_some (o : option string) :
  falsy o = false -> exists t, o = Some t /\ t <> "".
Proof.
  destruct o as [t|]; simpl; [|discriminate].
  destruct (String.eqb_spec t ""); [discriminate|]. eauto.
Qed.

(** What [signup] does, case by case. *)
Lemma signup_cases (k : crypto) (cy : Z) (db : database)
  (email password : option string) (nu now salt : string) :
  (fst (signup k cy db email password nu now salt) = db
   /\ auth_status (snd (signup k cy db email password nu now salt))
      <> 201%nat)
  \/ exists e p,
       email = Some e /\ password = Some p /\ e <> ""
       /\ (8 <= String.length p)%nat
       /\ email_taken db e = false
       /\ existsb (fun x => String.eqb (u_uid x) nu) (db_users db) = false
       /\ let u := {| u_uid := nu; u_email := e;
                      u_password_hash := hash_password k p salt;
                      u_created_at := now; u_updated_at := now |} in
          (signup k cy db email password nu now salt
           = (set_users db (db_users db ++ [u]), signup_failed)
           \/ signup k cy db email password nu now salt
              = (set_user_settings (set_users db (db_users db ++ [u]))
                   (db_user_settings db ++ [initial_settings nu cy]),
                 AuthOk 201 "User registered successfully" nu e
                   (generate_token k {| tu_uid := nu; tu_email := e |}))).
Proof.
  unfold signup.
  destruct (falsy email) eqn:Fe; [left; split; [reflexivity|discriminate]|].
  destruct (falsy password) eqn:Fp;
    [left; split; [reflexivity|discriminate]|].
  destruct (falsy_some _ Fe) as (e & -> & Ne).
  destruct (falsy_some _ Fp) as (p & -> & Np). cbn [orb or_default].
  destruct (Nat.ltb_spec (String.length p) 8);
    [left; split; [reflexivity|discriminate]|].
  destruct (email_taken db e) eqn:Et;
    [left; split; [reflexivity|discriminate]|].
  unfold insert_user. cbn [u_uid u_email]. rewrite Et.
  destruct (existsb (fun x => String.eqb (u_uid x) nu) (db_users db)) eqn:Eu;
    [left; split; [reflexivity|discriminate]|].
  cbn [orb]. right. exists e, p.
  split; [reflexivity|]. split; [reflexivity|].
  split; [exact Ne|]. split; [exact H|].
  split; [exact Et|]. split; [reflexivity|].
  cbv zeta. destruct (insert_user_settings _ _) as [db2|] eqn:Is.
  - right. unfold insert_user_settings in Is.
    destruct (_ || _)%bool in Is; [discriminate|].
    injection Is as <-. reflexivity.
  - left. reflexivity.
Qed.

Lemma email_taken_In (db : database) (e : string) :
  email_taken db e = true <-> In e (map u_email (db_users db)).
Proof.
  unfold email_taken. rewrite existsb_exists, in_map_iff. split.
  - intros (u & Hu & E). apply String.eqb_eq in E. eauto.
  - intros (u & E & Hu). exists u. split; [exact Hu|].
    now apply String.eqb_eq.
Qed.

(** X22.  Sign-up keeps e-mail addresses unique among the users, and it
    leaves the database as it was whenever it refuses the request: a
    missing or empty e-mail or password (400), a password shorter than
    8 characters (400), an e-mail already registered (409). *)
Theorem signup_keeps_emails_unique (k : crypto) (cy : Z) (db : database)
  (email password : option string) (nu now salt : string) :
  NoDup (map u_email (db_users db)) ->
  NoDup (map u_email
           (db_users (fst (signup k cy db email password nu now salt))))
  /\ (auth_status (snd (signup k cy db email password nu now salt))
      = 400%nat
      \/ auth_status (snd (signup k cy db email password nu now salt))
         = 409%nat ->
      fst (signup k cy db email password nu now salt) = db)
  /\ (forall e p, email = Some e -> password = Some p ->
        e <> "" -> (8 <= String.length p)%nat ->
        email_taken db e = true ->
        snd (signup k cy db email password nu now salt)
        = AuthFail (Reply 409 "User with this email already exists")).
Proof.
  intros N. split; [|split].
  - destruct (signup_cases k cy db email password nu now salt)
      as [[E _]|(e & p & _ & _ & _ & _ & Et & _ & [E|E])];
      rewrite E; [exact N| |]; cbn [fst db_users set_users set_user_settings];
      rewrite map_app; apply NoDup_snoc; try exact N;
      intros H; apply email_taken_In in H; simpl in H; congruence.
  - intros H.
    destruct (signup_cases k cy db email password nu now salt)
      as [[E _]|(e & p & _ & _ & _ & _ & Et & _ & [E|E])];
      [exact E| |]; rewrite E in H; simpl in H;
      destruct H; discriminate.
  - intros e p -> -> Ne Hl Et. unfold signup. simpl.
    destruct (String.eqb_spec e ""); [contradiction|].
    assert (p <> "") by (intros ->; simpl in Hl; lia).
    destruct (String.eqb_spec p ""); [contradiction|]. simpl.
    destruct (Nat.ltb_spec (String.length p) 8); [lia|].
    now rewrite Et.
Qed.

Lemma signup_keeps_emails_unique_witness :
  NoDup (map u_email
           (db_users
              (fst (signup toy_crypto 2026 sample_db_signed_up
                      (Some "alice@example.com") (Some "12345678")
                      "user_3" "2024-06-02T09:00:00.000Z" "salt"))))
  /\ (auth_status
        (snd (signup toy_crypto 2026 sample_db_signed_up
                (Some "alice@example.com") (Some "12345678")
                "user_3" "2024-06-02T09:00:00.000Z" "salt")) = 400%nat
      \/ auth_status
           (snd (signup toy_crypto 2026 sample_db_signed_up
                   (Some "alice@example.com") (Some "12345678")
                   "user_3" "2024-06-02T09:00:00.000Z" "salt")) = 409%nat ->
      fst (signup toy_crypto 2026 sample_db_signed_up
             (Some "alice@example.com") (Some "12345678")
             "user_3" "2024-06-02T09:00:00.000Z" "salt")
      = sample_db_signed_up)
  /\ (forall e p, Some "alice@example.com" = Some e ->
        Some "12345678" = Some p ->
        e <> "" -> (8 <= String.length p)%nat ->
        email_taken sample_db_signed_up e = true ->
        snd (signup toy_crypto 2026 sample_db_signed_up
               (Some "alice@example.com") (Some "12345678")
               "user_3" "2024-06-02T09:00:00.000Z" "salt")
        = AuthFail (Reply 409 "User with this email already exists")).
Proof.
  apply (signup_keeps_emails_unique toy_crypto 2026 sample_db_signed_up
           (Some "alice@example.com") (Some "12345678")
           "user_3" "2024-06-02T09:00:00.000Z" "salt").
  simpl. repeat constructor; simpl; intuition discriminate.
Defined.

(** X23.  A sign-up answered with 201 has stored the user under the new
    uid with the hash of the password, and one settings row for that
    uid holding the very defaults the recommendations handler gives a
    request that sets no field: years 1900 to the current year, duration
    "any", rating floor 0, content type "both", no parental rating. *)
Theorem signup_stores_defaults (k : crypto) (cy : Z) (db : database)
  (email password : option string) (nu now salt : string) :
  auth_status (snd (signup k cy db email password nu now salt)) = 201%nat ->
  let db' := fst (signup k cy db email password nu now salt) in
  exists e p,
    email = Some e /\ password = Some p
    /\ In {| u_uid := nu; u_email := e;
             u_password_hash := hash_password k p salt;
             u_created_at := now; u_updated_at := now |} (db_users db')
    /\ In (initial_settings nu cy) (db_user_settings db')
    /\ settings_as_args (initial_settings nu cy) (destructure cy empty_body)
    /\ db_watchlist db' = db_watchlist db /\ db_store db' = db_store db.
Proof.
  intros H db'. subst db'.
  destruct (signup_cases k cy db email password nu now salt)
    as [[_ N]|(e & p & E1 & E2 & _ & _ & _ & _ & [E|E])];
    [contradiction|rewrite E in H; discriminate|].
  exists e, p. rewrite E.
  cbn [fst db_users db_user_settings db_watchlist db_store
       set_users set_user_settings].
  split; [exact E1|]. split; [exact E2|].
  split; [apply in_or_app; right; now left|].
  split; [apply in_or_app; right; now left|].
  split; [|split; reflexivity].
  unfold settings_as_args. simpl. repeat split; reflexivity.
Qed.

Lemma signup_stores_defaults_witness :
  let db' := fst (signup toy_crypto 2026 sample_db
                    (Some "brenda@example.com") (Some "correct horse")
                    "user_2" "2024-06-01T09:00:00.000Z" "salt") in
  exists e p,
    Some "brenda@example.com" = Some e /\ Some "correct horse" = Some p
    /\ In {| u_uid := "user_2"; u_email := e;
             u_password_hash := hash_password toy_crypto p "salt";
             u_created_at := "2024-06-01T09:00:00.000Z";
             u_updated_at := "2024-06-01T09:00:00.000Z" |} (db_users db')
    /\ In (initial_settings "user_2" 2026) (db_user_settings db')
    /\ settings_as_args (initial_settings "user_2" 2026)
         (destructure 2026 empty_body)
    /\ db_watchlist db' = db_watchlist sample_db
    /\ db_store db' = db_store sample_db.
Proof.
  apply (signup_stores_defaults toy_crypto 2026 sample_db
           (Some "brenda@example.com") (Some "correct horse")
           "user_2" "2024-06-01T09:00:00.000Z" "salt").
  reflexivity.
Defined.

Lemma find_snoc_new {A : Type} (f : A -> bool) (l : list A) (x : A) :
  existsb f l = false -> f x = true -> find f (l ++ [x]) = Some x.
Proof.
  induction l as [|y l IH]; simpl; intros H Hx; [now rewrite Hx|].
  apply orb_false_iff in H. destruct H as [-> H]. now apply IH.
Qed.

(** X24.  Whoever signed up can log in: provided [bcrypt.compare]
    accepts a password against the hash [bcrypt.hash] made of it, a
    log-in with the e-mail and password of a sign-up answered with 201
    is answered with 200 for the same uid and e-mail. *)
Theorem signup_then_login (k : crypto) (cy : Z) (db : database)
  (e p nu now salt now' : string) :
  (forall pw s, compare_password k pw (hash_password k pw s) = true) ->
  auth_status (snd (signup k cy db (Some e) (Some p) nu now salt))
  = 201%nat ->
  snd (login k (fst (signup k cy db (Some e) (Some p) nu now salt))
         (Some e) (Some p) now')
  = AuthOk 200 "Login successful" nu e
      (generate_token k {| tu_uid := nu; tu_email := e |}).
Proof.
  intros Hk H.
  destruct (signup_cases k cy db (Some e) (Some p) nu now salt)
    as [[_ N]|(e' & p' & E1 & E2 & Ne & Hl & Et & _ & [E|E])];
    [contradiction|rewrite E in H; discriminate|].
  injection E1 as <-. injection E2 as <-. rewrite E. cbn [fst].
  unfold login. simpl.
  destruct (String.eqb_spec e ""); [contradiction|].
  assert (p <> "") by (intros ->; simpl in Hl; lia).
  destruct (String.eqb_spec p ""); [contradiction|]. simpl.
  rewrite find_snoc_new; [|exact Et|simpl; apply String.eqb_refl].
  simpl. now rewrite Hk.
Qed.

Lemma signup_then_login_witness :
  snd (login toy_crypto
         (fst (signup toy_crypto 2026 sample_db (Some "brenda@example.com")
                 (Some "correct horse") "user_2"
                 "2024-06-01T09:00:00.000Z" "salt"))
         (Some "brenda@example.com") (Some "correct horse")
         "2024-06-01T10:00:00.000Z")
  = AuthOk 200 "Login successful" "user_2" "brenda@example.com"
      (generate_token toy_crypto
         {| tu_uid := "user_2"; tu_email := "brenda@example.com" |}).
Proof.
  apply (signup_then_login toy_crypto 2026 sample_db "brenda@example.com"
           "correct horse" "user_2" "2024-06-01T09:00:00.000Z" "salt"
           "2024-06-01T10:00:00.000Z").
  - intros pw s. simpl. apply String.eqb_refl.
  - reflexivity.
Defined.

(** X25.  A failed log-in tells nothing apart: an unknown e-mail and a
    wrong password get the same 401 answer, and neither changes the
    database.  A successful log-in changes no uid, e-mail or password
    hash: it rewrites [updated_at] and nothing else. *)
Theorem login_outcome (k : crypto) (db : database) (e p now : string) :
  e <> "" -> p <> "" ->
  ((email_taken db e = false
    \/ (exists u, find (fun x => String.eqb (u_email x) e) (db_users db)
                  = Some u
                  /\ compare_password k p (u_password_hash u) = false)) ->
   login k db (Some e) (Some p) now = (db, invalid_login))
  /\ (let db' := fst (login k db (Some e) (Some p) now) in
      map u_uid (db_users db') = map u_uid (db_users db)
      /\ map u_email (db_users db') = map u_email (db_users db)
      /\ map u_password_hash (db_users db')
         = map u_password_hash (db_users db)
      /\ map u_created_at (db_users db') = map u_created_at (db_users db)
      /\ db_watchlist db' = db_watchlist db
      /\ db_user_settings db' = db_user_settings db).
Proof.
  intros Ne Np. unfold login. simpl.
  destruct (String.eqb_spec e ""); [contradiction|].
  destruct (String.eqb_spec p ""); [contradiction|]. simpl. split.
  - intros [Ht|(u & Hf & Hc)].
    + destruct (find _ (db_users db)) as [u|] eqn:F; [|reflexivity].
      apply find_some in F. destruct F as [Hu E].
      assert (email_taken db e = true)
        by (unfold email_taken; apply existsb_exists; eauto).
      congruence.
    + now rewrite Hf, Hc.
  - destruct (find _ (db_users db)) as [u|]; [|repeat split; reflexivity].
    destruct (compare_password k p (u_password_hash u)); simpl;
      [|repeat split; reflexivity].
    repeat split; try reflexivity; rewrite map_map; apply map_ext;
      intros x; now destruct (String.eqb (u_uid x) (u_uid u)).
Qed.

Lemma login_outcome_witness :
  ((email_taken sample_db "mark@example.com" = false
    \/ (exists u,
          find (fun x => String.eqb (u_email x) "mark@example.com")
            (db_users sample_db) = Some u
          /\ compare_password toy_crypto "wrong" (u_password_hash u)
             = false)) ->
   login toy_crypto sample_db (Some "mark@example.com") (Some "wrong")
     "2024-06-01T10:00:00.000Z" = (sample_db, invalid_login))
  /\ (let db' := fst (login toy_crypto sample_db (Some "mark@example.com")
                        (Some "wrong") "2024-06-01T10:00:00.000Z") in
      map u_uid (db_users db') = map u_uid (db_users sample_db)
      /\ map u_email (db_users db') = map u_email (db_users sample_db)
      /\ map u_password_hash (db_users db')
         = map u_password_hash (db_users sample_db)
      /\ map u_created_at (db_users db')
         = map u_created_at (db_users sample_db)
      /\ db_watchlist db' = db_watchlist sample_db
      /\ db_user_settings db' = db_user_settings sample_db).
Proof.
  apply (login_outcome toy_crypto sample_db "mark@example.com" "wrong"
           "2024-06-01T10:00:00.000Z"); discriminate.
Defined.

(* ------------------------------------------------------------------ *)
(** ** The sign-up form *)

Lemma validate_password_criteria (p : string) :
  validate_password p = None <->
  (8 <= String.length p)%nat
  /\ test upper_case p = true /\ test lower_case p = true
  /\ test digit p = true /\ test special p = true.
Proof.
  unfold validate_password.
  destruct (String.eqb_spec p "") as [->|N].
  - simpl. split; [discriminate|]. intros [H _]. lia.
  - destruct (Nat.ltb_spec (String.length p) 8).
    + split; [discriminate|]. intros [H' _]. lia.
    + destruct (test upper_case p), (test lower_case p), (test digit p),
        (test special p); simpl; split;
        try discriminate; try tauto; intros (_ & A & B & C & D);
        discriminate.
Qed.

(** X26.  The form accepts a password exactly when its strength meter
    reads "Very Strong": at least 8 characters with an upper-case
    letter, a lower-case letter, a digit and a special character. *)
Theorem accepted_password_is_very_strong (p : string) :
  validate_password p = None <->
  fst (get_password_strength p) = "Very Strong".
Proof.
  rewrite validate_password_criteria. unfold get_password_strength.
  destruct (Nat.ltb_spec 7 (String.length p));
    destruct (test upper_case p), (test lower_case p), (test digit p),
      (test special p); simpl; split;
    try discriminate; try (intros _; reflexivity);
    try (intros (A & B & C & D & E); try discriminate; lia);
    intros _; repeat split; lia.
Qed.

(** X27.  A password the form accepts is never refused by the server for
    its length: with a non-empty e-mail, sign-up does not answer 400. *)
Theorem form_password_passes_server_check (k : crypto) (cy : Z)
  (db : database) (e p nu now salt : string) :
  e <> "" -> validate_password p = None ->
  auth_status (snd (signup k cy db (Some e) (Some p) nu now salt))
  <> 400%nat.
Proof.
  intros Ne Hv. apply validate_password_criteria in Hv.
  destruct Hv as [Hl _]. unfold signup. simpl.
  destruct (String.eqb_spec e ""); [contradiction|].
  assert (p <> "") by (intros ->; simpl in Hl; lia).
  destruct (String.eqb_spec p ""); [contradiction|]. simpl.
  destruct (Nat.ltb_spec (String.length p) 8); [lia|].
  destruct (email_taken db e); [discriminate|].
  destruct (insert_user _ _) as [db1|]; [|discriminate].
  destruct (insert_user_settings _ _); discriminate.
Qed.

Lemma form_password_passes_server_check_witness :
  auth_status
    (snd (signup toy_crypto 2026 sample_db (Some "brenda@example.com")
            (Some "Abcdef1!") "user_2" "2024-06-01T09:00:00.000Z" "salt"))
  <> 400%nat.
Proof.
  apply (form_password_passes_server_check toy_crypto 2026 sample_db
           "brenda@example.com" "Abcdef1!" "user_2"
           "2024-06-01T09:00:00.000Z" "salt").
  - discriminate.
  - reflexivity.
Defined.

(* ------------------------------------------------------------------ *)
(** ** The check boxes of the settings page *)

Lemma dedup_NoDup_id (l : list string) :
  NoDup l -> dedup String.eqb l = l.
Proof.
  induction l as [|x l IH]; simpl; intros N; [reflexivity|].
  inversion N as [|? ? Hn N']; subst. rewrite (IH N'). f_equal.
  clear IH N N'. induction l as [|y l IH]; simpl; [reflexivity|].
  destruct (String.eqb_spec x y) as [->|_]; simpl.
  - destruct Hn. now left.
  - f_equal. apply IH. intros H. apply Hn. now right.
Qed.

Lemma filter_absent (l : list string) (u : string) :
  ~ In u l -> filter (fun x => negb (String.eqb x u)) l = l.
Proof.
  induction l as [|y l IH]; simpl; intros H; [reflexivity|].
  destruct (String.eqb_spec y u) as [->|_]; simpl.
  - destruct H. now left.
  - f_equal. apply IH. tauto.
Qed.

(** X28.  Ticking a box puts the uid in the selection and leaves the
    selection without duplicates, whatever it was; unticking removes the
    uid and nothing else; ticking a uid that was not selected and then
    unticking it gives back a duplicate-free selection unchanged. *)
Theorem checkbox_toggle_keeps_a_set (prev : list string) (uid : string) :
  (NoDup (handle_checkbox_toggle prev uid true)
   /\ forall x, In x (handle_checkbox_toggle prev uid true)
                <-> In x prev \/ x = uid)
  /\ (forall x, In x (handle_checkbox_toggle prev uid false)
                <-> In x prev /\ x <> uid)
  /\ (NoDup prev -> NoDup (handle_checkbox_toggle prev uid false))
  /\ (NoDup prev -> ~ In uid prev ->
      handle_checkbox_toggle (handle_checkbox_toggle prev uid true)
        uid false = prev).
Proof.
  unfold handle_checkbox_toggle. split; [split|split; [|split]].
  - apply dedup_string_NoDup.
  - intros x. rewrite dedup_string_In, in_app_iff. simpl. intuition.
  - intros x. rewrite filter_In. split.
    + intros [H E]. split; [exact H|].
      destruct (String.eqb_spec x uid); [discriminate|assumption].
    + intros [H N]. split; [exact H|].
      destruct (String.eqb_spec x uid); [contradiction|reflexivity].
  - apply NoDup_filter.
  - intros N H. rewrite dedup_NoDup_id by (now apply NoDup_snoc).
    rewrite filter_app, (filter_absent _ _ H). simpl.
    rewrite String.eqb_refl. simpl. apply app_nil_r.
Qed.

(* ------------------------------------------------------------------ *)
(** ** The preference form and the handler *)

Lemma firstn_In_local {A : Type} (n : nat) (l : list A) (x : A) :
  In x (firstn n l) -> In x l.
Proof.
  intros H. rewrite <- (firstn_skipn n l). apply in_or_app. now left.
Qed.





(** The form with "8.5+" chosen: the count query is refused and the
    page query is not sent. *)
Example fractional_rating_is_a_500 :
  option_map (handler table_order 2026 sample_store)
    (handle_get_recommendations 2026 fractional_form)
  = Some
      ([ (CountStatement
            ("SELECT COUNT(DISTINCT c.uid) " ++ from_text
             ++ " WHERE c.release_year BETWEEN $1 AND $2"
             ++ " AND (c.imdb_rating >= $3 OR c.rotten_tomatoes_score >= $4)"
             ++ " AND ss.uid IN ($5)")%string,
          [VInt 1900; VInt 2026; VNum (17 # 2); VNum (17 # 2);
           VText "netflix"]) ],
       Error500).
Proof. reflexivity. Qed.

(* ------------------------------------------------------------------ *)
(** ** Saving the preferences *)

Lemma values_tuple_two_in_one (u x y : string) :
  values_tuple u (two_in_one u x y)
  = (values_tuple u x ++ "," ++ values_tuple u y)%string.
Proof.
  unfold values_tuple, two_in_one.
  rewrite !append_assoc_local. reflexivity.
Qed.

Lemma concat_cons_cons (sep x y : string) (l : list string) :
  String.concat sep (x :: y :: l)
  = (x ++ sep ++ String.concat sep (y :: l))%string.
Proof. reflexivity. Qed.

Lemma concat_merged (sep a b : string) (l1 l2 : list string) :
  String.concat sep (l1 ++ (a ++ sep ++ b)%string :: l2)
  = String.concat sep (l1 ++ a :: b :: l2).
Proof.
  induction l1 as [|z l1 IH].
  - cbn [app]. rewrite concat_cons_cons. destruct l2 as [|c l2].
    + reflexivity.
    + rewrite !concat_cons_cons, !append_assoc_local. reflexivity.
  - cbn [app]. destruct l1 as [|z' l1].
    + cbn [app] in *. rewrite !concat_cons_cons. now rewrite IH.
    + cbn [app] in *. rewrite !concat_cons_cons. now rewrite IH.
Qed.

Lemma values_text_two_in_one (u x y : string) (l1 l2 : list string) :
  values_text u (l1 ++ two_in_one u x y :: l2)
  = values_text u (l1 ++ x :: y :: l2).
Proof.
  unfold values_text. rewrite !map_app. cbn [map].
  rewrite values_tuple_two_in_one. apply concat_merged.
Qed.

Lemma nonempty_ltb {A : Type} (l1 l2 : list A) (x : A) :
  (0 <? List.length (l1 ++ x :: l2))%nat = true.
Proof. apply Nat.ltb_lt. rewrite length_app. simpl. lia. Qed.

(** X30.  The rows to insert are written into the statement text, so the
    statements do not tell identifiers apart: a body whose list of
    selected services holds the single identifier [x'),('u', 'y] (for the
    user [u]) makes the handler send exactly the statements, texts and
    parameters, that it sends for the two identifiers [x] and [y] in its
    place. *)
Theorem crafted_identifier_inserts_two_rows (cy : Z) (u x y : string)
  (b : preferences_body) (l1 l2 : list string) :
  put_preferences_calls cy u
    (with_selected_services b (l1 ++ two_in_one u x y :: l2))
  = put_preferences_calls cy u
      (with_selected_services b (l1 ++ x :: y :: l2)).
Proof.
  unfold put_preferences_calls, with_selected_services.
  cbn [pb_default_mood_uid pb_min_release_year pb_max_release_year
       pb_preferred_duration_category pb_min_rating
       pb_preferred_content_type pb_parental_rating_filter_json
       pb_selected_service_uids pb_selected_genre_uids
       pb_excluded_genre_uids pb_excluded_service_uids or_default].
  f_equal. f_equal.
  unfold replace_rows.
  rewrite !nonempty_ltb, values_text_two_in_one. reflexivity.
Qed.
